(** * icon-builder.py: the aggregation pipeline of the GCP icon builder

    A shallow embedding of [scripts/icon-builder.py].  Python values are
    modelled as follows.

    - A [str] is a Rocq [string]; its characters stand for the code points
      below 256, compared by code point as Python does.
    - The contents of a file opened in binary mode are a [list byte].
    - A [dict] is an association list in insertion order: [json.dumps]
      writes the keys in that order, and assigning to a key that is already
      present keeps its place.
    - A call that may raise returns an [option] (or a three-valued result
      where the code tells the cases apart); the [try]/[except] blocks of
      the script become a [match] on it.
    - What the script prints is collected as a list of log lines, and what
      the orchestrating process does to the outside world as a list of
      events.

    The libraries the script calls (lxml, ElementTree, re, base64, json,
    pathlib) are modelled next to the code that uses them. *)

From Stdlib Require Import ZArith NArith String Ascii List Lia Bool.
From Stdlib Require Import Permutation Sorted.
From Stdlib Require Import Init.Byte DecimalString.
From Stdlib Require DecimalPos.
From stdpp Require Import base list sorting.

Import ListNotations.
Set Warnings "-register-all".
Local Open Scope string_scope.
Local Open Scope Z_scope.

(** ** Characters and strings *)

(** The double quote; string literals of this file never contain one. *)
Definition dq : ascii := "034"%char.

Definition code (c : ascii) : N := N_of_ascii c.

Fixpoint chars (s : string) : list ascii :=
  match s with
  | EmptyString => []
  | String c s' => c :: chars s'
  end.

Fixpoint of_chars (l : list ascii) : string :=
  match l with
  | [] => EmptyString
  | c :: l' => String c (of_chars l')
  end.

(** [s.startswith(p)] *)
Fixpoint startswith (p s : string) : bool :=
  match p, s with
  | EmptyString, _ => true
  | String a p', String b s' => Ascii.eqb a b && startswith p' s'
  | String _ _, EmptyString => false
  end.

(** [s.endswith(p)]: [s] is [p], or what follows its first character
    ends with [p]. *)
Fixpoint endswith (p s : string) : bool :=
  String.eqb s p ||
  match s with
  | EmptyString => false
  | String _ s' => endswith p s'
  end.

(** [p in s] for strings *)
Fixpoint contains (p s : string) : bool :=
  startswith p s ||
  match s with
  | EmptyString => false
  | String _ s' => contains p s'
  end.

(** [''.join(l)] *)
Definition join (l : list string) : string := fold_right String.append "" l.

(** ** Python's orderings

    [sorted] needs a total order: strings compare by code point, tuples and
    the parts of a path lexicographically. *)

Class Ord (A : Type) := {
  cmp : A -> A -> comparison;
  cmp_eq : forall x y, cmp x y = Eq -> x = y;
  cmp_refl : forall x, cmp x x = Eq;
  cmp_antisym : forall x y, cmp y x = CompOpp (cmp x y);
  cmp_trans : forall x y z, cmp x y = Lt -> cmp y z = Lt -> cmp x z = Lt
}.

Definition leb {A} `{Ord A} (x y : A) : bool :=
  match cmp x y with Gt => false | _ => true end.

Definition le {A} `{Ord A} (x y : A) : Prop := leb x y = true.

Section OrdFacts.
Context {A : Type} `{Ord A}.

Lemma cmp_eq_iff (x y : A) : cmp x y = Eq <-> x = y.
Proof. split; [apply cmp_eq | intros ->; apply cmp_refl]. Qed.

Lemma cmp_gt_lt (x y : A) : cmp x y = Gt <-> cmp y x = Lt.
Proof. rewrite (cmp_antisym x y). destruct (cmp x y); simpl; split; congruence. Qed.

Lemma leb_refl (x : A) : leb x x = true.
Proof. unfold leb. now rewrite cmp_refl. Qed.

Lemma leb_total (x y : A) : leb x y = true \/ leb y x = true.
Proof.
  unfold leb. rewrite (cmp_antisym x y).
  destruct (cmp x y); simpl; auto.
Qed.

Lemma leb_false_lt (x y : A) : leb x y = false -> cmp y x = Lt.
Proof.
  unfold leb. destruct (cmp x y) eqn:E; try discriminate.
  intros _. now apply cmp_gt_lt.
Qed.

Lemma leb_antisym (x y : A) : leb x y = true -> leb y x = true -> x = y.
Proof.
  unfold leb. rewrite (cmp_antisym x y).
  destruct (cmp x y) eqn:E; simpl; try discriminate.
  intros _ _. now apply cmp_eq.
Qed.

Lemma leb_trans (x y z : A) : leb x y = true -> leb y z = true -> leb x z = true.
Proof.
  unfold leb.
  destruct (cmp x y) eqn:Exy; try discriminate;
  destruct (cmp y z) eqn:Eyz; try discriminate; intros _ _.
  - apply cmp_eq in Exy. subst. now rewrite Eyz.
  - apply cmp_eq in Exy. subst. now rewrite Eyz.
  - apply cmp_eq in Eyz. subst. now rewrite Exy.
  - now rewrite (cmp_trans x y z).
Qed.

#[export] Instance le_refl : Reflexive (@le A _).
Proof. intros x. apply leb_refl. Qed.

#[export] Instance le_trans : Transitive (@le A _).
Proof. intros x y z. apply leb_trans. Qed.

#[export] Instance le_antisym : AntiSymm eq (@le A _).
Proof. intros x y. apply leb_antisym. Qed.

End OrdFacts.

(** Code points. *)
#[export, refine] Instance Ord_ascii : Ord ascii :=
  {| cmp a b := N.compare (code a) (code b) |}.
Proof.
  - intros x y E. apply N.compare_eq in E. unfold code in E.
    rewrite <- (ascii_N_embedding x), <- (ascii_N_embedding y). now f_equal.
  - intros x. apply N.compare_refl.
  - intros x y. apply N.compare_antisym.
  - intros x y z. rewrite !N.compare_lt_iff. lia.
Defined.

(** Sequences compare lexicographically; a proper prefix is smaller. *)
Fixpoint cmp_list {A} `{Ord A} (l1 l2 : list A) : comparison :=
  match l1, l2 with
  | [], [] => Eq
  | [], _ :: _ => Lt
  | _ :: _, [] => Gt
  | x :: l1', y :: l2' =>
      match cmp x y with
      | Eq => cmp_list l1' l2'
      | c => c
      end
  end.

#[export, refine] Instance Ord_list {A} `{Ord A} : Ord (list A) :=
  {| cmp := cmp_list |}.
Proof.
  - induction x as [|a x IH]; intros [|b y]; simpl; try discriminate; auto.
    destruct (cmp a b) eqn:E; try discriminate.
    intros E'. apply cmp_eq in E. apply IH in E'. congruence.
  - induction x as [|a x IH]; simpl; auto. now rewrite cmp_refl.
  - induction x as [|a x IH]; intros [|b y]; simpl; auto.
    rewrite (cmp_antisym a b). destruct (cmp a b); simpl; auto.
  - induction x as [|a x IH]; intros [|b y] [|c z]; simpl; try discriminate; auto.
    destruct (cmp a b) eqn:Eab; try discriminate;
    destruct (cmp b c) eqn:Ebc; try discriminate.
    + apply cmp_eq in Eab, Ebc. subst. rewrite cmp_refl. apply IH.
    + apply cmp_eq in Eab. subst. now rewrite Ebc.
    + apply cmp_eq in Ebc. subst. now rewrite Eab.
    + now rewrite (cmp_trans a b c).
Defined.

Lemma of_chars_chars (s : string) : of_chars (chars s) = s.
Proof. induction s; simpl; congruence. Qed.

#[export, refine] Instance Ord_string : Ord string :=
  {| cmp s t := cmp (chars s) (chars t) |}.
Proof.
  - intros x y E. apply cmp_eq in E.
    rewrite <- (of_chars_chars x), <- (of_chars_chars y). now f_equal.
  - intros x. apply cmp_refl.
  - intros x y. apply cmp_antisym.
  - intros x y z. apply cmp_trans.
Defined.

(** Tuples compare component by component. *)
#[export, refine] Instance Ord_prod {A B} `{Ord A} `{Ord B} : Ord (A * B) :=
  {| cmp p q := match cmp (fst p) (fst q) with
                | Eq => cmp (snd p) (snd q)
                | c => c
                end |}.
Proof.
  - intros [a b] [c d]; simpl. destruct (cmp a c) eqn:E; try discriminate.
    intros E'. apply cmp_eq in E, E'. congruence.
  - intros [a b]; simpl. now rewrite !cmp_refl.
  - intros [a b] [c d]; simpl. rewrite (cmp_antisym a c).
    destruct (cmp a c); simpl; auto. apply cmp_antisym.
  - intros [a b] [c d] [e f]; simpl.
    destruct (cmp a c) eqn:Eac; try discriminate;
    destruct (cmp c e) eqn:Ece; try discriminate.
    + apply cmp_eq in Eac, Ece. subst. rewrite cmp_refl. apply cmp_trans.
    + apply cmp_eq in Eac. subst. now rewrite Ece.
    + apply cmp_eq in Ece. subst. now rewrite Eac.
    + now rewrite (cmp_trans a c e).
Defined.

(** ** [sorted(l, key=...)]

    Python's sort is stable.  A stable sort has one possible result, so any
    stable algorithm models it; this one inserts each element before the
    first element whose key is not smaller. *)

Section Sorting.
Context {A K : Type} `{Ord K} (key : A -> K).

Fixpoint insert_by (x : A) (l : list A) : list A :=
  match l with
  | [] => [x]
  | y :: l' => if leb (key x) (key y) then x :: l else y :: insert_by x l'
  end.

Fixpoint sorted_by (l : list A) : list A :=
  match l with
  | [] => []
  | x :: l' => insert_by x (sorted_by l')
  end.

Definition key_le (a b : A) : Prop := le (key a) (key b).

End Sorting.

(** ** Text helpers of the standard library *)

(** [str.isspace] on one character, which is also what [\s] and [int]
    accept as white space: TAB..CR, FS..US, space, NEL and NBSP. *)
Definition is_space (c : ascii) : bool :=
  let n := code c in
  ((9 <=? n) && (n <=? 13) || (28 <=? n) && (n <=? 32)
   || (n =? 133) || (n =? 160))%N.

Definition is_digit (c : ascii) : bool :=
  let n := code c in ((48 <=? n) && (n <=? 57))%N.

Definition digit_val (c : ascii) : Z := Z.of_N (code c) - 48.

Fixpoint lstrip (p : ascii -> bool) (s : string) : string :=
  match s with
  | EmptyString => EmptyString
  | String c s' => if p c then lstrip p s' else s
  end.

Definition rstrip (p : ascii -> bool) (s : string) : string :=
  of_chars (rev (chars (lstrip p (of_chars (rev (chars s)))))).

(** [s.strip(cs)]: drops from both ends the characters that satisfy [p]. *)
Definition strip (p : ascii -> bool) (s : string) : string :=
  rstrip p (lstrip p s).

(** [s.strip("px")] *)
Definition strip_px (s : string) : string :=
  strip (fun c => Ascii.eqb c "p" || Ascii.eqb c "x") s.

(** The digits of a decimal literal: single underscores may stand between
    digits.  [us] tells that the previous character was an underscore. *)
Fixpoint int_digits (acc : Z) (us : bool) (s : string) : option Z :=
  match s with
  | EmptyString => if us then None else Some acc
  | String c s' =>
      if is_digit c then int_digits (10 * acc + digit_val c) false s'
      else if Ascii.eqb c "_" then
        if us then None else int_digits acc true s'
      else None
  end.

Definition int_unsigned (s : string) : option Z :=
  match s with
  | String c s' => if is_digit c then int_digits (digit_val c) false s' else None
  | EmptyString => None
  end.

(** [int(s)] in base 10; [None] where Python raises [ValueError]. *)
Definition py_int (s : string) : option Z :=
  match strip is_space s with
  | String "+" s' => int_unsigned s'
  | String "-" s' => option_map Z.opp (int_unsigned s')
  | t => int_unsigned t
  end.

(** ["%d" % n] *)
Definition decimal (z : Z) : string :=
  NilZero.string_of_int (Z.to_int z).

(** ** [base64.b64encode] *)

Definition b64_alphabet : list ascii :=
  chars "ABCDEFGHIJKLMNOPQRSTUVWXYZabcdefghijklmnopqrstuvwxyz0123456789+/".

Definition b64_char (n : N) : ascii :=
  nth (N.to_nat n) b64_alphabet "="%char.

Fixpoint b64encode (data : list byte) : string :=
  match data with
  | [] => ""
  | [a] =>
      let x := Byte.to_N a in
      String (b64_char (N.shiftr x 2))
        (String (b64_char (N.shiftl (N.land x 3) 4)) "==")
  | [a; b] =>
      let x := Byte.to_N a in
      let y := Byte.to_N b in
      String (b64_char (N.shiftr x 2))
        (String (b64_char (N.lor (N.shiftl (N.land x 3) 4) (N.shiftr y 4)))
           (String (b64_char (N.shiftl (N.land y 15) 2)) "="))
  | a :: b :: c :: rest =>
      let x := Byte.to_N a in
      let y := Byte.to_N b in
      let z := Byte.to_N c in
      String (b64_char (N.shiftr x 2))
        (String (b64_char (N.lor (N.shiftl (N.land x 3) 4) (N.shiftr y 4)))
           (String (b64_char (N.lor (N.shiftl (N.land y 15) 2) (N.shiftr z 6)))
              (String (b64_char (N.land z 63)) (b64encode rest))))
  end.

(** ** The element tree that lxml hands to ElementTree

    Names are in Clark notation, [{uri}local].  A comment or a processing
    instruction is a node of lxml whose [tag] is not a string. *)

Inductive node : Type :=
| Element (tag : string) (attrib : list (string * string)) (text : string)
          (children : list node) (tail : string)
| Special (text tail : string).

Definition node_tag (n : node) : option string :=
  match n with
  | Element t _ _ _ _ => Some t
  | Special _ _ => None
  end.

Definition node_children (n : node) : list node :=
  match n with
  | Element _ _ _ ch _ => ch
  | Special _ _ => []
  end.

(** Lookup in a dict. *)
Fixpoint dict_get {V} (k : string) (d : list (string * V)) : option V :=
  match d with
  | [] => None
  | (k', v) :: d' => if String.eqb k k' then Some v else dict_get k d'
  end.

(** [d[k] = v]: replaces the value in place, or appends a new key. *)
Fixpoint dict_set {V} (k : string) (v : V) (d : list (string * V)) : list (string * V) :=
  match d with
  | [] => [(k, v)]
  | (k', v') :: d' =>
      if String.eqb k k' then (k, v) :: d' else (k', v') :: dict_set k v d'
  end.

Definition dict_keys {V} (d : list (string * V)) : list string := map fst d.

(** [elem.get(name)] *)
Definition node_get (n : node) (name : string) : option string :=
  match n with
  | Element _ attrib _ _ _ => dict_get name attrib
  | Special _ _ => None
  end.

(** *** [xml.etree.ElementTree.tostring(elem, encoding='unicode', method='xml')] *)

Definition svg_ns : string := "http://www.w3.org/2000/svg".
Definition xlink_ns : string := "http://www.w3.org/1999/xlink".

(** ElementTree's table of prefixes after the two [register_namespace]
    calls of the script. *)
Definition namespace_map : list (string * string) :=
  [ ("http://www.w3.org/XML/1998/namespace", "xml");
    ("http://www.w3.org/1999/xhtml", "html");
    ("http://www.w3.org/1999/02/22-rdf-syntax-ns#", "rdf");
    ("http://schemas.xmlsoap.org/wsdl/", "wsdl");
    ("http://www.w3.org/2001/XMLSchema", "xs");
    ("http://www.w3.org/2001/XMLSchema-instance", "xsi");
    ("http://purl.org/dc/elements/1.1/", "dc");
    (svg_ns, "");
    (xlink_ns, "xlink") ].

(** [uri, tag = s.rsplit("}", 1)]: the split at the last closing brace;
    [None] when there is none (the unpacking raises). *)
Fixpoint rsplit_brace (s : string) : option (string * string) :=
  match s with
  | EmptyString => None
  | String c s' =>
      match rsplit_brace s' with
      | Some (u, t) => Some (String c u, t)
      | None => if Ascii.eqb c "}" then Some ("", s') else None
      end
  end.

Record ns_state := {
  qnames : list (string * string);      (* name -> serialized name *)
  namespaces : list (string * string)   (* uri -> prefix *)
}.

Definition add_qname (st : ns_state) (qname : string) : option ns_state :=
  match qname with
  | String "{" rest =>
      match rsplit_brace rest with
      | None => None
      | Some (uri, tag) =>
          let '(prefix, nss) :=
            match dict_get uri (namespaces st) with
            | Some p => (p, namespaces st)
            | None =>
                let p :=
                  match dict_get uri namespace_map with
                  | Some p => p
                  | None => "ns" ++ decimal (Z.of_nat (length (namespaces st)))
                  end in
                (p, if String.eqb p "xml" then namespaces st
                    else dict_set uri p (namespaces st))
            end in
          Some {| qnames := dict_set qname
                    (if String.eqb prefix "" then tag else prefix ++ ":" ++ tag)
                    (qnames st);
                  namespaces := nss |}
      end
  | _ => Some {| qnames := dict_set qname qname (qnames st);
                 namespaces := namespaces st |}
  end.

Definition note_qname (st : ns_state) (qname : string) : option ns_state :=
  match dict_get qname (qnames st) with
  | Some _ => Some st
  | None => add_qname st qname
  end.

Fixpoint note_qnames (st : ns_state) (names : list string) : option ns_state :=
  match names with
  | [] => Some st
  | n :: names' =>
      match note_qname st n with
      | Some st' => note_qnames st' names'
      | None => None
      end
  end.

(** [_namespaces]: walks [elem.iter()] and names every tag and attribute;
    a node whose tag is not a string raises. *)
Fixpoint collect_namespaces (st : ns_state) (n : node) : option ns_state :=
  match n with
  | Special _ _ => None
  | Element tag attrib _ children _ =>
      match note_qnames st (tag :: map fst attrib) with
      | None => None
      | Some st1 =>
          (fix walk (st : ns_state) (l : list node) : option ns_state :=
             match l with
             | [] => Some st
             | c :: l' =>
                 match collect_namespaces st c with
                 | Some st' => walk st' l'
                 | None => None
                 end
             end) st1 children
      end
  end.

Definition escape_cdata_char (c : ascii) : string :=
  if Ascii.eqb c "&" then "&amp;"
  else if Ascii.eqb c "<" then "&lt;"
  else if Ascii.eqb c ">" then "&gt;"
  else String c "".

Definition escape_attrib_char (c : ascii) : string :=
  if Ascii.eqb c "&" then "&amp;"
  else if Ascii.eqb c "<" then "&lt;"
  else if Ascii.eqb c ">" then "&gt;"
  else if Ascii.eqb c dq then "&quot;"
  else if Ascii.eqb c "013" then "&#13;"
  else if Ascii.eqb c "010" then "&#10;"
  else if Ascii.eqb c "009" then "&#09;"
  else String c "".

Fixpoint escape_with (f : ascii -> string) (s : string) : string :=
  match s with
  | EmptyString => ""
  | String c s' => f c ++ escape_with f s'
  end.

Definition escape_cdata : string -> string := escape_with escape_cdata_char.
Definition escape_attrib : string -> string := escape_with escape_attrib_char.

(** One attribute or declaration: [ name="value"]. *)
Definition attr_text (name value : string) : string :=
  " " ++ name ++ "=" ++ String dq (value ++ String dq "").

(** The declarations written into the start tag of the serialized root,
    sorted by prefix. *)
Definition xmlns_decl (ns : string * string) : string :=
  let '(uri, prefix) := ns in
  attr_text ("xmlns" ++ (if String.eqb prefix "" then "" else ":" ++ prefix))
            (escape_attrib uri).

Definition xmlns_decls (nss : list (string * string)) : string :=
  join (map xmlns_decl (sorted_by snd nss)).

Fixpoint attrs_text (qn : list (string * string)) (items : list (string * string))
  : option string :=
  match items with
  | [] => Some ""
  | (k, v) :: items' =>
      match dict_get k qn, attrs_text qn items' with
      | Some k', Some rest => Some (attr_text k' (escape_attrib v) ++ rest)
      | _, _ => None
      end
  end.

(** [_serialize_xml]; [nss] is given for the root only. *)
Fixpoint serialize_xml (qn : list (string * string))
    (nss : list (string * string)) (n : node) : option string :=
  match n with
  | Special _ _ => None
  | Element tag attrib text children tail =>
      match dict_get tag qn, attrs_text qn attrib,
            (fix each (l : list node) : option string :=
               match l with
               | [] => Some ""
               | c :: l' =>
                   match serialize_xml qn [] c, each l' with
                   | Some s, Some rest => Some (s ++ rest)
                   | _, _ => None
                   end
               end) children with
      | Some t, Some attrs, Some inner =>
          Some ("<" ++ t ++ xmlns_decls nss ++ attrs ++
                (match text, children with
                 | EmptyString, [] => " />"
                 | _, _ => ">" ++ escape_cdata text ++ inner ++ "</" ++ t ++ ">"
                 end) ++ escape_cdata tail)
      | _, _, _ => None
      end
  end.

Definition tostring (n : node) : option string :=
  match collect_namespaces {| qnames := []; namespaces := [] |} n with
  | Some st => serialize_xml (qnames st) (namespaces st) n
  | None => None
  end.

(** ** The two regular expressions of the script *)

Definition newline : string := String "010" "".

Fixpoint sdrop (n : nat) (s : string) : string :=
  match n, s with
  | S k, String _ s' => sdrop k s'
  | _, _ => s
  end.

(** The length of a match of [[^"]*"] at the head of [s]. *)
Fixpoint to_quote (s : string) : option nat :=
  match s with
  | EmptyString => None
  | String c s' =>
      if Ascii.eqb c dq then Some 1%nat else option_map S (to_quote s')
  end.

(** The length of the match of [\sxmlns[^"]*"[^"]*"] at the head of [s].
    Each starred class is followed by the one character it excludes, so the
    greedy match is the only one. *)
Definition match_xmlns (s : string) : option nat :=
  match s with
  | String c s' =>
      if is_space c && startswith "xmlns" s' then
        let r := sdrop 5 s' in
        match to_quote r with
        | Some n1 =>
            match to_quote (sdrop n1 r) with
            | Some n2 => Some (6 + n1 + n2)%nat
            | None => None
            end
        | None => None
        end
      else None
  | EmptyString => None
  end.

(** [re.sub(r'\sxmlns[^"]*"[^"]*"', '', s)]: scans from the left and deletes
    each match; [skip] counts the characters of the current match that are
    still to be dropped. *)
Fixpoint sub_xmlns_from (skip : nat) (s : string) : string :=
  match s with
  | EmptyString => ""
  | String c s' =>
      match skip with
      | S k => sub_xmlns_from k s'
      | O =>
          match match_xmlns s with
          | Some (S k) => sub_xmlns_from k s'
          | _ => String c (sub_xmlns_from 0 s')
          end
      end
  end.

Definition sub_xmlns (s : string) : string := sub_xmlns_from 0 s.

(** [re.sub(r'\.png$', '.svg', s)]: [$] matches at the end of the string
    and before a newline that ends it. *)
Fixpoint sub_png_svg (s : string) : string :=
  match s with
  | EmptyString => ""
  | String c s' =>
      if String.eqb s ".png" then ".svg"
      else if String.eqb s (".png" ++ newline) then ".svg" ++ newline
      else String c (sub_png_svg s')
  end.

(** ** [json.dumps(value, indent=2)] *)

Inductive json : Type :=
| JString (s : string)
| JInt (z : Z)
| JList (l : list json)
| JDict (d : list (string * json)).

Definition hex_digit (n : N) : ascii :=
  nth (N.to_nat n) (chars "0123456789abcdef") "0"%char.

(** One character of a string literal, with [ensure_ascii]. *)
Definition json_char (c : ascii) : string :=
  let n := code c in
  if Ascii.eqb c dq then String "\" (String dq "")
  else if Ascii.eqb c "\" then "\\"
  else if (n =? 10)%N then "\n"
  else if (n =? 13)%N then "\r"
  else if (n =? 9)%N then "\t"
  else if (n =? 8)%N then "\b"
  else if (n =? 12)%N then "\f"
  else if ((32 <=? n) && (n <=? 126))%N then String c ""
  else "\u00" ++ String (hex_digit (N.shiftr n 4)) (String (hex_digit (N.land n 15)) "").

Definition json_string (s : string) : string :=
  String dq (escape_with json_char s ++ String dq "").

Fixpoint spaces (n : nat) : string :=
  match n with
  | O => ""
  | S k => String " " (spaces k)
  end.

Definition newline_indent (level : nat) : string := newline ++ spaces (2 * level).

Fixpoint join_sep (sep : string) (l : list string) : string :=
  match l with
  | [] => ""
  | [x] => x
  | x :: l' => x ++ sep ++ join_sep sep l'
  end.

Fixpoint dumps_at (level : nat) (j : json) : string :=
  match j with
  | JString s => json_string s
  | JInt z => decimal z
  | JList [] => "[]"
  | JList l =>
      "[" ++ newline_indent (S level)
          ++ join_sep ("," ++ newline_indent (S level)) (map (dumps_at (S level)) l)
          ++ newline_indent level ++ "]"
  | JDict [] => "{}"
  | JDict d =>
      "{" ++ newline_indent (S level)
          ++ join_sep ("," ++ newline_indent (S level))
               (map (fun kv => json_string (fst kv) ++ ": " ++ dumps_at (S level) (snd kv)) d)
          ++ newline_indent level ++ "}"
  end.

Definition json_dumps (j : json) : string := dumps_at 0 j.

(** ** Release metadata (lines 28-30) *)

(** [s.split(sep)] for a one-character separator. *)
Fixpoint split_on (sep : ascii) (s : string) : list string :=
  match s with
  | EmptyString => [""]
  | String c s' =>
      if Ascii.eqb c sep then "" :: split_on sep s'
      else match split_on sep s' with
           | [] => [String c ""]
           | w :: ws => String c w :: ws
           end
  end.

Record date := { year : Z; month : Z; day : Z }.

(** [datetime.strptime(s, "%Y-%m-%d")], for a string made of three
    hyphen-separated numbers. *)
Definition strptime_ymd (s : string) : option date :=
  match map int_unsigned (split_on "-" s) with
  | [Some y; Some m; Some d] => Some {| year := y; month := m; day := d |}
  | _ => None
  end.

Definition is_leap (y : Z) : bool :=
  (y mod 4 =? 0) && (negb (y mod 100 =? 0) || (y mod 400 =? 0)).

Definition days_in_month (y m : Z) : Z :=
  if m =? 2 then (if is_leap y then 29 else 28)
  else if (m =? 4) || (m =? 6) || (m =? 9) || (m =? 11) then 30
  else 31.

Definition days_before_year (y : Z) : Z :=
  let p := y - 1 in p * 365 + p / 4 - p / 100 + p / 400.

Definition days_before_month (y m : Z) : Z :=
  fold_right Z.add 0 (map (days_in_month y) (map Z.of_nat (seq 1 (Z.to_nat (m - 1))))).

(** [date.toordinal()] *)
Definition toordinal (d : date) : Z :=
  days_before_year (year d) + days_before_month (year d) (month d) + day d.

(** [int(d.replace(tzinfo=timezone.utc).timestamp())] for midnight of [d]. *)
Definition utc_timestamp (d : date) : Z :=
  (toordinal d - toordinal {| year := 1970; month := 1; day := 1 |}) * 86400.

Definition release_version : string := "20.0".

Definition release_date_obj : option date := strptime_ymd "2025-02-07".

Definition release_utc_seconds : Z :=
  match release_date_obj with
  | Some d => utc_timestamp d
  | None => 0
  end.

(** ** Icons and the world the script runs in *)

(** A [pathlib] path is the list of its parts; paths compare part by part. *)
Definition path : Type := list string.

(** [str(p)] for a relative path. *)
Definition path_str (p : path) : string := join_sep "/" p.

(** Modelled from the spec: the configuration loaded from [config.yml], as
    far as this script depends on it.  The class [Icon] lives in
    [gcpicons/icon.py], which is not among the sources; by sections 2 and 3
    of the specification it derives a category and a target name from the
    source path and the configuration. *)
Record Config := {
  category_of : path -> string;
  target_of : path -> string
}.

(** Modelled from the spec: an [Icon] is identified by its category, its
    target name and its source file path (section 3). *)
Record Icon := {
  filename : path;
  category : string;
  target : string
}.

(** [Icon(filename, config)] *)
Definition Icon_new (p : path) (config : Config) : Icon :=
  {| filename := p; category := category_of config p; target := target_of config p |}.

(** What the script prints. *)
Inductive log_line : Type :=
| WrongWorkingDirectory
| ConfigError
| CommonPumlNotFound
| OfficialNotFound
| PlantumlError
| PrerequisitesMet
| ErrorParsingSvg (file : string)
| ErrorReadingPng (file : string)
| UnsupportedOrMissing (file : string)
| ErrorAdding (tgt : string)
| AllProcessed.

(** What the orchestrating process and its pool do to the outside world. *)
Inductive event : Type :=
| EvPrint (l : log_line)
| EvRmtree (p : string)
| EvMkdir (p : string) (exist_ok : bool)
| EvCopy (src dst : string)
| EvSubmit (i : Icon)
| EvJob (i : Icon)
| EvJoin
| EvWrite (p : string) (content : string).

(** The environment of one run.  A call that touches the file system may
    raise; which calls do is part of the environment, as is the order in
    which the pool starts the submitted jobs. *)
Record World := {
  (** [str(Path(".").absolute())] *)
  cwd : string;
  (** [yaml.safe_load] of [config.yml]; [None] when opening or loading raises *)
  config_yml : option Config;
  (** [Path(p).exists()]; [None] when it raises *)
  path_exists : string -> option bool;
  (** [open(p, "rb").read()]; [None] when it raises *)
  read_bytes : string -> option (list byte);
  (** the root of [etree.parse(p, parser)]; [None] when it raises *)
  etree_parse : string -> option node;
  (** [subprocess.run([...])]: the return code, or [None] when it raises *)
  plantuml_version : option Z;
  (** [args["check_env"]] *)
  check_env : bool;
  (** [Path(".").glob("../source/*.puml")], in enumeration order *)
  glob_puml : list path;
  (** [Path("../source/official").glob("**/*.png")], in enumeration order *)
  glob_png : list path;
  (** whether a file-system operation of the orchestrator raises *)
  raises : event -> bool;
  (** the interleaving of the pool: [0] lets the orchestrator go on, [S k]
      starts the [k]-th waiting job *)
  schedule : list nat;
  (** [multiprocessing.cpu_count()] *)
  cpu_count : nat;
  (** the wall-clock time of the run, in seconds since the epoch *)
  clock : Z
}.

(** ** The manifest *)

Record IconEntry := {
  body : string;
  width : Z;
  height : Z
}.

Record Mermaid := {
  prefix : string;
  info_name : string;
  info_total : Z;
  info_version : string;
  lastModified : Z;
  default_width : Z;
  default_height : Z;
  icons : list (string * IconEntry);
  categories : list (string * list string)
}.

Definition json_of_entry (e : IconEntry) : json :=
  JDict [("body", JString (body e)); ("width", JInt (width e)); ("height", JInt (height e))].

Definition json_of_mermaid (m : Mermaid) : json :=
  JDict [
    ("prefix", JString (prefix m));
    ("info", JDict [("name", JString (info_name m));
                    ("total", JInt (info_total m));
                    ("version", JString (info_version m))]);
    ("lastModified", JInt (lastModified m));
    ("width", JInt (default_width m));
    ("height", JInt (default_height m));
    ("icons", JDict (map (fun kv => (fst kv, json_of_entry (snd kv))) (icons m)));
    ("categories",
     JDict (map (fun kv => (fst kv, JList (map JString (snd kv)))) (categories m)))
  ].

(** ** [build_mermaid_icon] (lines 83-119) *)

Definition svg_title_tag : string := "{http://www.w3.org/2000/svg}title".

(** [child.tag != '{http://www.w3.org/2000/svg}title'] *)
Definition not_title (n : node) : bool :=
  match node_tag n with
  | Some t => negb (String.eqb t svg_title_tag)
  | None => true
  end.

(** [''.join(ET.tostring(child, ...) for child in ...)] *)
Fixpoint join_tostring (l : list node) : option string :=
  match l with
  | [] => Some ""
  | c :: l' =>
      match tostring c, join_tostring l' with
      | Some s, Some rest => Some (s ++ rest)
      | _, _ => None
      end
  end.

(** [int(svg_root.get(name).strip("px"))] *)
Definition dimension (root : node) (name : string) : option Z :=
  match node_get root name with
  | Some v => py_int (strip_px v)
  | None => None
  end.

(** The [try] block of lines 87-99; [None] when anything in it raises. *)
Definition embed_svg (w : World) (file : string) : option IconEntry :=
  match etree_parse w file with
  | None => None
  | Some svg_root =>
      match dimension svg_root "width" with
      | None => None
      | Some wd =>
          match dimension svg_root "height" with
          | None => None
          | Some ht =>
              match join_tostring (List.filter not_title (node_children svg_root)) with
              | None => None
              | Some svg_body =>
                  Some {| body := sub_xmlns svg_body; width := wd; height := ht |}
              end
          end
      end
  end.

(** The [try] block of lines 104-107. *)
Definition embed_png (w : World) (file : string) : option IconEntry :=
  match read_bytes w file with
  | None => None
  | Some png_data =>
      Some {| body := "data:image/png;base64," ++ b64encode png_data;
              width := 64; height := 64 |}
  end.

(** Lines 115-119. *)
Definition add_icon (m : Mermaid) (cat tgt : string) (e : IconEntry) : Mermaid :=
  let cats :=
    match dict_get cat (categories m) with
    | None => dict_set cat [] (categories m)
    | Some _ => categories m
    end in
  let cats' :=
    match dict_get cat cats with
    | Some l => dict_set cat (l ++ [tgt])%list cats
    | None => cats
    end in
  {| prefix := prefix m;
     info_name := info_name m;
     info_total := info_total m + 1;
     info_version := info_version m;
     lastModified := lastModified m;
     default_width := default_width m;
     default_height := default_height m;
     icons := dict_set tgt e (icons m);
     categories := cats' |}.

(** [s.endswith(ext) and Path(s).exists()] *)
Definition is_existing (w : World) (ext file : string) : option bool :=
  if endswith ext file then path_exists w file else Some false.

(** The manifest after the call and what it printed; [None] when the call
    raises, which only [Path.exists] outside the [try] blocks can do. *)
Definition build_mermaid_icon (w : World) (mermaid : Mermaid)
    (file cat mermaid_target : string) : option (Mermaid * list log_line) :=
  match is_existing w ".svg" file with
  | None => None
  | Some true =>
      match embed_svg w file with
      | Some e => Some (add_icon mermaid cat mermaid_target e, [])
      | None => Some (mermaid, [ErrorParsingSvg file])
      end
  | Some false =>
      match is_existing w ".png" file with
      | None => None
      | Some true =>
          match embed_png w file with
          | Some e => Some (add_icon mermaid cat mermaid_target e, [])
          | None => Some (mermaid, [ErrorReadingPng file])
          end
      | Some false => Some (mermaid, [UnsupportedOrMissing file])
      end
  end.

(** ** The orchestrator: a trace of events and how the process ends *)

Inductive result (A : Type) : Type :=
| Ok (a : A)
| Exit (status : Z)
| Raise.

Arguments Ok {A} a.
Arguments Exit {A} status.
Arguments Raise {A}.

Definition Run (A : Type) : Type := list event * result A.

Definition ret {A} (a : A) : Run A := ([], Ok a).

Definition bind {A B} (m : Run A) (f : A -> Run B) : Run B :=
  match m with
  | (tr, Ok a) => let '(tr', r) := f a in ((tr ++ tr')%list, r)
  | (tr, Exit c) => (tr, Exit c)
  | (tr, Raise) => (tr, Raise)
  end.

Notation "x <- m ;; k" := (bind m (fun x => k))
  (at level 90, m at level 80, right associativity).
Notation "m ;;; k" := (bind m (fun _ => k))
  (at level 90, right associativity).

Definition print (l : log_line) : Run unit := ([EvPrint l], Ok tt).

Definition sys_exit {A} (status : Z) : Run A := ([], Exit status).

(** A file-system operation: it happens, or it raises. *)
Definition perform (w : World) (e : event) : Run unit :=
  if raises w e then ([], Raise) else ([e], Ok tt).

Definition exists_ (w : World) (p : string) : Run bool :=
  match path_exists w p with
  | Some b => ret b
  | None => ([], Raise)
  end.

Fixpoint for_each {A} (l : list A) (f : A -> Run unit) : Run unit :=
  match l with
  | [] => ret tt
  | x :: l' => f x ;;; for_each l' f
  end.

(** The exit status of the process: an uncaught exception ends it with 1. *)
Definition exit_status {A} (r : Run A) : Z :=
  match snd r with
  | Ok _ => 0
  | Exit c => c
  | Raise => 1
  end.

Definition trace {A} (r : Run A) : list event := fst r.

(** *** [verify_environment] (lines 33-64) *)

(** [str(cur_dir.absolute()).split("/")[-2:] == [..., ...]] *)
Definition cwd_ok (w : World) : bool :=
  let parts := split_on "/" (cwd w) in
  match skipn (length parts - 2) parts with
  | [a; b] => String.eqb a "gcp-icons-for-plantuml" && String.eqb b "scripts"
  | _ => false
  end.

Definition verify_environment (w : World) : Run Config :=
  if negb (cwd_ok w) then print WrongWorkingDirectory ;;; sys_exit 1
  else
    match config_yml w with
    | None => print ConfigError ;;; sys_exit 1
    | Some config =>
        common <- exists_ w "../source/GCPCommon.puml" ;;
        if negb common then print CommonPumlNotFound ;;; sys_exit 1
        else
          official <- exists_ w "../source/official" ;;
          if negb official then print OfficialNotFound ;;; sys_exit 1
          else
            match plantuml_version w with
            | None => print PlantumlError ;;; sys_exit 1
            | Some _ =>
                if check_env w then print PrerequisitesMet ;;; sys_exit 0
                else ret config
            end
    end.

(** *** [clean_dist], [copy_puml], [build_file_list] (lines 67-80) *)

Definition clean_dist (w : World) : Run unit :=
  present <- exists_ w "../dist" ;;
  (if present then perform w (EvRmtree "../dist") else ret tt) ;;;
  perform w (EvMkdir "../dist" false).

Definition copy_puml (w : World) : Run unit :=
  for_each (glob_puml w) (fun file => perform w (EvCopy (path_str file) "../dist")).

Definition build_file_list (w : World) : list path :=
  sorted_by id (glob_png w).

(** *** The pool (lines 153-157)

    A job starts at some time after it was submitted and before [join]
    returns.  When the schedule runs out the orchestrator submits what is
    left and the waiting jobs start in order. *)
Fixpoint remove_nth {A} (k : nat) (l : list A) : list A :=
  match k, l with
  | _, [] => []
  | O, _ :: l' => l'
  | S k', x :: l' => x :: remove_nth k' l'
  end.

Fixpoint pool_run (sched : list nat) (todo waiting : list Icon) : list event :=
  match sched with
  | [] => (map EvSubmit todo ++ map EvJob (waiting ++ todo))%list
  | O :: sched' =>
      match todo with
      | i :: todo' => EvSubmit i :: pool_run sched' todo' (waiting ++ [i])%list
      | [] => pool_run sched' [] waiting
      end
  | S k :: sched' =>
      match nth_error waiting k with
      | Some i => EvJob i :: pool_run sched' todo (remove_nth k waiting)
      | None => pool_run sched' todo waiting
      end
  end.

Definition run_pool (w : World) (icons : list Icon) : Run unit :=
  ((pool_run (schedule w) icons [] ++ [EvJoin])%list, Ok tt).

(** *** The aggregation loop (lines 159-183) *)

Record ThemeElement := {
  tag : string;
  stroke : string;
  icon : string
}.

Record Theme := {
  theme_name : string;
  elements : list ThemeElement
}.

Definition json_of_theme (t : Theme) : json :=
  JDict [
    ("name", JString (theme_name t));
    ("elements",
     JList (map (fun e => JDict [("tag", JString (tag e));
                                 ("stroke", JString (stroke e));
                                 ("icon", JString (icon e))])
                (elements t)))
  ].

Record Aggregate := {
  markdown : list string;
  structerizr : Theme;
  mermaid : Mermaid;
  printed : list log_line
}.

Definition initial : Aggregate :=
  {| markdown := ["# GCP Symbols" ++ newline ++ newline];
     structerizr := {| theme_name := "GCP Icons Structurizr theme"; elements := [] |};
     mermaid := {| prefix := "gcp";
                   info_name := "GCP Icons";
                   info_total := 0;
                   info_version := release_version;
                   lastModified := release_utc_seconds;
                   default_width := 64;
                   default_height := 64;
                   icons := [];
                   categories := [] |};
     printed := [] |}.

Definition markdown_row (cat tgt : string) : string :=
  cat ++ " | " ++ tgt ++ " | ![" ++ tgt ++ "](dist/" ++ cat ++ "/" ++ tgt
      ++ ".png?raw=true) | " ++ cat ++ "/" ++ tgt ++ ".puml" ++ newline.

Definition theme_element (cat tgt : string) : ThemeElement :=
  {| tag := tgt; stroke := "#4284F3"; icon := cat ++ "/" ++ tgt ++ ".png" |}.

(** The file the manifest entry of [j] is built from (lines 177-181);
    [None] when [Path.exists] raises. *)
Definition svg_filename (j : Icon) : string := sub_png_svg (path_str (filename j)).

Definition embed_source (w : World) (j : Icon) : option string :=
  match path_exists w (svg_filename j) with
  | None => None
  | Some true => Some (svg_filename j)
  | Some false => Some (path_str (filename j))
  end.

(** The [try] statement of lines 176-183. *)
Definition add_to_mermaid (w : World) (m : Mermaid) (j : Icon) : Mermaid * list log_line :=
  match embed_source w j with
  | None => (m, [ErrorAdding (target j)])
  | Some file =>
      match build_mermaid_icon w m file (category j) (target j) with
      | Some r => r
      | None => (m, [ErrorAdding (target j)])
      end
  end.

(** One turn of the loop of line 172. *)
Definition process_icon (w : World) (a : Aggregate) (j : Icon) : Aggregate :=
  let cat := category j in
  let tgt := target j in
  let '(m, out) := add_to_mermaid w (mermaid a) j in
  {| markdown := (markdown a ++ [markdown_row cat tgt])%list;
     structerizr :=
       {| theme_name := theme_name (structerizr a);
          elements := (elements (structerizr a) ++ [theme_element cat tgt])%list |};
     mermaid := m;
     printed := (printed a ++ out)%list |}.

Definition icon_key (j : Icon) : string * string := (category j, target j).

Definition sorted_icons (icons : list Icon) : list Icon := sorted_by icon_key icons.

Definition aggregate (w : World) (icons : list Icon) : Aggregate :=
  fold_left (process_icon w) (sorted_icons icons) initial.

(** The three files written at the end (lines 185-190). *)
Record Outputs := {
  symbols_md : string;
  theme_json : string;
  mermaid_json : string
}.

Definition outputs_of (a : Aggregate) : Outputs :=
  {| symbols_md := join (markdown a);
     theme_json := json_dumps (json_of_theme (structerizr a));
     mermaid_json := json_dumps (json_of_mermaid (mermaid a)) |}.

(** *** [main] (lines 141-192) *)

(** [sorted(set(l))]: the order in which a set is walked does not matter
    once it is sorted, so the set is the list without its repetitions. *)
Fixpoint distinct (l : list string) : list string :=
  match l with
  | [] => []
  | x :: l' => if existsb (String.eqb x) l' then distinct l' else x :: distinct l'
  end.

Definition category_names (icons : list Icon) : list string :=
  sorted_by id (distinct (map category icons)).

Definition dist_dir (cat : string) : string := "../dist/" ++ cat.

Definition make_category_dirs (w : World) (icons : list Icon) : Run unit :=
  for_each (category_names icons) (fun i => perform w (EvMkdir (dist_dir i) true)).

Definition discover (w : World) (config : Config) : list Icon :=
  map (fun file => Icon_new file config) (build_file_list w).

Definition write_outputs (w : World) (o : Outputs) : Run unit :=
  perform w (EvWrite "../GCPSymbols.md" (symbols_md o)) ;;;
  perform w (EvWrite "../dist/gcp-icons-structurizr-theme.json" (theme_json o)) ;;;
  perform w (EvWrite "../dist/gcp-icons-mermaid.json" (mermaid_json o)).

Definition main (w : World) : Run unit :=
  config <- verify_environment w ;;
  clean_dist w ;;;
  copy_puml w ;;;
  let icons := discover w config in
  make_category_dirs w icons ;;;
  run_pool w icons ;;;
  let a := aggregate w icons in
  (map EvPrint (printed a), Ok tt) ;;;
  write_outputs w (outputs_of a) ;;;
  print AllProcessed.

(** ** Notions the properties are stated with *)

(** The entry that the loop adds to the manifest for [j], read off
    [add_to_mermaid] and [build_mermaid_icon]; [None] when the manifest is
    left as it is. *)
Definition embedded (w : World) (j : Icon) : option IconEntry :=
  match embed_source w j with
  | None => None
  | Some file =>
      match is_existing w ".svg" file with
      | None => None
      | Some true => embed_svg w file
      | Some false =>
          match is_existing w ".png" file with
          | Some true => embed_png w file
          | _ => None
          end
      end
  end.

Definition is_embedded (w : World) (j : Icon) : bool :=
  match embedded w j with Some _ => true | None => false end.

(** The manifest after one icon, as a function of [embedded]. *)
Definition put (w : World) (m : Mermaid) (j : Icon) : Mermaid :=
  match embedded w j with
  | Some e => add_icon m (category j) (target j) e
  | None => m
  end.

(** The keys of a dict after assigning to [l] in turn. *)
Definition note_key (acc : list string) (k : string) : list string :=
  if existsb (String.eqb k) acc then acc else (acc ++ [k])%list.

Definition first_seen (l : list string) : list string := fold_left note_key l [].

(** Why an icon does not reach the manifest, with the line printed for it.
    [path_str (filename j)] is the raster file found by the enumeration and
    [svg_filename j] the name of its vector sibling. *)
Inductive embed_failure (w : World) (j : Icon) : log_line -> Prop :=
| vector_unparsed :
    (* malformed markup, or a file lxml cannot read *)
    endswith ".png" (path_str (filename j)) = true ->
    path_exists w (svg_filename j) = Some true ->
    etree_parse w (svg_filename j) = None ->
    embed_failure w j (ErrorParsingSvg (svg_filename j))
| vector_without_size root name :
    (* a missing or non-numeric width or height *)
    endswith ".png" (path_str (filename j)) = true ->
    path_exists w (svg_filename j) = Some true ->
    etree_parse w (svg_filename j) = Some root ->
    name = "width" \/ name = "height" ->
    dimension root name = None ->
    embed_failure w j (ErrorParsingSvg (svg_filename j))
| vector_not_serialized root :
    (* a comment or processing instruction below the root *)
    endswith ".png" (path_str (filename j)) = true ->
    path_exists w (svg_filename j) = Some true ->
    etree_parse w (svg_filename j) = Some root ->
    join_tostring (List.filter not_title (node_children root)) = None ->
    embed_failure w j (ErrorParsingSvg (svg_filename j))
| raster_unreadable :
    endswith ".png" (path_str (filename j)) = true ->
    path_exists w (svg_filename j) = Some false ->
    path_exists w (path_str (filename j)) = Some true ->
    read_bytes w (path_str (filename j)) = None ->
    embed_failure w j (ErrorReadingPng (path_str (filename j)))
| file_missing :
    path_exists w (svg_filename j) = Some false ->
    path_exists w (path_str (filename j)) = Some false ->
    embed_failure w j (UnsupportedOrMissing (path_str (filename j)))
| exists_raised :
    path_exists w (svg_filename j) = None ->
    embed_failure w j (ErrorAdding (target j)).

(** Whether a directory is there after the events of [tr]: it was made and
    no directory above it was removed since. *)
Definition dir_step (p : string) (there : bool) (e : event) : bool :=
  match e with
  | EvMkdir q _ => there || String.eqb q p
  | EvRmtree q => there && negb (startswith q p)
  | _ => there
  end.

Definition dir_exists (tr : list event) (p : string) : bool :=
  fold_left (dir_step p) tr false.

Definition is_job_event (e : event) : bool :=
  match e with
  | EvSubmit _ | EvJob _ => true
  | _ => false
  end.

(** The contents of the files written, in the order of writing. *)
Definition written (tr : list event) : list (string * string) :=
  flat_map (fun e => match e with EvWrite p c => [(p, c)] | _ => [] end) tr.

(** Two worlds hold the same source files. *)
Definition same_sources (w1 w2 : World) : Prop :=
  (forall p, path_exists w1 p = path_exists w2 p) /\
  (forall p, read_bytes w1 p = read_bytes w2 p) /\
  (forall p, etree_parse w1 p = etree_parse w2 p).

(** The targets that the icons of category [c] in [l] add to its group. *)
Definition group_of (w : World) (c : string) (l : list Icon) : list string :=
  map target (List.filter (fun j => is_embedded w j && String.eqb (category j) c) l).

Definition extend_group (old : option (list string)) (new : list string)
  : option (list string) :=
  match old, new with
  | None, [] => None
  | None, _ => Some new
  | Some l, _ => Some (l ++ new)%list
  end.

(** No job is submitted or started in [tr]. *)
Definition quiet (tr : list event) : Prop :=
  Forall (fun e => is_job_event e = false) tr.

(** No directory tree is removed in [tr]. *)
Definition keeps_dirs (tr : list event) : Prop :=
  Forall (fun e => match e with EvRmtree _ => False | _ => True end) tr.

(** The reading of the index entries under which every output has one
    entry per icon it processed: a row and a theme element per discovered
    icon, a manifest key per embedded icon. *)
Definition one_entry_per_icon (w : World) (l : list Icon) : Prop :=
  let a := aggregate w l in
  tl (markdown a)
  = map (fun j => markdown_row (category j) (target j)) (sorted_icons l) /\
  elements (structerizr a)
  = map (fun j => theme_element (category j) (target j)) (sorted_icons l) /\
  dict_keys (icons (mermaid a))
  = map target (List.filter (is_embedded w) (sorted_icons l)).

(** The reading of the claim about vector icons of 32 by 32 pixels: the
    entry has these dimensions and its body mentions neither [xmlns] nor a
    [title] element. *)
Definition vector_entry_is_clean (w : World) (j : Icon) : Prop :=
  forall (root : node) (e : IconEntry),
    etree_parse w (svg_filename j) = Some root ->
    node_get root "width" = Some "32px" ->
    node_get root "height" = Some "32px" ->
    embedded w j = Some e ->
    width e = 32 /\ height e = 32 /\
    contains "xmlns" (body e) = false /\ contains "<title" (body e) = false.

(** The serialization of an element without the namespace declarations
    in its start tag. *)
Definition tostring_plain (n : node) : option string :=
  match collect_namespaces {| qnames := []; namespaces := [] |} n with
  | Some st => serialize_xml (qnames st) [] n
  | None => None
  end.

Fixpoint join_plain (l : list node) : option string :=
  match l with
  | [] => Some ""
  | c :: l' =>
      match tostring_plain c, join_plain l' with
      | Some s, Some rest => Some (s ++ rest)
      | _, _ => None
      end
  end.

Fixpoint no_space (s : string) : bool :=
  match s with
  | EmptyString => true
  | String c s' => negb (is_space c) && no_space s'
  end.

Fixpoint no_quote (s : string) : bool :=
  match s with
  | EmptyString => true
  | String c s' => negb (Ascii.eqb c dq) && no_quote s'
  end.

(** The name under which the serializer writes the tag of an element. *)
Definition serialized_tag (n : node) : option string :=
  match n, collect_namespaces {| qnames := []; namespaces := [] |} n with
  | Element tag _ _ _ _, Some st => dict_get tag (qnames st)
  | _, _ => None
  end.

(** An element whose tag is written without white space, as every name
    of a parsed document is. *)
Definition plain_tag (n : node) : bool :=
  match serialized_tag n with
  | Some t => no_space t
  | None => false
  end.

(** No white space of [s] is followed by [xmlns], where [x] is the text
    that follows [s]. *)
Fixpoint clear_before (x s : string) : bool :=
  match s with
  | EmptyString => true
  | String c s' =>
      negb (is_space c && startswith "xmlns" (s' ++ x)) && clear_before x s'
  end.

Definition no_xmlns_after_space (s : string) : bool := clear_before "" s.

(** The root without its children tagged as SVG title. *)
Definition without_svg_titles (n : node) : node :=
  match n with
  | Element tag attrib text children tail =>
      Element tag attrib text (List.filter not_title children) tail
  | Special _ _ => n
  end.

(** ** A sample source tree

    Three icons: [AI/z.png] with a vector sibling, [Compute/a.png] whose
    bytes are [Man], and [Compute/b.png], which cannot be read. *)

Definition svg_name (local : string) : string := "{" ++ svg_ns ++ "}" ++ local.

Definition official (cat file : string) : path :=
  [".."; "source"; "official"; cat; file].

(** The category is the folder of the file and the target its base name. *)
Definition sample_config : Config :=
  {| category_of p := nth 3 p "";
     target_of p :=
       match nth_error p 4 with
       | Some f => substring 0 (String.length f - 4) f
       | None => ""
       end |}.

(** [<svg xmlns=... width="32px" height="32px" viewBox="0 0 32 32">
      <title>Icon</title>
      <g id="a"><title>inner</title><path d="M0 0"/></g></svg>] *)
Definition sample_svg : node :=
  Element (svg_name "svg")
    [("width", "32px"); ("height", "32px"); ("viewBox", "0 0 32 32")] ""
    [ Element (svg_name "title") [] "Icon" [] "";
      Element (svg_name "g") [("id", "a")] ""
        [ Element (svg_name "title") [] "inner" [] "";
          Element (svg_name "path") [("d", "M0 0")] "" [] "" ] "" ] "".

Definition sample_paths : list string :=
  [ "../source/GCPCommon.puml"; "../source/official"; "../dist";
    "../source/official/AI/z.png"; "../source/official/AI/z.svg";
    "../source/official/Compute/a.png"; "../source/official/Compute/b.png" ].

Definition sample_world : World :=
  {| cwd := "/home/dev/gcp-icons-for-plantuml/scripts";
     config_yml := Some sample_config;
     path_exists p := Some (existsb (String.eqb p) sample_paths);
     read_bytes p :=
       if String.eqb p "../source/official/Compute/a.png"
       then Some [x4d; x61; x6e] else None;
     etree_parse p :=
       if String.eqb p "../source/official/AI/z.svg" then Some sample_svg else None;
     plantuml_version := Some 1;
     check_env := false;
     glob_puml := [[".."; "source"; "GCPCommon.puml"]];
     glob_png := [official "Compute" "b.png"; official "AI" "z.png";
                  official "Compute" "a.png"];
     raises _ := false;
     schedule := [0; 1; 0; 0; 2]%nat;
     cpu_count := 4;
     clock := 1762214400 |}.

Definition icon_z : Icon := Icon_new (official "AI" "z.png") sample_config.
Definition icon_a : Icon := Icon_new (official "Compute" "a.png") sample_config.
Definition icon_b : Icon := Icon_new (official "Compute" "b.png") sample_config.

(** The same tree on another day, enumerated in another order, with
    another pool schedule and a tool that exits with another status. *)
Definition sample_world_again : World :=
  {| cwd := cwd sample_world;
     config_yml := config_yml sample_world;
     path_exists := path_exists sample_world;
     read_bytes := read_bytes sample_world;
     etree_parse := etree_parse sample_world;
     plantuml_version := Some 0;
     check_env := false;
     glob_puml := glob_puml sample_world;
     glob_png := [official "Compute" "a.png"; official "Compute" "b.png";
                  official "AI" "z.png"];
     raises _ := false;
     schedule := [0; 0; 0; 3; 1]%nat;
     cpu_count := 16;
     clock := 1793750400 |}.

(** Two raster icons of different categories whose target names agree. *)
Definition twin_world : World :=
  {| cwd := cwd sample_world;
     config_yml := Some sample_config;
     path_exists p :=
       Some (existsb (String.eqb p)
               ["../source/GCPCommon.puml"; "../source/official";
                "../source/official/AI/x.png"; "../source/official/Compute/x.png"]);
     read_bytes p := if endswith ".png" p then Some [x4d] else None;
     etree_parse _ := None;
     plantuml_version := Some 0;
     check_env := false;
     glob_puml := [];
     glob_png := [official "AI" "x.png"; official "Compute" "x.png"];
     raises _ := false;
     schedule := [];
     cpu_count := 1;
     clock := 0 |}.

Definition twin_icons : list Icon :=
  [ Icon_new (official "AI" "x.png") sample_config;
    Icon_new (official "Compute" "x.png") sample_config ].

(** The sample tree with a vector file that does not parse, next to a
    raster file that reads well. *)
Definition malformed_world : World :=
  {| cwd := cwd sample_world;
     config_yml := config_yml sample_world;
     path_exists := path_exists sample_world;
     read_bytes _ := Some [x4d; x61; x6e];
     etree_parse _ := None;
     plantuml_version := plantuml_version sample_world;
     check_env := false;
     glob_puml := glob_puml sample_world;
     glob_png := glob_png sample_world;
     raises _ := false;
     schedule := [];
     cpu_count := 4;
     clock := 0 |}.

(** The sample tree, with the script started one directory too high. *)
Definition misplaced_world : World :=
  {| cwd := "/home/dev/gcp-icons-for-plantuml";
     config_yml := config_yml sample_world;
     path_exists := path_exists sample_world;
     read_bytes := read_bytes sample_world;
     etree_parse := etree_parse sample_world;
     plantuml_version := plantuml_version sample_world;
     check_env := false;
     glob_puml := glob_puml sample_world;
     glob_png := glob_png sample_world;
     raises _ := false;
     schedule := [];
     cpu_count := 4;
     clock := 0 |}.

(** What the sample run has done when it submits its first job. *)
Definition sample_prefix : list event :=
  [ EvRmtree "../dist"; EvMkdir "../dist" false;
    EvCopy "../source/GCPCommon.puml" "../dist";
    EvMkdir "../dist/AI" true; EvMkdir "../dist/Compute" true ].

(** The children of the sample vector file as ElementTree writes them. *)
Definition sample_svg_body : string :=
  match join_tostring (List.filter not_title (node_children sample_svg)) with
  | Some s => s
  | None => ""
  end.

(** The sample tree with a vector file whose character data looks like
    declarations: a [desc] element whose text is a blank, [xm], a blank,
    [xmlns=] and [a] in double quotes, then [lns=] and [b] in double
    quotes. *)
Definition lookalike_text : string :=
  " xm xmlns=" ++ String dq ("a" ++ String dq ("lns=" ++ String dq ("b" ++ String dq ""))).

Definition lookalike_svg : node :=
  Element (svg_name "svg") [("width", "32px"); ("height", "32px")] ""
    [ Element (svg_name "desc") [] lookalike_text [] "" ] "".

Definition lookalike_world : World :=
  {| cwd := cwd sample_world;
     config_yml := config_yml sample_world;
     path_exists := path_exists sample_world;
     read_bytes := read_bytes sample_world;
     etree_parse p :=
       if String.eqb p "../source/official/AI/z.svg" then Some lookalike_svg else None;
     plantuml_version := plantuml_version sample_world;
     check_env := false;
     glob_puml := glob_puml sample_world;
     glob_png := glob_png sample_world;
     raises _ := false;
     schedule := [];
     cpu_count := 4;
     clock := 0 |}.

(** The sample tree, checked only. *)
Definition check_only_world : World :=
  {| cwd := cwd sample_world;
     config_yml := config_yml sample_world;
     path_exists := path_exists sample_world;
     read_bytes := read_bytes sample_world;
     etree_parse := etree_parse sample_world;
     plantuml_version := plantuml_version sample_world;
     check_env := true;
     glob_puml := glob_puml sample_world;
     glob_png := glob_png sample_world;
     raises _ := false;
     schedule := [];
     cpu_count := 4;
     clock := 0 |}.

(** ** Notions for the manifest as a whole *)

(** The number of target names listed in all groups. *)
Definition group_total (cats : list (string * list string)) : Z :=
  fold_right (fun kv n => Z.of_nat (length (snd kv)) + n) 0 cats.

(** What every call of [build_mermaid_icon] keeps true of the manifest:
    no key twice, as many listed names as [info.total] counts, no more
    entries than that, no empty group, and the groups list exactly the
    keys of the icons mapping. *)
Definition consistent (m : Mermaid) : Prop :=
  NoDup (dict_keys (icons m)) /\
  NoDup (dict_keys (categories m)) /\
  group_total (categories m) = info_total m /\
  Z.of_nat (length (icons m)) <= info_total m /\
  (forall c g, In (c, g) (categories m) ->
     g <> [] /\ forall t, In t g -> In t (dict_keys (icons m))) /\
  (forall t, In t (dict_keys (icons m)) ->
     exists c g, In (c, g) (categories m) /\ In t g).

(** ** Notions for the phases of [main] *)

(** Lines 143-151: the output directory is emptied, the include files are
    copied and the category directories made. *)
Definition prepare (w : World) (config : Config) : Run unit :=
  clean_dist w ;;;
  copy_puml w ;;;
  make_category_dirs w (discover w config).

(** Lines 159-192: the aggregation, its messages, and the three files. *)
Definition finish (w : World) (config : Config) : Run unit :=
  let a := aggregate w (discover w config) in
  (map EvPrint (printed a), Ok tt) ;;;
  write_outputs w (outputs_of a) ;;;
  print AllProcessed.

(** The three files in the order of writing. *)
Definition output_files (o : Outputs) : list (string * string) :=
  [ ("../GCPSymbols.md", symbols_md o);
    ("../dist/gcp-icons-structurizr-theme.json", theme_json o);
    ("../dist/gcp-icons-mermaid.json", mermaid_json o) ].

(** A step that returns or raises, and never exits the process. *)
Definition ok_or_raise (r : Run unit) : Prop := snd r = Ok tt \/ snd r = Raise.

Definition is_write (e : event) : bool :=
  match e with EvWrite _ _ => true | _ => false end.

Definition is_start (e : event) : bool :=
  match e with EvJob _ => true | _ => false end.

(** The events that put something into the output directory. *)
Definition uses_dist (e : event) : bool :=
  match e with
  | EvCopy _ _ | EvMkdir _ true | EvSubmit _ | EvJob _ | EvWrite _ _ => true
  | _ => false
  end.

(** The icons submitted and the icons whose job started, in order. *)
Definition submitted (tr : list event) : list Icon :=
  flat_map (fun e => match e with EvSubmit i => [i] | _ => [] end) tr.

Definition started (tr : list event) : list Icon :=
  flat_map (fun e => match e with EvJob i => [i] | _ => [] end) tr.

(** *** [worker] (lines 122-138)

    What a job asks of the icon it is given; the rendering itself is the
    icon's. *)
Inductive render_call : Type :=
| Announce (i : Icon)
| GenerateImage (dir : string) (color : bool) (max_target_size : Z) (transparency : bool)
| GeneratePuml (dir : string).

Definition worker (i : Icon) : list render_call :=
  [ Announce i;
    GenerateImage (dist_dir (category i)) true 128 false;
    GeneratePuml (dist_dir (category i));
    GenerateImage (dist_dir (category i)) true 128 true ].

(** The directory a call writes into. *)
Definition call_dir (c : render_call) : option string :=
  match c with
  | Announce _ => None
  | GenerateImage dir _ _ _ => Some dir
  | GeneratePuml dir => Some dir
  end.

(** The three phases that follow a successful verification. *)
Definition after_verification (w : World) (config : Config) : Run unit :=
  prepare w config ;;; run_pool w (discover w config) ;;; finish w config.

(** A well-configured tree without any icon. *)
Definition empty_world : World :=
  {| cwd := cwd sample_world;
     config_yml := config_yml sample_world;
     path_exists := path_exists sample_world;
     read_bytes _ := None;
     etree_parse _ := None;
     plantuml_version := Some 0;
     check_env := false;
     glob_puml := glob_puml sample_world;
     glob_png := [];
     raises _ := false;
     schedule := [0; 1]%nat;
     cpu_count := 2;
     clock := 0 |}.

(** Reading a base64 text back, to state that [b64encode] loses nothing:
    the place of a character in the alphabet, and the bytes of a text of
    groups of four characters of which only the last may be padded. *)
Fixpoint index_from (c : ascii) (l : list ascii) (n : N) : option N :=
  match l with
  | [] => None
  | x :: l' => if Ascii.eqb c x then Some n else index_from c l' (N.succ n)
  end.

Definition b64_index (c : ascii) : option N := index_from c b64_alphabet 0.

Definition byte_of (n : N) : byte :=
  match Byte.of_N n with
  | Some b => b
  | None => x00
  end.

Definition is_pad (c : ascii) (rest : string) : bool :=
  Ascii.eqb c "="%char && String.eqb rest "".

Fixpoint b64decode (s : string) : option (list byte) :=
  match s with
  | EmptyString => Some []
  | String c1 (String c2 (String c3 (String c4 rest))) =>
      match b64_index c1, b64_index c2 with
      | Some i1, Some i2 =>
          let b1 := byte_of (i1 * 4 + i2 / 16) in
          match b64_index c3 with
          | Some i3 =>
              let b2 := byte_of ((i2 mod 16) * 16 + i3 / 4) in
              match b64_index c4 with
              | Some i4 =>
                  match b64decode rest with
                  | Some l => Some (b1 :: b2 :: byte_of ((i3 mod 4) * 64 + i4) :: l)
                  | None => None
                  end
              | None => if is_pad c4 rest then Some [b1; b2] else None
              end
          | None =>
              if Ascii.eqb c3 "="%char && is_pad c4 rest then Some [b1] else None
          end
      | _, _ => None
      end
  | _ => None
  end.

Definition all_bytes : list byte :=
  map byte_of (map N.of_nat (seq 0 256)).

(** What the round trip needs of the two halves of a group, checked on
    every pair of bytes. *)
Definition head_ok (a b : byte) : bool :=
  let x := Byte.to_N a in
  let y := Byte.to_N b in
  let i1 := N.shiftr x 2 in
  let i2 := N.lor (N.shiftl (N.land x 3) 4) (N.shiftr y 4) in
  let i2' := N.shiftl (N.land x 3) 4 in
  ((i1 <? 64) && (i2 <? 64) && (i1 * 4 + i2 / 16 =? x) && (i2 mod 16 =? y / 16)
   && (i2' <? 64) && (i1 * 4 + i2' / 16 =? x))%N.

Definition tail_ok (b c : byte) : bool :=
  let y := Byte.to_N b in
  let z := Byte.to_N c in
  let i3 := N.lor (N.shiftl (N.land y 15) 2) (N.shiftr z 6) in
  let i3' := N.shiftl (N.land y 15) 2 in
  let i4 := N.land z 63 in
  ((i3 <? 64) && (i4 <? 64) && ((y / 16) * 16 + i3 / 4 =? y)
   && ((i3 mod 4) * 64 + i4 =? z)
   && (i3' <? 64) && ((y / 16) * 16 + i3' / 4 =? y))%N.


Definition ends_no_number (c : ascii) : bool :=
  negb (is_digit c || is_space c || Ascii.eqb c "p" || Ascii.eqb c "x"
        || Ascii.eqb c "_").

(** The sample tree where every vector file has a root whose width is a
    percentage. *)
Definition percent_world : World :=
  {| cwd := cwd sample_world;
     config_yml := config_yml sample_world;
     path_exists := path_exists sample_world;
     read_bytes := read_bytes sample_world;
     etree_parse _ :=
       Some (Element "{http://www.w3.org/2000/svg}svg"
               [("width", "100%"); ("height", "32")] "" [] "");
     plantuml_version := plantuml_version sample_world;
     check_env := false;
     glob_puml := glob_puml sample_world;
     glob_png := glob_png sample_world;
     raises _ := false;
     schedule := [];
     cpu_count := 1;
     clock := 0 |}.

(** * Facts about the model *)

(** ** Sorting *)

Section SortingFacts.
Context {A K : Type} `{Ord K} (key : A -> K).

Lemma insert_by_perm (x : A) (l : list A) : Permutation (insert_by key x l) (x :: l).
Proof.
  induction l as [|y l IH]; simpl; [reflexivity|].
  destruct (leb (key x) (key y)); [reflexivity|].
  rewrite IH. apply perm_swap.
Qed.

Lemma sorted_by_perm (l : list A) : Permutation (sorted_by key l) l.
Proof.
  induction l as [|x l IH]; simpl; [reflexivity|].
  rewrite insert_by_perm. now rewrite IH.
Qed.

Lemma insert_by_hdrel (a x : A) (l : list A) :
  key_le key a x -> HdRel (key_le key) a l -> HdRel (key_le key) a (insert_by key x l).
Proof.
  intros Hax Hl. destruct l as [|y l]; simpl.
  - now constructor.
  - destruct (leb (key x) (key y)); constructor; auto.
    now inversion Hl.
Qed.

Lemma insert_by_sorted (x : A) (l : list A) :
  Sorted (key_le key) l -> Sorted (key_le key) (insert_by key x l).
Proof.
  induction 1 as [|y l Hs IH Hhd]; simpl.
  - repeat constructor.
  - destruct (leb (key x) (key y)) eqn:E.
    + constructor; [now constructor|]. constructor. exact E.
    + constructor; [exact IH|].
      apply insert_by_hdrel; [|exact Hhd].
      unfold key_le, le. destruct (leb_total (key x) (key y)); congruence.
Qed.

Lemma sorted_by_sorted (l : list A) : Sorted (key_le key) (sorted_by key l).
Proof.
  induction l as [|x l IH]; simpl; [constructor|].
  now apply insert_by_sorted.
Qed.

Lemma map_insert_by (x : A) (l : list A) :
  map key (insert_by key x l) = insert_by id (key x) (map key l).
Proof.
  induction l as [|y l IH]; simpl; [reflexivity|].
  change (id (key x)) with (key x). change (id (key y)) with (key y).
  destruct (leb (key x) (key y)); simpl; congruence.
Qed.

Lemma map_sorted_by (l : list A) :
  map key (sorted_by key l) = sorted_by id (map key l).
Proof.
  induction l as [|x l IH]; simpl; [reflexivity|].
  now rewrite map_insert_by, IH.
Qed.

(** Stability: elements with the same key keep their order. *)
Definition has_key (k : K) (a : A) : bool :=
  match cmp (key a) k with Eq => true | _ => false end.

Lemma insert_by_stable (k : K) (x : A) (l : list A) :
  List.filter (has_key k) (insert_by key x l) = List.filter (has_key k) (x :: l).
Proof.
  induction l as [|y l IH]; [reflexivity|].
  cbn [insert_by]. destruct (leb (key x) (key y)) eqn:E; [reflexivity|].
  apply leb_false_lt in E.
  cbn [List.filter] in *. rewrite IH.
  unfold has_key. destruct (cmp (key y) k) eqn:Ey; try reflexivity.
  apply cmp_eq in Ey. subst k. now rewrite (proj2 (cmp_gt_lt _ _) E).
Qed.

Lemma sorted_by_stable (k : K) (l : list A) :
  List.filter (has_key k) (sorted_by key l) = List.filter (has_key k) l.
Proof.
  induction l as [|x l IH]; [reflexivity|].
  cbn [sorted_by]. rewrite insert_by_stable. cbn [List.filter]. now rewrite IH.
Qed.

End SortingFacts.

(** Sorting values themselves forgets the order they came in. *)
Lemma sorted_by_id_perm {K} `{Ord K} (l1 l2 : list K) :
  Permutation l1 l2 -> sorted_by id l1 = sorted_by id l2.
Proof.
  intros Hp.
  apply (Sorted_unique (@le K _)).
  - apply (sorted_by_sorted id).
  - apply (sorted_by_sorted id).
  - now rewrite !sorted_by_perm.
Qed.

(** ** File names *)

Lemma endswith_png_not_svg (s : string) :
  endswith ".png" s = true -> endswith ".svg" s = false.
Proof.
  induction s as [|c s IH]; [discriminate|].
  cbn [endswith]. rewrite !orb_true_iff, orb_false_iff.
  intros [E|E].
  - apply String.eqb_eq in E. injection E as -> ->. split; reflexivity.
  - split; [|now apply IH].
    apply String.eqb_neq. intros Hs. injection Hs as _ Hs. subst s. discriminate.
Qed.

Lemma endswith_sub_png_svg (s : string) :
  endswith ".png" s = true -> endswith ".svg" (sub_png_svg s) = true.
Proof.
  induction s as [|c s IH]; [discriminate|].
  intros E. cbn [sub_png_svg].
  destruct (String.eqb (String c s) ".png") eqn:E1; [reflexivity|].
  destruct (String.eqb (String c s) (".png" ++ newline)) eqn:E2.
  - apply String.eqb_eq in E2. rewrite E2 in E. discriminate.
  - cbn [endswith] in E. rewrite E1 in E. cbn [orb] in E.
    cbn [endswith]. rewrite (IH E). apply orb_true_r.
Qed.

Lemma sub_png_svg_length (s : string) :
  String.length (sub_png_svg s) = String.length s.
Proof.
  induction s as [|c s IH]; [reflexivity|].
  cbn [sub_png_svg].
  destruct (String.eqb (String c s) ".png") eqn:E1.
  { apply String.eqb_eq in E1. now rewrite E1. }
  destruct (String.eqb (String c s) (".png" ++ newline)) eqn:E2.
  { apply String.eqb_eq in E2. now rewrite E2. }
  cbn [String.length]. now rewrite IH.
Qed.

Lemma sub_png_svg_short (s : string) :
  (String.length s < 4)%nat -> sub_png_svg s = s.
Proof.
  induction s as [|c s IH]; [reflexivity|].
  intros Hl. cbn [sub_png_svg].
  destruct (String.eqb (String c s) ".png") eqn:E1.
  { apply String.eqb_eq in E1. rewrite E1 in Hl. cbn in Hl. lia. }
  destruct (String.eqb (String c s) (".png" ++ newline)) eqn:E2.
  { apply String.eqb_eq in E2. rewrite E2 in Hl. cbn in Hl. lia. }
  rewrite IH; [reflexivity|]. cbn [String.length] in Hl. lia.
Qed.

(** The name that is looked up as the vector sibling never ends in
    [.png]. *)
Lemma sub_png_svg_not_png (s : string) : endswith ".png" (sub_png_svg s) = false.
Proof.
  induction s as [|c s IH]; [reflexivity|].
  cbn [sub_png_svg].
  destruct (String.eqb (String c s) ".png") eqn:E1; [reflexivity|].
  destruct (String.eqb (String c s) (".png" ++ newline)) eqn:E2; [reflexivity|].
  cbn [endswith]. rewrite IH, orb_false_r.
  apply String.eqb_neq. intros Hs. injection Hs as Hc Hs.
  assert (Hl : String.length s = 3%nat) by (now rewrite <- sub_png_svg_length, Hs).
  rewrite sub_png_svg_short in Hs by lia.
  subst c s. discriminate.
Qed.

(** ** Dicts *)

Section DictFacts.
Context {V : Type}.
Implicit Types (d : list (string * V)) (k : string) (v : V).

Lemma dict_get_set_eq d k v : dict_get k (dict_set k v d) = Some v.
Proof.
  induction d as [|[k' v'] d IH]; simpl.
  - now rewrite String.eqb_refl.
  - destruct (String.eqb k k') eqn:E; simpl.
    + now rewrite String.eqb_refl.
    + now rewrite E.
Qed.

Lemma dict_get_set_ne d k k' v :
  k <> k' -> dict_get k' (dict_set k v d) = dict_get k' d.
Proof.
  intros Hne. induction d as [|[k0 v0] d IH]; simpl.
  - apply String.eqb_neq in Hne. rewrite String.eqb_sym. now rewrite Hne.
  - destruct (String.eqb k k0) eqn:E; simpl.
    + apply String.eqb_eq in E. subst k0.
      apply String.eqb_neq in Hne. rewrite String.eqb_sym. now rewrite Hne.
    + now rewrite IH.
Qed.

Lemma dict_keys_set d k v : dict_keys (dict_set k v d) = note_key (dict_keys d) k.
Proof.
  unfold note_key, dict_keys.
  induction d as [|[k' v'] d IH]; simpl; [reflexivity|].
  destruct (String.eqb k k') eqn:E; simpl.
  - apply String.eqb_eq in E. now subst.
  - rewrite IH. now destruct (existsb (String.eqb k) (map fst d)).
Qed.

Lemma dict_get_None_keys d k : dict_get k d = None <-> ~ In k (dict_keys d).
Proof.
  unfold dict_keys. induction d as [|[k' v'] d IH]; simpl; [tauto|].
  destruct (String.eqb k k') eqn:E.
  - apply String.eqb_eq in E. subst. split; [discriminate|tauto].
  - apply String.eqb_neq in E. rewrite IH. split; [intros H [H'|H']; congruence|tauto].
Qed.

End DictFacts.

Lemma existsb_eqb_In (k : string) (l : list string) :
  existsb (String.eqb k) l = true <-> In k l.
Proof.
  rewrite existsb_exists. split.
  - intros [x [Hx E]]. apply String.eqb_eq in E. now subst.
  - intros Hk. exists k. split; [exact Hk|apply String.eqb_refl].
Qed.

Lemma note_key_NoDup (l : list string) (k : string) :
  NoDup l -> NoDup (note_key l k).
Proof.
  intros Hl. unfold note_key.
  destruct (existsb (String.eqb k) l) eqn:E; [exact Hl|].
  apply NoDup_app. repeat split; auto.
  - intros x Hx Hx'. apply list_elem_of_In in Hx. apply list_elem_of_In in Hx'.
    destruct Hx' as [<-|[]].
    apply existsb_eqb_In in Hx. congruence.
  - apply NoDup_singleton.
Qed.

Lemma note_key_fresh (l : list string) (k : string) :
  ~ In k l -> note_key l k = (l ++ [k])%list.
Proof.
  intros Hk. unfold note_key.
  destruct (existsb (String.eqb k) l) eqn:E; [|reflexivity].
  apply existsb_eqb_In in E. contradiction.
Qed.

Lemma fold_note_key_NoDup (l acc : list string) :
  NoDup acc -> NoDup (fold_left note_key l acc).
Proof.
  revert acc. induction l as [|k l IH]; intros acc Hacc; simpl; [exact Hacc|].
  apply IH. now apply note_key_NoDup.
Qed.

(** Distinct keys are all kept, in the order they were assigned. *)
Lemma fold_note_key_distinct (l acc : list string) :
  NoDup (acc ++ l) -> fold_left note_key l acc = (acc ++ l)%list.
Proof.
  revert acc. induction l as [|k l IH]; intros acc Hnd; simpl.
  - now rewrite app_nil_r.
  - rewrite note_key_fresh.
    + rewrite IH; rewrite <- app_assoc; [reflexivity|exact Hnd].
    + apply NoDup_app in Hnd. destruct Hnd as (_ & Hd & _).
      intros Hk. apply (Hd k); [now apply list_elem_of_In|]. left.
Qed.

(** ** The loop as a fold of [put] *)

Lemma add_to_mermaid_put (w : World) (m : Mermaid) (j : Icon) :
  fst (add_to_mermaid w m j) = put w m j.
Proof.
  unfold add_to_mermaid, put, embedded, build_mermaid_icon.
  destruct (embed_source w j) as [file|]; [|reflexivity].
  destruct (is_existing w ".svg" file) as [[|]|]; [| |reflexivity].
  - now destruct (embed_svg w file).
  - destruct (is_existing w ".png" file) as [[|]|]; [| reflexivity..].
    now destruct (embed_png w file).
Qed.

Lemma mermaid_process_icon (w : World) (a : Aggregate) (j : Icon) :
  mermaid (process_icon w a j) = put w (mermaid a) j.
Proof.
  unfold process_icon. rewrite <- add_to_mermaid_put.
  now destruct (add_to_mermaid w (mermaid a) j).
Qed.

Lemma markdown_process_icon (w : World) (a : Aggregate) (j : Icon) :
  markdown (process_icon w a j)
  = (markdown a ++ [markdown_row (category j) (target j)])%list.
Proof. unfold process_icon. now destruct (add_to_mermaid w (mermaid a) j). Qed.

Lemma elements_process_icon (w : World) (a : Aggregate) (j : Icon) :
  elements (structerizr (process_icon w a j))
  = (elements (structerizr a) ++ [theme_element (category j) (target j)])%list.
Proof. unfold process_icon. now destruct (add_to_mermaid w (mermaid a) j). Qed.

Lemma theme_name_process_icon (w : World) (a : Aggregate) (j : Icon) :
  theme_name (structerizr (process_icon w a j)) = theme_name (structerizr a).
Proof. unfold process_icon. now destruct (add_to_mermaid w (mermaid a) j). Qed.

Lemma mermaid_fold (w : World) (l : list Icon) (a : Aggregate) :
  mermaid (fold_left (process_icon w) l a) = fold_left (put w) l (mermaid a).
Proof.
  revert a. induction l as [|j l IH]; intros a; simpl; [reflexivity|].
  now rewrite IH, mermaid_process_icon.
Qed.

Lemma markdown_fold (w : World) (l : list Icon) (a : Aggregate) :
  markdown (fold_left (process_icon w) l a)
  = (markdown a ++ map (fun j => markdown_row (category j) (target j)) l)%list.
Proof.
  revert a. induction l as [|j l IH]; intros a; simpl.
  - now rewrite app_nil_r.
  - rewrite IH, markdown_process_icon. now rewrite <- app_assoc.
Qed.

Lemma elements_fold (w : World) (l : list Icon) (a : Aggregate) :
  elements (structerizr (fold_left (process_icon w) l a))
  = (elements (structerizr a)
     ++ map (fun j => theme_element (category j) (target j)) l)%list.
Proof.
  revert a. induction l as [|j l IH]; intros a; simpl.
  - now rewrite app_nil_r.
  - rewrite IH, elements_process_icon. now rewrite <- app_assoc.
Qed.

Lemma theme_name_fold (w : World) (l : list Icon) (a : Aggregate) :
  theme_name (structerizr (fold_left (process_icon w) l a)) = theme_name (structerizr a).
Proof.
  revert a. induction l as [|j l IH]; intros a; simpl; [reflexivity|].
  now rewrite IH, theme_name_process_icon.
Qed.

(** *** What [put] does to each field *)

Lemma put_total (w : World) (m : Mermaid) (j : Icon) :
  info_total (put w m j) = info_total m + (if is_embedded w j then 1 else 0).
Proof.
  unfold put, is_embedded. destruct (embedded w j); simpl; lia.
Qed.

Lemma put_icons_keys (w : World) (m : Mermaid) (j : Icon) :
  dict_keys (icons (put w m j))
  = if is_embedded w j then note_key (dict_keys (icons m)) (target j)
    else dict_keys (icons m).
Proof.
  unfold put, is_embedded. destruct (embedded w j); simpl; [|reflexivity].
  apply dict_keys_set.
Qed.

Lemma add_icon_categories (m : Mermaid) (cat tgt c : string) (e : IconEntry) :
  dict_get c (categories (add_icon m cat tgt e))
  = if String.eqb cat c
    then Some (match dict_get c (categories m) with
               | Some l => l ++ [tgt]
               | None => [tgt]
               end)%list
    else dict_get c (categories m).
Proof.
  unfold add_icon. cbn [categories].
  destruct (String.eqb cat c) eqn:E.
  - apply String.eqb_eq in E. subst c.
    destruct (dict_get cat (categories m)) as [l|] eqn:G.
    + rewrite G. apply dict_get_set_eq.
    + rewrite dict_get_set_eq. now rewrite dict_get_set_eq.
  - apply String.eqb_neq in E.
    destruct (dict_get cat (categories m)) as [l|] eqn:G.
    + rewrite G. now apply dict_get_set_ne.
    + rewrite dict_get_set_eq. rewrite !dict_get_set_ne by exact E. reflexivity.
Qed.

Lemma put_categories (w : World) (m : Mermaid) (j : Icon) (c : string) :
  dict_get c (categories (put w m j))
  = extend_group (dict_get c (categories m)) (group_of w c [j]).
Proof.
  unfold put, group_of, is_embedded. cbn [List.filter].
  destruct (embedded w j) as [e|]; cbn [andb].
  - rewrite add_icon_categories.
    destruct (String.eqb (category j) c); cbn [map].
    + now destruct (dict_get c (categories m)).
    + destruct (dict_get c (categories m)); simpl; [now rewrite app_nil_r|reflexivity].
  - destruct (dict_get c (categories m)); simpl; [now rewrite app_nil_r|reflexivity].
Qed.

Lemma extend_group_app (old : option (list string)) (l1 l2 : list string) :
  extend_group (extend_group old l1) l2 = extend_group old (l1 ++ l2).
Proof.
  destruct old as [l|]; simpl.
  - now rewrite app_assoc.
  - destruct l1; simpl; [reflexivity|]. reflexivity.
Qed.

Lemma fold_put_total (w : World) (l : list Icon) (m : Mermaid) :
  info_total (fold_left (put w) l m)
  = info_total m + Z.of_nat (length (List.filter (is_embedded w) l)).
Proof.
  revert m. induction l as [|j l IH]; intros m; simpl; [lia|].
  rewrite IH, put_total. destruct (is_embedded w j); simpl length; lia.
Qed.

Lemma fold_put_icons_keys (w : World) (l : list Icon) (m : Mermaid) :
  dict_keys (icons (fold_left (put w) l m))
  = fold_left note_key (map target (List.filter (is_embedded w) l)) (dict_keys (icons m)).
Proof.
  revert m. induction l as [|j l IH]; intros m; simpl; [reflexivity|].
  rewrite IH, put_icons_keys. now destruct (is_embedded w j).
Qed.

Lemma group_of_app (w : World) (c : string) (l1 l2 : list Icon) :
  group_of w c (l1 ++ l2) = (group_of w c l1 ++ group_of w c l2)%list.
Proof. unfold group_of. now rewrite List.filter_app, map_app. Qed.

Lemma fold_put_categories (w : World) (l : list Icon) (m : Mermaid) (c : string) :
  dict_get c (categories (fold_left (put w) l m))
  = extend_group (dict_get c (categories m)) (group_of w c l).
Proof.
  revert m. induction l as [|j l IH]; intros m.
  - simpl. destruct (dict_get c (categories m)); simpl; [now rewrite app_nil_r|reflexivity].
  - cbn [fold_left]. rewrite IH, put_categories, extend_group_app.
    now rewrite <- group_of_app.
Qed.

Lemma fold_put_constants (w : World) (l : list Icon) (m : Mermaid) :
  let m' := fold_left (put w) l m in
  prefix m' = prefix m /\ info_name m' = info_name m /\
  info_version m' = info_version m /\ lastModified m' = lastModified m /\
  default_width m' = default_width m /\ default_height m' = default_height m.
Proof.
  revert m. induction l as [|j l IH]; intros m; simpl; [tauto|].
  destruct (IH (put w m j)) as (H1 & H2 & H3 & H4 & H5 & H6).
  rewrite H1, H2, H3, H4, H5, H6.
  unfold put. destruct (embedded w j); simpl; tauto.
Qed.

(** Filtering commutes with permuting. *)
Lemma filter_length_perm {A} (f : A -> bool) (l1 l2 : list A) :
  Permutation l1 l2 -> length (List.filter f l1) = length (List.filter f l2).
Proof.
  induction 1; simpl; try congruence.
  - destruct (f x); simpl; congruence.
  - destruct (f x), (f y); reflexivity.
Qed.

(** ** The manifest of a run *)

Lemma aggregate_mermaid (w : World) (l : list Icon) :
  mermaid (aggregate w l) = fold_left (put w) (sorted_icons l) (mermaid initial).
Proof. unfold aggregate. apply mermaid_fold. Qed.

Lemma sorted_icons_perm (l : list Icon) : Permutation (sorted_icons l) l.
Proof. apply sorted_by_perm. Qed.

Lemma distinct_In (l : list string) (x : string) : In x (distinct l) <-> In x l.
Proof.
  induction l as [|y l IH]; simpl; [tauto|].
  destruct (existsb (String.eqb y) l) eqn:E.
  - rewrite IH. apply existsb_eqb_In in E. split; [tauto|]. intros [<-|H]; auto.
  - simpl. now rewrite IH.
Qed.

Lemma distinct_NoDup (l : list string) : NoDup (distinct l).
Proof.
  induction l as [|y l IH]; simpl; [constructor|].
  destruct (existsb (String.eqb y) l) eqn:E; [exact IH|].
  constructor; [|exact IH].
  rewrite list_elem_of_In, distinct_In. intros Hy.
  apply existsb_eqb_In in Hy. congruence.
Qed.

Lemma category_names_NoDup (l : list Icon) : NoDup (category_names l).
Proof.
  unfold category_names. rewrite sorted_by_perm. apply distinct_NoDup.
Qed.

Lemma category_names_In (l : list Icon) (c : string) :
  In c (category_names l) <-> exists j, In j l /\ category j = c.
Proof.
  unfold category_names.
  rewrite <- !list_elem_of_In, (sorted_by_perm id (distinct (map category l))).
  rewrite list_elem_of_In, distinct_In, in_map_iff.
  split; intros [j [H1 H2]]; exists j; tauto.
Qed.

(** C2. In the manifest of every run the keys of the icons mapping are
    pairwise distinct, and [info.total] is the number of discovered icons
    whose embedding succeeded: each turn of the loop adds one to it when
    the icon is embedded and nothing otherwise. *)
Theorem manifest_total_counts_embedded (w : World) (l : list Icon) :
  let m := mermaid (aggregate w l) in
  NoDup (dict_keys (icons m)) /\
  info_total m = Z.of_nat (length (List.filter (is_embedded w) l)) /\
  (forall (a : Aggregate) (j : Icon),
      info_total (mermaid (process_icon w a j))
      = info_total (mermaid a) + (if is_embedded w j then 1 else 0)).
Proof.
  cbn zeta. rewrite aggregate_mermaid. repeat split.
  - rewrite fold_put_icons_keys. apply fold_note_key_NoDup. constructor.
  - rewrite fold_put_total. cbn [initial mermaid info_total].
    now rewrite (filter_length_perm _ _ _ (sorted_icons_perm l)).
  - intros a j. rewrite mermaid_process_icon. apply put_total.
Qed.

Lemma group_of_nil_iff (w : World) (c : string) (l : list Icon) :
  group_of w c l <> [] <->
  exists j, In j l /\ category j = c /\ is_embedded w j = true.
Proof.
  unfold group_of. split.
  - intros Hne.
    destruct (List.filter _ l) as [|j l'] eqn:E; [contradiction|].
    assert (Hj : In j (List.filter (fun j => is_embedded w j && String.eqb (category j) c) l))
      by (rewrite E; now left).
    apply List.filter_In in Hj. destruct Hj as [Hj Hb].
    apply andb_true_iff in Hb. destruct Hb as [Hb Hc].
    apply String.eqb_eq in Hc. eauto.
  - intros (j & Hj & Hc & Hb) E.
    apply map_eq_nil in E.
    assert (Hin : In j (List.filter (fun j => is_embedded w j && String.eqb (category j) c) l)).
    { apply List.filter_In. split; [exact Hj|].
      rewrite Hb, Hc. apply String.eqb_refl. }
    rewrite E in Hin. destruct Hin.
Qed.

Lemma dict_get_Some_keys {V} (d : list (string * V)) (k : string) :
  In k (dict_keys d) <-> exists v, dict_get k d = Some v.
Proof.
  destruct (dict_get k d) as [v|] eqn:E.
  - split; [eauto|]. intros _.
    destruct (in_dec string_dec k (dict_keys d)) as [H|H]; [exact H|].
    apply dict_get_None_keys in H. congruence.
  - split; [|intros [v Hv]; discriminate].
    intros H. apply dict_get_None_keys in E. contradiction.
Qed.

(** C10. A category is a key of the categories mapping exactly when an
    icon of that category was embedded.  Its group holds the target names
    of the embedded icons of the category, one per embedding, in the order
    of the sorted list; one turn of the loop creates the group when the
    key is missing and appends one name to it. *)
Theorem categories_hold_embedded_targets (w : World) (l : list Icon) (c : string) :
  let m := mermaid (aggregate w l) in
  (In c (dict_keys (categories m)) <->
   exists j, In j l /\ category j = c /\ is_embedded w j = true) /\
  (forall g, dict_get c (categories m) = Some g -> g = group_of w c (sorted_icons l)) /\
  (forall (a : Aggregate) (j : Icon),
      dict_get c (categories (mermaid (process_icon w a j)))
      = if is_embedded w j && String.eqb (category j) c
        then Some (match dict_get c (categories (mermaid a)) with
                   | Some g => g ++ [target j]
                   | None => [target j]
                   end)%list
        else dict_get c (categories (mermaid a))).
Proof.
  cbn zeta. rewrite aggregate_mermaid.
  assert (Hget : dict_get c (categories (fold_left (put w) (sorted_icons l) (mermaid initial)))
                 = extend_group None (group_of w c (sorted_icons l))).
  { now rewrite fold_put_categories. }
  repeat split.
  - rewrite dict_get_Some_keys, Hget. intros [g Hg].
    assert (Hne : group_of w c (sorted_icons l) <> []).
    { intros E. rewrite E in Hg. discriminate. }
    apply group_of_nil_iff in Hne. destruct Hne as (j & Hj & Hc & Hb).
    exists j. repeat split; auto.
    rewrite <- list_elem_of_In, <- (sorted_icons_perm l), list_elem_of_In. exact Hj.
  - intros (j & Hj & Hc & Hb).
    rewrite dict_get_Some_keys, Hget.
    assert (Hne : group_of w c (sorted_icons l) <> []).
    { apply group_of_nil_iff. exists j. repeat split; auto.
      rewrite <- list_elem_of_In, (sorted_icons_perm l), list_elem_of_In. exact Hj. }
    destruct (group_of w c (sorted_icons l)) as [|t g]; [contradiction|].
    simpl. eauto.
  - intros g. rewrite Hget.
    destruct (group_of w c (sorted_icons l)); simpl; congruence.
  - intros a j. rewrite mermaid_process_icon, put_categories.
    unfold group_of. cbn [List.filter].
    destruct (is_embedded w j && String.eqb (category j) c); cbn [map extend_group].
    + now destruct (dict_get c (categories (mermaid a))).
    + destruct (dict_get c (categories (mermaid a))); simpl; rewrite ?app_nil_r; reflexivity.
Qed.

(** ** Icons that fail to embed *)

Lemma is_existing_svg_sibling (w : World) (j : Icon) :
  endswith ".png" (path_str (filename j)) = true ->
  is_existing w ".svg" (svg_filename j) = path_exists w (svg_filename j).
Proof.
  intros Hpng. unfold is_existing, svg_filename.
  now rewrite (endswith_sub_png_svg _ Hpng).
Qed.

Lemma is_existing_svg_source (w : World) (j : Icon) :
  endswith ".png" (path_str (filename j)) = true ->
  is_existing w ".svg" (path_str (filename j)) = Some false.
Proof.
  intros Hpng. unfold is_existing. now rewrite (endswith_png_not_svg _ Hpng).
Qed.

Lemma embed_failure_add (w : World) (m : Mermaid) (j : Icon) (line : log_line) :
  embed_failure w j line -> add_to_mermaid w m j = (m, [line]).
Proof.
  intros Hf. unfold add_to_mermaid, embed_source, build_mermaid_icon.
  destruct Hf as [Hpng Hex Hparse | root name Hpng Hex Hparse Hname Hdim
                 | root Hpng Hex Hparse Hser | Hpng Hex Hfile Hread
                 | Hex Hfile | Hex]; rewrite Hex.
  - rewrite (is_existing_svg_sibling _ _ Hpng), Hex.
    unfold embed_svg. now rewrite Hparse.
  - rewrite (is_existing_svg_sibling _ _ Hpng), Hex.
    unfold embed_svg. rewrite Hparse.
    destruct Hname as [-> | ->]; rewrite Hdim; [reflexivity|].
    now destruct (dimension root "width").
  - rewrite (is_existing_svg_sibling _ _ Hpng), Hex.
    unfold embed_svg. rewrite Hparse, Hser.
    now destruct (dimension root "width"), (dimension root "height").
  - rewrite (is_existing_svg_source _ _ Hpng).
    unfold is_existing. rewrite Hpng, Hfile.
    unfold embed_png. now rewrite Hread.
  - unfold is_existing. rewrite Hfile.
    now destruct (endswith ".svg" _), (endswith ".png" _).
  - reflexivity.
Qed.

Lemma mermaid_fold_skip (w : World) (before after : list Icon) (a : Aggregate) (j : Icon) :
  put w (fold_left (put w) before (mermaid a)) j = fold_left (put w) before (mermaid a) ->
  mermaid (fold_left (process_icon w) (before ++ j :: after) a)
  = mermaid (fold_left (process_icon w) (before ++ after) a).
Proof.
  intros Hskip. rewrite !mermaid_fold, !fold_left_app. cbn [fold_left].
  now rewrite Hskip.
Qed.

(** C3. When the embedding of an icon fails -- the vector file does not
    parse or cannot be read, its width or height is missing, it cannot be
    serialized, the raster file cannot be read, or the file is missing --
    the loop prints one line that names the file, leaves the whole manifest
    as it was, still writes the icon's Markdown row and theme element, and
    goes on: the manifest of the run is the one the other icons produce. *)
Theorem failed_embedding_is_skipped (w : World) (a : Aggregate) (j : Icon) (line : log_line) :
  embed_failure w j line ->
  mermaid (process_icon w a j) = mermaid a /\
  printed (process_icon w a j) = (printed a ++ [line])%list /\
  markdown (process_icon w a j)
  = (markdown a ++ [markdown_row (category j) (target j)])%list /\
  (forall before after : list Icon,
      mermaid (fold_left (process_icon w) (before ++ j :: after) a)
      = mermaid (fold_left (process_icon w) (before ++ after) a)).
Proof.
  intros Hf.
  assert (Hput : forall m, put w m j = m).
  { intros m. rewrite <- add_to_mermaid_put. now rewrite (embed_failure_add w m j line Hf). }
  repeat split.
  - rewrite mermaid_process_icon. apply Hput.
  - unfold process_icon. now rewrite (embed_failure_add w _ j line Hf).
  - apply markdown_process_icon.
  - intros before after. apply mermaid_fold_skip. apply Hput.
Qed.

Lemma failed_embedding_is_skipped_witness :
  mermaid (process_icon sample_world initial icon_b) = mermaid initial /\
  printed (process_icon sample_world initial icon_b)
  = (printed initial ++ [ErrorReadingPng "../source/official/Compute/b.png"])%list /\
  markdown (process_icon sample_world initial icon_b)
  = (markdown initial ++ [markdown_row (category icon_b) (target icon_b)])%list /\
  (forall before after : list Icon,
      mermaid (fold_left (process_icon sample_world) (before ++ icon_b :: after) initial)
      = mermaid (fold_left (process_icon sample_world) (before ++ after) initial)).
Proof.
  apply (failed_embedding_is_skipped sample_world initial icon_b
           (ErrorReadingPng "../source/official/Compute/b.png")).
  apply raster_unreadable; reflexivity.
Defined.

(** ** Which file an entry is built from *)

Lemma embed_svg_ext (w w' : World) (file : string) :
  (forall p, etree_parse w' p = etree_parse w p) ->
  embed_svg w' file = embed_svg w file.
Proof. intros H. unfold embed_svg. now rewrite H. Qed.

Lemma add_to_mermaid_vector (w : World) (m : Mermaid) (j : Icon) :
  path_exists w (svg_filename j) = Some true ->
  add_to_mermaid w m j
  = if endswith ".svg" (svg_filename j)
    then match embed_svg w (svg_filename j) with
         | Some e => (add_icon m (category j) (target j) e, [])
         | None => (m, [ErrorParsingSvg (svg_filename j)])
         end
    else (m, [UnsupportedOrMissing (svg_filename j)]).
Proof.
  intros Hex. unfold add_to_mermaid, embed_source, build_mermaid_icon, is_existing.
  rewrite Hex. destruct (endswith ".svg" (svg_filename j)).
  - rewrite Hex. now destruct (embed_svg w (svg_filename j)).
  - unfold svg_filename at 1. now rewrite sub_png_svg_not_png.
Qed.

(** C9. When the vector sibling of an icon exists, the entry is built from
    it alone: the outcome does not depend on what the raster file holds,
    and when the vector file fails to embed the manifest stays as it was,
    with the failure printed. *)
Theorem vector_sibling_is_never_replaced (w : World) (a : Aggregate) (j : Icon) :
  endswith ".png" (path_str (filename j)) = true ->
  path_exists w (svg_filename j) = Some true ->
  add_to_mermaid w (mermaid a) j
  = match embed_svg w (svg_filename j) with
    | Some e => (add_icon (mermaid a) (category j) (target j) e, [])
    | None => (mermaid a, [ErrorParsingSvg (svg_filename j)])
    end /\
  (embed_svg w (svg_filename j) = None ->
   mermaid (process_icon w a j) = mermaid a) /\
  (forall w' : World,
      (forall p, path_exists w' p = path_exists w p) ->
      (forall p, etree_parse w' p = etree_parse w p) ->
      add_to_mermaid w' (mermaid a) j = add_to_mermaid w (mermaid a) j).
Proof.
  intros Hpng Hex.
  assert (Hsvg := endswith_sub_png_svg _ Hpng). fold (svg_filename j) in Hsvg.
  assert (Hadd := add_to_mermaid_vector w (mermaid a) j Hex). rewrite Hsvg in Hadd.
  repeat split.
  - exact Hadd.
  - intros Hnone. rewrite mermaid_process_icon, <- add_to_mermaid_put, Hadd.
    now rewrite Hnone.
  - intros w' Hx Hp. rewrite Hadd.
    rewrite add_to_mermaid_vector by (now rewrite Hx).
    rewrite Hsvg. now rewrite (embed_svg_ext w w' _ Hp).
Qed.

Lemma vector_sibling_is_never_replaced_witness :
  add_to_mermaid malformed_world (mermaid initial) icon_z
  = match embed_svg malformed_world (svg_filename icon_z) with
    | Some e => (add_icon (mermaid initial) (category icon_z) (target icon_z) e, [])
    | None => (mermaid initial, [ErrorParsingSvg (svg_filename icon_z)])
    end /\
  (embed_svg malformed_world (svg_filename icon_z) = None ->
   mermaid (process_icon malformed_world initial icon_z) = mermaid initial) /\
  (forall w' : World,
      (forall p, path_exists w' p = path_exists malformed_world p) ->
      (forall p, etree_parse w' p = etree_parse malformed_world p) ->
      add_to_mermaid w' (mermaid initial) icon_z
      = add_to_mermaid malformed_world (mermaid initial) icon_z).
Proof.
  apply (vector_sibling_is_never_replaced malformed_world initial icon_z); reflexivity.
Defined.

(** ** The entry of an icon in the manifest of a run *)

Lemma put_icons_get_same (w : World) (m : Mermaid) (j : Icon) (e : IconEntry) :
  embedded w j = Some e -> dict_get (target j) (icons (put w m j)) = Some e.
Proof. intros He. unfold put. rewrite He. apply dict_get_set_eq. Qed.

Lemma put_icons_get_other (w : World) (m : Mermaid) (j : Icon) (k : string) :
  target j <> k -> dict_get k (icons (put w m j)) = dict_get k (icons m).
Proof.
  intros Hne. unfold put. destruct (embedded w j); [|reflexivity].
  now apply dict_get_set_ne.
Qed.

Lemma fold_put_icons_get_other (w : World) (l : list Icon) (m : Mermaid) (k : string) :
  ~ In k (map target l) ->
  dict_get k (icons (fold_left (put w) l m)) = dict_get k (icons m).
Proof.
  revert m. induction l as [|x l IH]; intros m Hk; [reflexivity|].
  cbn [fold_left]. rewrite IH by (intros H; apply Hk; now right).
  apply put_icons_get_other. intros E. apply Hk. now left.
Qed.

Lemma fold_put_icons_get (w : World) (l : list Icon) (m : Mermaid) (j : Icon)
    (e : IconEntry) :
  In j l -> NoDup (map target l) -> embedded w j = Some e ->
  dict_get (target j) (icons (fold_left (put w) l m)) = Some e.
Proof.
  revert m. induction l as [|x l IH]; intros m Hj Hnd He; [destruct Hj|].
  cbn [map] in Hnd. apply NoDup_cons in Hnd. destruct Hnd as [Hx Hnd].
  cbn [fold_left]. destruct Hj as [->|Hj].
  - rewrite fold_put_icons_get_other by (now rewrite <- list_elem_of_In).
    now apply put_icons_get_same.
  - now apply IH.
Qed.

(** With pairwise distinct target names, the entry of an embedded icon is
    still there at the end of the run. *)
Lemma aggregate_entry (w : World) (l : list Icon) (j : Icon) (e : IconEntry) :
  In j l -> NoDup (map target l) -> embedded w j = Some e ->
  dict_get (target j) (icons (mermaid (aggregate w l))) = Some e.
Proof.
  intros Hj Hnd He. rewrite aggregate_mermaid.
  apply fold_put_icons_get; [| |exact He].
  - rewrite <- list_elem_of_In, (sorted_icons_perm l), list_elem_of_In. exact Hj.
  - now rewrite (sorted_icons_perm l).
Qed.

Lemma embedded_raster (w : World) (j : Icon) (data : list byte) :
  endswith ".png" (path_str (filename j)) = true ->
  path_exists w (svg_filename j) = Some false ->
  path_exists w (path_str (filename j)) = Some true ->
  read_bytes w (path_str (filename j)) = Some data ->
  embedded w j = Some {| body := "data:image/png;base64," ++ b64encode data;
                         width := 64; height := 64 |}.
Proof.
  intros Hpng Hex Hfile Hread. unfold embedded, embed_source. rewrite Hex.
  rewrite (is_existing_svg_source _ _ Hpng).
  unfold is_existing. rewrite Hpng, Hfile.
  unfold embed_png. now rewrite Hread.
Qed.

(** C6. An icon without a vector sibling whose raster file holds the bytes
    [data] gets the entry whose body is [data:image/png;base64,] followed
    by the base64 encoding of [data], with width and height 64: right after
    its turn of the loop and, when no other icon has its target name, in
    the manifest of the run. *)
Theorem raster_only_entry (w : World) (a : Aggregate) (j : Icon) (data : list byte) :
  endswith ".png" (path_str (filename j)) = true ->
  path_exists w (svg_filename j) = Some false ->
  path_exists w (path_str (filename j)) = Some true ->
  read_bytes w (path_str (filename j)) = Some data ->
  let entry := {| body := "data:image/png;base64," ++ b64encode data;
                  width := 64; height := 64 |} in
  dict_get (target j) (icons (mermaid (process_icon w a j))) = Some entry /\
  (forall l : list Icon,
      In j l -> NoDup (map target l) ->
      dict_get (target j) (icons (mermaid (aggregate w l))) = Some entry).
Proof.
  intros Hpng Hex Hfile Hread entry.
  assert (He := embedded_raster w j data Hpng Hex Hfile Hread).
  split.
  - rewrite mermaid_process_icon. now apply put_icons_get_same.
  - intros l Hj Hnd. now apply aggregate_entry.
Qed.

Lemma raster_only_entry_witness :
  dict_get "a" (icons (mermaid (process_icon sample_world initial icon_a)))
  = Some {| body := "data:image/png;base64,TWFu"; width := 64; height := 64 |} /\
  (forall l : list Icon,
      In icon_a l -> NoDup (map target l) ->
      dict_get "a" (icons (mermaid (aggregate sample_world l)))
      = Some {| body := "data:image/png;base64,TWFu"; width := 64; height := 64 |}).
Proof.
  apply (raster_only_entry sample_world initial icon_a [x4d; x61; x6e]); reflexivity.
Defined.

(** ** Environment verification *)

Lemma trace_bind {A B} (m : Run A) (f : A -> Run B) :
  trace (bind m f)
  = (trace m ++ match snd m with Ok a => trace (f a) | _ => [] end)%list.
Proof.
  destruct m as [tr [a| |]]; unfold trace; simpl.
  - now destruct (f a).
  - now rewrite app_nil_r.
  - now rewrite app_nil_r.
Qed.

Lemma result_bind {A B} (m : Run A) (f : A -> Run B) :
  snd (bind m f)
  = match snd m with Ok a => snd (f a) | Exit c => Exit c | Raise => Raise end.
Proof.
  destruct m as [tr [a| |]]; simpl; try reflexivity. now destruct (f a).
Qed.

Lemma exit_status_bind {A B} (m : Run A) (f : A -> Run B) :
  exit_status (bind m f)
  = match snd m with Ok a => exit_status (f a) | _ => exit_status m end.
Proof.
  unfold exit_status. rewrite result_bind. now destruct (snd m).
Qed.

Lemma verify_environment_Ok (w : World) (config : Config) :
  snd (verify_environment w) = Ok config -> config_yml w = Some config.
Proof.
  unfold verify_environment, exists_.
  destruct (cwd_ok w); [|discriminate]. cbn [negb].
  destruct (config_yml w) as [cfg|]; [|discriminate].
  destruct (path_exists w "../source/GCPCommon.puml") as [[|]|]; try discriminate.
  destruct (path_exists w "../source/official") as [[|]|]; try discriminate.
  destruct (plantuml_version w); [|discriminate].
  destruct (check_env w); [discriminate|].
  cbn. congruence.
Qed.

Lemma verify_environment_passes (w : World) (config : Config) (returncode : Z) :
  cwd_ok w = true -> config_yml w = Some config ->
  path_exists w "../source/GCPCommon.puml" = Some true ->
  path_exists w "../source/official" = Some true ->
  plantuml_version w = Some returncode ->
  verify_environment w
  = if check_env w then ([EvPrint PrerequisitesMet], Exit 0) else ([], Ok config).
Proof.
  intros Hcwd Hcfg Hcommon Hofficial Htool.
  unfold verify_environment, exists_.
  rewrite Hcwd, Hcfg, Hcommon, Hofficial, Htool.
  now destruct (check_env w).
Qed.

(** C8. Verification ends the process with status 1 when the working
    directory is wrong, the configuration does not load, one of the two
    required source paths is missing, or launching the tool raises; nothing
    else of [main] runs then.  When all of that is in order the status with
    which the tool itself exits plays no part: verification hands over the
    configuration, or exits with 0 in check-only mode. *)
Theorem verification_failure_is_fatal (w : World) :
  (cwd_ok w = false \/ config_yml w = None \/
   path_exists w "../source/GCPCommon.puml" = Some false \/
   path_exists w "../source/official" = Some false \/
   plantuml_version w = None ->
   exit_status (verify_environment w) = 1 /\
   exit_status (main w) = 1 /\
   trace (main w) = trace (verify_environment w)) /\
  (forall (config : Config) (returncode : Z),
      cwd_ok w = true -> config_yml w = Some config ->
      path_exists w "../source/GCPCommon.puml" = Some true ->
      path_exists w "../source/official" = Some true ->
      plantuml_version w = Some returncode ->
      verify_environment w
      = if check_env w then ([EvPrint PrerequisitesMet], Exit 0) else ([], Ok config)).
Proof.
  split.
  - intros Hbad.
    assert (Hv : exit_status (verify_environment w) = 1 /\
                 forall c, snd (verify_environment w) <> Ok c).
    { unfold verify_environment, exists_.
      destruct (cwd_ok w); cbn [negb]; [|split; [reflexivity|discriminate]].
      destruct (config_yml w) as [cfg|]; [|split; [reflexivity|discriminate]].
      destruct (path_exists w "../source/GCPCommon.puml") as [[|]|];
        try (split; [reflexivity|discriminate]).
      destruct (path_exists w "../source/official") as [[|]|];
        try (split; [reflexivity|discriminate]).
      destruct (plantuml_version w); [|split; [reflexivity|discriminate]].
      destruct Hbad as [H|[H|[H|[H|H]]]]; discriminate. }
    destruct Hv as [Hs Hno]. split; [exact Hs|].
    unfold main. rewrite exit_status_bind, trace_bind.
    destruct (snd (verify_environment w)) as [c| |] eqn:E.
    + now destruct (Hno c).
    + now rewrite app_nil_r.
    + now rewrite app_nil_r.
  - intros config returncode. apply verify_environment_passes.
Qed.

Lemma verification_failure_is_fatal_witness :
  (exit_status (verify_environment misplaced_world) = 1 /\
   exit_status (main misplaced_world) = 1 /\
   trace (main misplaced_world) = trace (verify_environment misplaced_world)) /\
  verify_environment sample_world = ([], Ok sample_config).
Proof.
  split.
  - apply (proj1 (verification_failure_is_fatal misplaced_world)).
    left. reflexivity.
  - apply (proj2 (verification_failure_is_fatal sample_world) sample_config 1);
      reflexivity.
Defined.

(** ** The trace of [main] *)

Lemma split_at_job (l1 l2 tr1 tr2 : list event) (e : event) :
  quiet l1 -> is_job_event e = true -> (l1 ++ l2 = tr1 ++ e :: tr2)%list ->
  exists t, tr1 = (l1 ++ t)%list /\ l2 = (t ++ e :: tr2)%list.
Proof.
  revert tr1. induction l1 as [|x l1 IH]; intros tr1 Hq He Heq.
  - exists tr1. auto.
  - apply Forall_cons in Hq. destruct Hq as [Hx Hq].
    destruct tr1 as [|y tr1]; simpl in Heq; injection Heq as Hxy Heq.
    + congruence.
    + destruct (IH tr1 Hq He Heq) as [t [H1 H2]].
      exists t. subst. auto.
Qed.

Lemma quiet_verify_environment (w : World) : quiet (trace (verify_environment w)).
Proof.
  unfold verify_environment, exists_, quiet.
  destruct (cwd_ok w); cbn [negb]; [|repeat constructor].
  destruct (config_yml w); [|repeat constructor].
  destruct (path_exists w "../source/GCPCommon.puml") as [[|]|]; try (repeat constructor).
  destruct (path_exists w "../source/official") as [[|]|]; try (repeat constructor).
  destruct (plantuml_version w); [|repeat constructor].
  destruct (check_env w); repeat constructor.
Qed.

Lemma quiet_clean_dist (w : World) : quiet (trace (clean_dist w)).
Proof.
  unfold clean_dist, exists_, perform, quiet.
  destruct (path_exists w "../dist") as [[|]|]; cbn;
    repeat (match goal with |- context [raises w ?e] => destruct (raises w e) end; cbn);
    repeat constructor.
Qed.

Lemma for_each_perform (w : World) {A} (g : A -> event) (l : list A) :
  exists k,
    trace (for_each l (fun x => perform w (g x))) = map g (firstn k l) /\
    (snd (for_each l (fun x => perform w (g x))) = Ok tt -> firstn k l = l).
Proof.
  induction l as [|x l [k [Ht Hok]]].
  - exists 0%nat. split; reflexivity.
  - cbn [for_each]. rewrite trace_bind, result_bind.
    assert (Hp : perform w (g x)
                 = if raises w (g x) then ([], Raise) else ([g x], Ok tt))
      by reflexivity.
    rewrite Hp. destruct (raises w (g x)); cbn [trace fst snd].
    + exists 0%nat. split; [reflexivity|discriminate].
    + exists (S k). cbn [firstn map app]. rewrite Ht.
      split; [reflexivity|]. intros H. now rewrite (Hok H).
Qed.

Lemma quiet_for_each_perform (w : World) {A} (g : A -> event) (l : list A) :
  (forall x, is_job_event (g x) = false) ->
  quiet (trace (for_each l (fun x => perform w (g x)))).
Proof.
  intros Hg. destruct (for_each_perform w g l) as [k [-> _]].
  apply Forall_forall. intros e He.
  apply list_elem_of_In, in_map_iff in He. destruct He as [x [<- _]]. apply Hg.
Qed.

Lemma keeps_dirs_pool_run (sched : list nat) (todo waiting : list Icon) :
  keeps_dirs (pool_run sched todo waiting).
Proof.
  revert todo waiting. unfold keeps_dirs.
  induction sched as [|[|k] sched IH]; intros todo waiting; cbn [pool_run].
  - apply Forall_app. split; apply Forall_forall; intros e He;
      apply list_elem_of_In, in_map_iff in He; destruct He as [x [<- _]]; exact I.
  - destruct todo; [apply IH|]. constructor; [exact I|apply IH].
  - destruct (nth_error waiting k); [|apply IH]. constructor; [exact I|apply IH].
Qed.

Lemma keeps_dirs_write_outputs (w : World) (o : Outputs) :
  keeps_dirs (trace (write_outputs w o ;;; print AllProcessed)).
Proof.
  unfold write_outputs, perform, keeps_dirs.
  repeat (match goal with |- context [raises w ?e] => destruct (raises w e) end; cbn);
    repeat constructor.
Qed.

Lemma dir_exists_stays (p : string) (tr : list event) :
  keeps_dirs tr -> fold_left (dir_step p) tr true = true.
Proof.
  induction 1 as [|e tr He _ IH]; [reflexivity|].
  cbn [fold_left]. destruct e; cbn [dir_step orb]; try exact IH. destruct He.
Qed.

Lemma dir_exists_made (p : string) (ok there : bool) (tr : list event) :
  In (EvMkdir p ok) tr -> keeps_dirs tr -> fold_left (dir_step p) tr there = true.
Proof.
  revert there. induction tr as [|e tr IH]; intros there Hin Hk; [destruct Hin|].
  apply Forall_cons in Hk. destruct Hk as [He Hk]. cbn [fold_left].
  destruct Hin as [->|Hin].
  - cbn [dir_step]. rewrite String.eqb_refl, orb_true_r. now apply dir_exists_stays.
  - now apply IH.
Qed.

Lemma keeps_dirs_prefix (t rest : list event) :
  keeps_dirs (t ++ rest) -> keeps_dirs t.
Proof. unfold keeps_dirs. rewrite Forall_app. tauto. Qed.

(** C7. Whenever a render job is submitted or started, the orchestrator
    has already made the output directory of every category of the
    discovered icons: one [mkdir] that tolerates an existing directory per
    distinct category, in sorted order, all before the first job, so each
    of these directories is there at that moment whatever the jobs do. *)
Theorem category_dirs_precede_jobs (w : World) (tr1 tr2 : list event) (e : event) :
  trace (main w) = (tr1 ++ e :: tr2)%list ->
  is_job_event e = true ->
  exists (config : Config) (before after : list event),
    config_yml w = Some config /\
    tr1 = (before
           ++ map (fun c => EvMkdir (dist_dir c) true)
                  (category_names (discover w config))
           ++ after)%list /\
    quiet before /\
    NoDup (category_names (discover w config)) /\
    (forall c, In c (category_names (discover w config)) <->
               exists j, In j (discover w config) /\ category j = c) /\
    (forall j, In j (discover w config) ->
               dir_exists tr1 (dist_dir (category j)) = true).
Proof.
  intros Htr He. unfold main in Htr.
  rewrite trace_bind in Htr.
  destruct (split_at_job _ _ _ _ _ (quiet_verify_environment w) He Htr) as [t1 [E1 Htr1]].
  destruct (snd (verify_environment w)) as [config| |] eqn:Ev;
    try (destruct t1; discriminate).
  apply verify_environment_Ok in Ev.
  rewrite trace_bind in Htr1.
  destruct (split_at_job _ _ _ _ _ (quiet_clean_dist w) He Htr1) as [t2 [E2 Htr2]].
  destruct (snd (clean_dist w)) as [[]| |]; try (destruct t2; discriminate).
  rewrite trace_bind in Htr2.
  assert (Hcopy : quiet (trace (copy_puml w))).
  { apply quiet_for_each_perform. reflexivity. }
  destruct (split_at_job _ _ _ _ _ Hcopy He Htr2) as [t3 [E3 Htr3]].
  destruct (snd (copy_puml w)) as [[]| |]; try (destruct t3; discriminate).
  cbn zeta in Htr3. rewrite trace_bind in Htr3.
  set (found := discover w config) in *.
  assert (Hmk : quiet (trace (make_category_dirs w found))).
  { apply quiet_for_each_perform. reflexivity. }
  destruct (split_at_job _ _ _ _ _ Hmk He Htr3) as [t4 [E4 Htr4]].
  destruct (snd (make_category_dirs w found)) as [[]| |] eqn:Emk;
    try (destruct t4; discriminate).
  destruct (for_each_perform w (fun c => EvMkdir (dist_dir c) true) (category_names found))
    as [k [Hmap Hall]].
  fold (make_category_dirs w found) in Hmap, Hall.
  rewrite (Hall Emk) in Hmap.
  assert (Hkeep : keeps_dirs t4).
  { apply (keeps_dirs_prefix t4 (e :: tr2)). rewrite <- Htr4.
    rewrite trace_bind. cbn [run_pool trace fst snd].
    unfold keeps_dirs. rewrite !Forall_app. repeat split.
    - apply keeps_dirs_pool_run.
    - repeat constructor.
    - rewrite trace_bind. cbn [trace fst snd]. apply Forall_app. split.
      + apply Forall_forall. intros x Hx.
        apply list_elem_of_In, in_map_iff in Hx. destruct Hx as [y [<- _]]. exact I.
      + apply keeps_dirs_write_outputs. }
  exists config, (trace (verify_environment w) ++ trace (clean_dist w)
                  ++ trace (copy_puml w))%list, t4.
  assert (Htr1' : tr1 = ((trace (verify_environment w) ++ trace (clean_dist w)
                          ++ trace (copy_puml w))
                         ++ map (fun c => EvMkdir (dist_dir c) true) (category_names found)
                         ++ t4)%list).
  { rewrite E1, E2, E3, E4, Hmap. now rewrite <- !app_assoc. }
  repeat split.
  - exact Ev.
  - exact Htr1'.
  - unfold quiet. rewrite !Forall_app. repeat split;
      [apply quiet_verify_environment|apply quiet_clean_dist|exact Hcopy].
  - apply category_names_NoDup.
  - apply category_names_In.
  - apply category_names_In.
  - intros j Hj. rewrite Htr1'. unfold dir_exists. rewrite fold_left_app.
    apply (dir_exists_made _ true).
    + apply in_or_app. left. apply in_map_iff. exists (category j). split; [reflexivity|].
      apply category_names_In. eauto.
    + unfold keeps_dirs. apply Forall_app. split; [|exact Hkeep].
      apply Forall_forall. intros x Hx.
      apply list_elem_of_In, in_map_iff in Hx. destruct Hx as [y [<- _]]. exact I.
Qed.

Lemma category_dirs_precede_jobs_witness :
  exists (config : Config) (before after : list event),
    config_yml sample_world = Some config /\
    sample_prefix
    = (before
       ++ map (fun c => EvMkdir (dist_dir c) true)
              (category_names (discover sample_world config))
       ++ after)%list /\
    quiet before /\
    NoDup (category_names (discover sample_world config)) /\
    (forall c, In c (category_names (discover sample_world config)) <->
               exists j, In j (discover sample_world config) /\ category j = c) /\
    (forall j, In j (discover sample_world config) ->
               dir_exists sample_prefix (dist_dir (category j)) = true).
Proof.
  apply (category_dirs_precede_jobs sample_world sample_prefix
           (skipn 6 (trace (main sample_world))) (EvSubmit icon_z));
    reflexivity.
Defined.

(** ** Runs over the same sources *)

Lemma build_mermaid_icon_ext (w1 w2 : World) (m : Mermaid) (file cat tgt : string) :
  same_sources w1 w2 ->
  build_mermaid_icon w1 m file cat tgt = build_mermaid_icon w2 m file cat tgt.
Proof.
  intros (Hx & Hr & Hp).
  unfold build_mermaid_icon, is_existing, embed_svg, embed_png.
  now rewrite !Hx, !Hr, !Hp.
Qed.

Lemma add_to_mermaid_ext (w1 w2 : World) (m : Mermaid) (j : Icon) :
  same_sources w1 w2 -> add_to_mermaid w1 m j = add_to_mermaid w2 m j.
Proof.
  intros Hs. unfold add_to_mermaid, embed_source.
  rewrite (proj1 Hs).
  destruct (path_exists w2 (svg_filename j)) as [[|]|]; [| |reflexivity];
    now rewrite (build_mermaid_icon_ext w1 w2 _ _ _ _ Hs).
Qed.

Lemma aggregate_ext (w1 w2 : World) (l : list Icon) :
  same_sources w1 w2 -> aggregate w1 l = aggregate w2 l.
Proof.
  intros Hs. unfold aggregate. generalize initial.
  induction (sorted_icons l) as [|j l' IH]; intros a; [reflexivity|].
  cbn [fold_left]. rewrite IH. f_equal.
  unfold process_icon. now rewrite (add_to_mermaid_ext w1 w2 _ j Hs).
Qed.

Lemma build_file_list_perm (w1 w2 : World) :
  Permutation (glob_png w1) (glob_png w2) -> build_file_list w1 = build_file_list w2.
Proof. apply sorted_by_id_perm. Qed.

Lemma discover_perm (w1 w2 : World) (config : Config) :
  Permutation (glob_png w1) (glob_png w2) -> discover w1 config = discover w2 config.
Proof. intros Hp. unfold discover. now rewrite (build_file_list_perm w1 w2 Hp). Qed.

Lemma written_app (a b : list event) : written (a ++ b) = (written a ++ written b)%list.
Proof. apply flat_map_app. Qed.

Lemma written_verify_environment (w : World) : written (trace (verify_environment w)) = [].
Proof.
  unfold verify_environment, exists_.
  destruct (cwd_ok w); cbn [negb]; [|reflexivity].
  destruct (config_yml w); [|reflexivity].
  destruct (path_exists w "../source/GCPCommon.puml") as [[|]|]; try reflexivity.
  destruct (path_exists w "../source/official") as [[|]|]; try reflexivity.
  destruct (plantuml_version w); [|reflexivity].
  now destruct (check_env w).
Qed.

Lemma written_clean_dist (w : World) : written (trace (clean_dist w)) = [].
Proof.
  unfold clean_dist, exists_, perform.
  destruct (path_exists w "../dist") as [[|]|]; cbn;
    repeat (match goal with |- context [raises w ?e] => destruct (raises w e) end; cbn);
    reflexivity.
Qed.

Lemma written_map (A : Type) (g : A -> event) (l : list A) :
  (forall x, written [g x] = []) -> written (map g l) = [].
Proof.
  intros Hg. induction l as [|x l IH]; [reflexivity|].
  cbn [map]. change (g x :: map g l) with ([g x] ++ map g l)%list.
  now rewrite written_app, Hg, IH.
Qed.

Lemma written_for_each_perform (w : World) {A} (g : A -> event) (l : list A) :
  (forall x, written [g x] = []) ->
  written (trace (for_each l (fun x => perform w (g x)))) = [].
Proof.
  intros Hg. destruct (for_each_perform w g l) as [k [-> _]].
  now apply written_map.
Qed.

Lemma written_pool_run (sched : list nat) (todo waiting : list Icon) :
  written (pool_run sched todo waiting) = [].
Proof.
  revert todo waiting.
  induction sched as [|[|k] sched IH]; intros todo waiting; cbn [pool_run].
  - rewrite written_app, !written_map; reflexivity.
  - destruct todo; [apply IH|]. cbn. apply IH.
  - destruct (nth_error waiting k); [|apply IH]. cbn. apply IH.
Qed.

Lemma written_write_outputs (w : World) (o : Outputs) :
  snd (write_outputs w o ;;; print AllProcessed) = Ok tt ->
  written (trace (write_outputs w o ;;; print AllProcessed))
  = [ ("../GCPSymbols.md", symbols_md o);
      ("../dist/gcp-icons-structurizr-theme.json", theme_json o);
      ("../dist/gcp-icons-mermaid.json", mermaid_json o) ].
Proof.
  unfold write_outputs, perform.
  repeat (match goal with |- context [raises w ?e] => destruct (raises w e) end; cbn);
    (discriminate || reflexivity).
Qed.

(** The files a run writes when it reaches its end. *)
Lemma main_written (w : World) :
  snd (main w) = Ok tt ->
  exists config,
    config_yml w = Some config /\
    let o := outputs_of (aggregate w (discover w config)) in
    written (trace (main w))
    = [ ("../GCPSymbols.md", symbols_md o);
        ("../dist/gcp-icons-structurizr-theme.json", theme_json o);
        ("../dist/gcp-icons-mermaid.json", mermaid_json o) ].
Proof.
  unfold main. rewrite result_bind, trace_bind.
  destruct (snd (verify_environment w)) as [config| |] eqn:Ev; try discriminate.
  rewrite result_bind, trace_bind.
  destruct (snd (clean_dist w)) as [[]| |]; try discriminate.
  rewrite result_bind, trace_bind.
  destruct (snd (copy_puml w)) as [[]| |]; try discriminate.
  cbn zeta. set (found := discover w config).
  rewrite result_bind, trace_bind.
  destruct (snd (make_category_dirs w found)) as [[]| |]; try discriminate.
  rewrite result_bind, trace_bind. cbn [run_pool snd fst trace].
  rewrite result_bind, trace_bind. cbn [snd fst trace].
  intros Hend. exists config. split; [now apply verify_environment_Ok|].
  cbn zeta. rewrite !written_app.
  rewrite written_verify_environment, written_clean_dist.
  unfold copy_puml, make_category_dirs.
  rewrite !written_for_each_perform by reflexivity.
  rewrite written_pool_run, written_map by reflexivity.
  cbn [app written flat_map].
  now apply written_write_outputs.
Qed.

(** C4. Two runs over the same source files with the same configuration
    write the same three files, byte for byte, whatever the order in which
    the files are enumerated, the schedule of the pool, the number of
    processors, the exit status of the tool and the time of day; the
    manifest carries the version 20.0 and the time stamp of 2025-02-07
    00:00 UTC in every run. *)
Theorem outputs_are_reproducible (w1 w2 : World) (config : Config) :
  config_yml w1 = Some config ->
  config_yml w2 = Some config ->
  Permutation (glob_png w1) (glob_png w2) ->
  same_sources w1 w2 ->
  outputs_of (aggregate w1 (discover w1 config))
  = outputs_of (aggregate w2 (discover w2 config)) /\
  (snd (main w1) = Ok tt -> snd (main w2) = Ok tt ->
   written (trace (main w1)) = written (trace (main w2))) /\
  lastModified (mermaid (aggregate w1 (discover w1 config))) = 1738886400 /\
  info_version (mermaid (aggregate w1 (discover w1 config))) = "20.0".
Proof.
  intros Hc1 Hc2 Hperm Hsame.
  assert (Hagg : aggregate w1 (discover w1 config) = aggregate w2 (discover w2 config)).
  { rewrite (discover_perm w1 w2 config Hperm). now apply aggregate_ext. }
  repeat split.
  - now rewrite Hagg.
  - intros H1 H2.
    destruct (main_written w1 H1) as (c1 & Hc1' & ->).
    destruct (main_written w2 H2) as (c2 & Hc2' & ->).
    assert (c1 = config) by congruence. assert (c2 = config) by congruence.
    subst c1 c2. now rewrite Hagg.
  - rewrite aggregate_mermaid.
    now destruct (fold_put_constants w1 (sorted_icons (discover w1 config)) (mermaid initial))
      as (_ & _ & _ & -> & _).
  - rewrite aggregate_mermaid.
    now destruct (fold_put_constants w1 (sorted_icons (discover w1 config)) (mermaid initial))
      as (_ & _ & -> & _).
Qed.

Lemma outputs_are_reproducible_witness :
  outputs_of (aggregate sample_world (discover sample_world sample_config))
  = outputs_of (aggregate sample_world_again (discover sample_world_again sample_config)) /\
  (snd (main sample_world) = Ok tt -> snd (main sample_world_again) = Ok tt ->
   written (trace (main sample_world)) = written (trace (main sample_world_again))) /\
  lastModified (mermaid (aggregate sample_world (discover sample_world sample_config)))
  = 1738886400 /\
  info_version (mermaid (aggregate sample_world (discover sample_world sample_config)))
  = "20.0".
Proof.
  apply (outputs_are_reproducible sample_world sample_world_again sample_config).
  - reflexivity.
  - reflexivity.
  - apply (perm_trans (l' := [official "AI" "z.png"; official "Compute" "b.png";
                                official "Compute" "a.png"])).
    + apply perm_swap.
    + apply (perm_trans (l' := [official "AI" "z.png"; official "Compute" "a.png";
                                official "Compute" "b.png"])).
      * apply perm_skip, perm_swap.
      * apply (perm_trans (l' := [official "Compute" "a.png"; official "AI" "z.png";
                                  official "Compute" "b.png"])).
        -- apply perm_swap.
        -- apply perm_skip, perm_swap.
  - repeat split.
Defined.

(** ** The three indexes *)

Lemma NoDup_map_filter {A B} (f : A -> B) (p : A -> bool) (l : list A) :
  NoDup (map f l) -> NoDup (map f (List.filter p l)).
Proof.
  induction l as [|x l IH]; [auto|].
  cbn [map List.filter]. intros Hnd. apply NoDup_cons in Hnd. destruct Hnd as [Hx Hnd].
  destruct (p x); [|now apply IH].
  cbn [map]. constructor; [|now apply IH].
  intros Hin. apply Hx.
  apply list_elem_of_In, in_map_iff in Hin. destruct Hin as [y [Hy Hin]].
  apply List.filter_In in Hin.
  apply list_elem_of_In, in_map_iff. exists y. tauto.
Qed.

Lemma sorted_icons_keys_perm (l l' : list Icon) :
  Permutation l l' ->
  map icon_key (sorted_icons l') = map icon_key (sorted_icons l).
Proof.
  intros Hp. unfold sorted_icons. rewrite !map_sorted_by.
  apply sorted_by_id_perm. now rewrite Hp.
Qed.

Lemma markdown_rows_of_keys (l : list Icon) :
  map (fun j => markdown_row (category j) (target j)) l
  = map (fun k => markdown_row (fst k) (snd k)) (map icon_key l).
Proof. now rewrite map_map. Qed.

Lemma theme_elements_of_keys (l : list Icon) :
  map (fun j => theme_element (category j) (target j)) l
  = map (fun k => theme_element (fst k) (snd k)) (map icon_key l).
Proof. now rewrite map_map. Qed.

(** C1 as stated fails: two icons with one target name share one key of
    the manifest. *)
Lemma twins_share_one_entry : ~ one_entry_per_icon twin_world twin_icons.
Proof.
  unfold one_entry_per_icon. intros (_ & _ & Hkeys).
  vm_compute in Hkeys. discriminate Hkeys.
Qed.

(** C1, amended.  The Markdown index and the theme hold one entry per
    discovered icon, embedded or not, and the icons mapping of the manifest
    one key per target name among the embedded icons, hence one per
    embedded icon when the target names are pairwise distinct.  All three
    follow the list of icons sorted by (category, target), icons with equal
    keys staying in the order of the sorted file list.  The keys in that
    order, the Markdown index and the theme are the same for every
    enumeration order of the files, the sorted file list itself is, and
    nothing depends on the pool: a run over the same source files
    aggregates the same. *)
Theorem indexes_follow_sorted_icons (w : World) (l : list Icon) :
  let a := aggregate w l in
  markdown a
  = ("# GCP Symbols" ++ newline ++ newline)
      :: map (fun j => markdown_row (category j) (target j)) (sorted_icons l) /\
  elements (structerizr a)
  = map (fun j => theme_element (category j) (target j)) (sorted_icons l) /\
  dict_keys (icons (mermaid a))
  = first_seen (map target (List.filter (is_embedded w) (sorted_icons l))) /\
  (NoDup (map target l) ->
   dict_keys (icons (mermaid a))
   = map target (List.filter (is_embedded w) (sorted_icons l))) /\
  Permutation (sorted_icons l) l /\
  Sorted (key_le icon_key) (sorted_icons l) /\
  (forall k, List.filter (has_key icon_key k) (sorted_icons l)
             = List.filter (has_key icon_key k) l) /\
  (forall l', Permutation l l' ->
     map icon_key (sorted_icons l') = map icon_key (sorted_icons l) /\
     markdown (aggregate w l') = markdown a /\
     structerizr (aggregate w l') = structerizr a) /\
  (forall w1 w2, Permutation (glob_png w1) (glob_png w2) ->
     build_file_list w1 = build_file_list w2) /\
  (forall w', same_sources w w' -> aggregate w' l = aggregate w l).
Proof.
  cbn zeta.
  assert (Hmd : forall l0, markdown (aggregate w l0)
            = ("# GCP Symbols" ++ newline ++ newline)
                :: map (fun j => markdown_row (category j) (target j)) (sorted_icons l0)).
  { intros l0. unfold aggregate. now rewrite markdown_fold. }
  assert (Hel : forall l0, elements (structerizr (aggregate w l0))
            = map (fun j => theme_element (category j) (target j)) (sorted_icons l0)).
  { intros l0. unfold aggregate. now rewrite elements_fold. }
  assert (Hkeys : dict_keys (icons (mermaid (aggregate w l)))
            = first_seen (map target (List.filter (is_embedded w) (sorted_icons l)))).
  { rewrite aggregate_mermaid. now rewrite fold_put_icons_keys. }
  split; [apply Hmd|]. split; [apply Hel|]. split; [exact Hkeys|].
  split.
  { intros Hnd. rewrite Hkeys. unfold first_seen.
    rewrite fold_note_key_distinct; [reflexivity|]. cbn [app].
    apply NoDup_map_filter. now rewrite (sorted_icons_perm l). }
  split; [apply sorted_icons_perm|].
  split; [apply sorted_by_sorted|].
  split; [intros k; apply sorted_by_stable|].
  split.
  { intros l' Hp. assert (Hk := sorted_icons_keys_perm l l' Hp).
    split; [exact Hk|]. split.
    - now rewrite !Hmd, !markdown_rows_of_keys, Hk.
    - assert (He : elements (structerizr (aggregate w l'))
                   = elements (structerizr (aggregate w l))).
      { now rewrite !Hel, !theme_elements_of_keys, Hk. }
      assert (Hn : theme_name (structerizr (aggregate w l'))
                   = theme_name (structerizr (aggregate w l))).
      { unfold aggregate. now rewrite !theme_name_fold. }
      destruct (structerizr (aggregate w l')), (structerizr (aggregate w l)).
      cbn in He, Hn. congruence. }
  split; [apply build_file_list_perm|].
  intros w' Hs. symmetry. now apply aggregate_ext.
Qed.

Lemma indexes_follow_sorted_icons_witness :
  dict_keys (icons (mermaid (aggregate sample_world [icon_b; icon_z; icon_a])))
  = ["z"; "a"] /\
  aggregate sample_world_again [icon_b; icon_z; icon_a]
  = aggregate sample_world [icon_b; icon_z; icon_a].
Proof.
  destruct (indexes_follow_sorted_icons sample_world [icon_b; icon_z; icon_a])
    as (_ & _ & _ & Hkeys & _ & _ & _ & _ & _ & Hsame).
  split.
  - rewrite Hkeys; [reflexivity|].
    apply NoDup_ListNoDup. repeat constructor; cbn; intuition discriminate.
  - apply Hsame. repeat split.
Defined.

(** ** Deleting the namespace declarations *)

Lemma sapp_assoc (a b c : string) : ((a ++ b) ++ c = a ++ (b ++ c))%string.
Proof. induction a as [|x a IH]; simpl; congruence. Qed.

Lemma sapp_nil_r (a : string) : (a ++ "")%string = a.
Proof. induction a as [|x a IH]; simpl; congruence. Qed.

Lemma slength_app (a b : string) :
  String.length (a ++ b) = (String.length a + String.length b)%nat.
Proof. induction a as [|x a IH]; simpl; congruence. Qed.

Lemma sdrop_app (a b : string) : sdrop (String.length a) (a ++ b) = b.
Proof. induction a as [|x a IH]; simpl; [now destruct b|exact IH]. Qed.

Lemma sub_xmlns_skip (a x : string) (k : nat) :
  sub_xmlns_from (String.length a + k) (a ++ x) = sub_xmlns_from k x.
Proof.
  induction a as [|c a IH]; [reflexivity|].
  cbn [String.length Nat.add]. change (String c a ++ x)%string with (String c (a ++ x)).
  cbn [sub_xmlns_from]. exact IH.
Qed.

Lemma sub_xmlns_skip_all (a x : string) (c : ascii) :
  sub_xmlns_from (String.length a) (a ++ String c x) = sub_xmlns_from 0 (String c x).
Proof.
  rewrite <- (Nat.add_0_r (String.length a)). apply sub_xmlns_skip.
Qed.

Lemma to_quote_app (a x : string) :
  no_quote a = true -> to_quote (a ++ String dq x) = Some (S (String.length a)).
Proof.
  induction a as [|c a IH]; intros H.
  - reflexivity.
  - cbn [no_quote] in H. apply andb_true_iff in H. destruct H as [H1 H2].
    apply negb_true_iff in H1.
    change (String c a ++ String dq x)%string with (String c (a ++ String dq x)).
    cbn [to_quote]. rewrite H1, (IH H2). reflexivity.
Qed.

Lemma no_quote_app (a b : string) :
  no_quote (a ++ b) = no_quote a && no_quote b.
Proof.
  induction a as [|c a IH]; [reflexivity|].
  change (String c a ++ b)%string with (String c (a ++ b)).
  cbn [no_quote]. rewrite IH. now rewrite andb_assoc.
Qed.

Lemma no_quote_escape_attrib (s : string) : no_quote (escape_attrib s) = true.
Proof.
  unfold escape_attrib. induction s as [|c s IH]; [reflexivity|].
  cbn [escape_with]. rewrite no_quote_app, IH, andb_true_r.
  unfold escape_attrib_char.
  repeat match goal with
         | |- context [Ascii.eqb c ?a] => destruct (Ascii.eqb c a) eqn:?; [reflexivity|]
         end.
  cbn [no_quote]. now rewrite Heqb2.
Qed.

(** A declaration at the head of the text is a match, and is deleted. *)
Lemma sub_xmlns_decl (k v x : string) :
  no_quote k = true -> no_quote v = true ->
  sub_xmlns_from 0 (attr_text ("xmlns" ++ k) v ++ x) = sub_xmlns_from 0 x.
Proof.
  intros Hk Hv. unfold attr_text.
  set (r := (k ++ String "=" (String dq (v ++ String dq x)))%string).
  assert (E : ((" " ++ ("xmlns" ++ k) ++ "=" ++ String dq (v ++ String dq "")) ++ x)%string
              = String " " ("xmlns" ++ r)%string).
  { unfold r. cbn. f_equal. f_equal. f_equal. f_equal. f_equal. f_equal.
    rewrite sapp_assoc. cbn. f_equal. f_equal. f_equal.
    rewrite sapp_assoc. reflexivity. }
  rewrite E.
  assert (Hq1 : to_quote r = Some (String.length k + 2)%nat).
  { unfold r. change (String "=" (String dq (v ++ String dq x)))
      with ("=" ++ String dq (v ++ String dq x))%string.
    rewrite <- sapp_assoc, to_quote_app.
    - rewrite slength_app. cbn. f_equal. lia.
    - rewrite no_quote_app, Hk. reflexivity. }
  assert (Hd : sdrop (String.length k + 2) r = (v ++ String dq x)%string).
  { assert (Er : r = (((k ++ "=") ++ String dq "") ++ (v ++ String dq x))%string).
    { unfold r. rewrite !sapp_assoc. reflexivity. }
    rewrite Er.
    replace (String.length k + 2)%nat
      with (String.length ((k ++ "=") ++ String dq "")%string)
      by (rewrite !slength_app; cbn; lia).
    apply sdrop_app. }
  set (a := ("xmlns" ++ k ++ "=" ++ String dq (v ++ String dq ""))%string).
  assert (Ea : ("xmlns" ++ r)%string = (a ++ x)%string).
  { unfold a, r. cbn. f_equal. f_equal. f_equal. f_equal. f_equal.
    rewrite sapp_assoc. cbn. f_equal. f_equal. now rewrite sapp_assoc. }
  assert (Hm : match_xmlns (String " " ("xmlns" ++ r)%string)
               = Some (S (String.length a))).
  { unfold match_xmlns. cbn.
    change (is_space " ") with true. cbn [andb].
    rewrite Hq1, Hd, (to_quote_app v x Hv). f_equal.
    unfold a. cbn. rewrite !slength_app. cbn. rewrite slength_app. cbn. lia. }
  cbn [sub_xmlns_from]. rewrite Hm, Ea.
  rewrite <- (Nat.add_0_r (String.length a)). apply sub_xmlns_skip.
Qed.

Lemma sub_xmlns_decls (nss : list (string * string)) (x : string) :
  forallb (fun ns => no_quote (snd ns)) nss = true ->
  sub_xmlns_from 0 (xmlns_decls nss ++ x) = sub_xmlns_from 0 x.
Proof.
  intros Hq. unfold xmlns_decls.
  assert (Hs : forall ns, In ns (sorted_by snd nss) -> no_quote (snd ns) = true).
  { intros ns Hin. rewrite forallb_forall in Hq. apply Hq.
    rewrite <- list_elem_of_In, <- (sorted_by_perm snd nss), list_elem_of_In.
    exact Hin. }
  induction (sorted_by snd nss) as [|[uri p] l IH]; [reflexivity|].
  cbn [map join fold_right]. fold (join (map xmlns_decl l)).
  rewrite sapp_assoc. unfold xmlns_decl at 1.
  rewrite sub_xmlns_decl.
  - apply IH. intros ns Hin. apply Hs. now right.
  - destruct (String.eqb p ""); [reflexivity|].
    cbn [String.append no_quote]. apply (Hs (uri, p)). now left.
  - apply no_quote_escape_attrib.
Qed.

Lemma serialize_xml_open (qn nss : list (string * string)) (n : node) (s : string) :
  serialize_xml qn nss n = Some s ->
  exists tag t rest,
    node_tag n = Some tag /\ dict_get tag qn = Some t /\
    s = ("<" ++ t ++ xmlns_decls nss ++ rest)%string /\
    serialize_xml qn [] n = Some ("<" ++ t ++ rest)%string.
Proof.
  destruct n as [tag attrib text children tail|]; [|discriminate].
  cbn [serialize_xml].
  destruct (dict_get tag qn) as [t|] eqn:Ht; [|discriminate].
  destruct (attrs_text qn attrib) as [attrs|] eqn:Hattrs; [|discriminate].
  match goal with |- context [match ?e with Some _ => _ | None => _ end] =>
    destruct e as [inner|] eqn:Hinner; [|discriminate] end.
  intros E. injection E as <-.
  exists tag, t. eexists.
  split; [reflexivity|]. split; [exact Ht|]. split; reflexivity.
Qed.

Lemma node_induction (P : node -> Prop) :
  (forall tag attrib text ch tail, Forall P ch -> P (Element tag attrib text ch tail)) ->
  (forall text tail, P (Special text tail)) ->
  forall n, P n.
Proof.
  intros HE HS. fix IH 1. intros [tag attrib text ch tail|text tail]; [|apply HS].
  apply HE. induction ch as [|c ch IHch]; constructor; [apply IH|exact IHch].
Qed.

(** The prefixes that the serializer declares hold no double quote. *)
Lemma no_quote_string_of_uint (d : Decimal.uint) :
  no_quote (NilEmpty.string_of_uint d) = true.
Proof.
  induction d; cbn [NilEmpty.string_of_uint no_quote]; [reflexivity|..];
    rewrite IHd; reflexivity.
Qed.

Lemma no_quote_decimal (z : Z) : no_quote (decimal z) = true.
Proof.
  assert (H : forall d, no_quote (NilZero.string_of_uint d) = true).
  { intros d. destruct d; [reflexivity|..];
      match goal with
      | |- no_quote (NilZero.string_of_uint ?x) = true =>
          exact (no_quote_string_of_uint x)
      end. }
  unfold decimal. destruct z as [|p|p]; cbn [Z.to_int NilZero.string_of_int].
  - reflexivity.
  - apply H.
  - cbn [no_quote]. now rewrite H.
Qed.

Lemma forallb_dict_set {V} (P : V -> bool) (k : string) (v : V) (d : list (string * V)) :
  P v = true ->
  forallb (fun kv => P (snd kv)) d = true ->
  forallb (fun kv => P (snd kv)) (dict_set k v d) = true.
Proof.
  intros Hv. induction d as [|[k' v'] d IH]; cbn [dict_set forallb snd].
  - intros _. now rewrite Hv.
  - intros H. apply andb_true_iff in H. destruct H as [H1 H2].
    destruct (String.eqb k k'); cbn [forallb snd].
    + now rewrite Hv, H2.
    + now rewrite H1, IH.
Qed.

Lemma forallb_dict_get {V} (P : V -> bool) (k : string) (v : V) (d : list (string * V)) :
  forallb (fun kv => P (snd kv)) d = true -> dict_get k d = Some v -> P v = true.
Proof.
  induction d as [|[k' v'] d IH]; cbn [dict_get forallb snd]; [discriminate|].
  intros H. apply andb_true_iff in H. destruct H as [H1 H2].
  destruct (String.eqb k k'); [|now apply IH].
  intros E. now injection E as <-.
Qed.

Lemma add_qname_prefixes (st st' : ns_state) (qname : string) :
  forallb (fun ns => no_quote (snd ns)) (namespaces st) = true ->
  add_qname st qname = Some st' ->
  forallb (fun ns => no_quote (snd ns)) (namespaces st') = true.
Proof.
  intros H.
  assert (Hother : forall q, Some {| qnames := dict_set q q (qnames st);
                                     namespaces := namespaces st |} = Some st' ->
                             forallb (fun ns => no_quote (snd ns)) (namespaces st') = true)
    by (intros q E; injection E as <-; exact H).
  unfold add_qname. destruct qname as [|c rest]; [apply Hother|].
  destruct c as [[] [] [] [] [] [] [] []]; try apply Hother.
  destruct (rsplit_brace rest) as [[uri tag]|]; [|discriminate].
  destruct (dict_get uri (namespaces st)) as [p|] eqn:Eu.
  - intros E. injection E as <-. exact H.
  - set (p := match dict_get uri namespace_map with
              | Some p => p
              | None => ("ns" ++ decimal (Z.of_nat (length (namespaces st))))%string
              end).
    assert (Hp : no_quote p = true).
    { unfold p. destruct (dict_get uri namespace_map) as [p'|] eqn:Em.
      - apply (forallb_dict_get no_quote uri p' namespace_map); [reflexivity|exact Em].
      - cbn [String.append no_quote]. now rewrite no_quote_decimal. }
    intros E. injection E as <-. cbn [namespaces].
    destruct (String.eqb p "xml"); [exact H|].
    now apply forallb_dict_set.
Qed.

Lemma note_qnames_prefixes (names : list string) (st st' : ns_state) :
  forallb (fun ns => no_quote (snd ns)) (namespaces st) = true ->
  note_qnames st names = Some st' ->
  forallb (fun ns => no_quote (snd ns)) (namespaces st') = true.
Proof.
  revert st. induction names as [|n names IH]; intros st H; cbn [note_qnames].
  - intros E. now injection E as <-.
  - destruct (note_qname st n) as [st1|] eqn:E1; [|discriminate].
    apply IH. unfold note_qname in E1.
    destruct (dict_get n (qnames st)).
    + now injection E1 as <-.
    + now apply (add_qname_prefixes st st1 n).
Qed.

Lemma collect_namespaces_prefixes (n : node) :
  forall st st',
    forallb (fun ns => no_quote (snd ns)) (namespaces st) = true ->
    collect_namespaces st n = Some st' ->
    forallb (fun ns => no_quote (snd ns)) (namespaces st') = true.
Proof.
  induction n as [tag attrib text ch tail Hch|text tail] using node_induction;
    intros st st' H E; [|discriminate].
  cbn [collect_namespaces] in E.
  destruct (note_qnames st (tag :: map fst attrib)) as [st1|] eqn:E1; [|discriminate].
  apply (note_qnames_prefixes _ _ _ H) in E1. clear H. revert st1 E1 E.
  induction Hch as [|c ch Hc _ IH]; intros st1 H1 E.
  - now injection E as <-.
  - destruct (collect_namespaces st1 c) as [st2|] eqn:E2; [|discriminate].
    exact (IH st2 (Hc st1 st2 H1 E2) E).
Qed.

(** What [tostring] writes for an element: its tag, the declarations,
    and the rest, which is all that is written without declarations. *)
Lemma tostring_shape (c : node) (s : string) :
  tostring c = Some s ->
  exists nss t rest,
    serialized_tag c = Some t /\
    forallb (fun ns => no_quote (snd ns)) nss = true /\
    s = (("<" ++ t) ++ xmlns_decls nss ++ rest)%string /\
    tostring_plain c = Some (("<" ++ t) ++ rest)%string.
Proof.
  unfold tostring, tostring_plain, serialized_tag.
  destruct (collect_namespaces _ c) as [st|] eqn:Ec; [|discriminate].
  intros Hs.
  destruct (serialize_xml_open _ _ _ _ Hs) as (tag & t & rest & Htag & Ht & -> & Hplain).
  exists (namespaces st), t, rest.
  destruct c as [tag' attrib text children tail|]; [|discriminate].
  cbn in Htag. injection Htag as ->.
  split; [rewrite Ec; exact Ht|].
  split; [|split; [reflexivity|exact Hplain]].
  apply (collect_namespaces_prefixes _ {| qnames := []; namespaces := [] |} _ eq_refl Ec).
Qed.

Lemma join_tostring_plain (l : list node) (svg_body : string) :
  join_tostring l = Some svg_body -> exists plain, join_plain l = Some plain.
Proof.
  revert svg_body. induction l as [|c l IH]; intros svg_body Hj.
  - now exists ""%string.
  - cbn [join_tostring] in Hj.
    destruct (tostring c) as [s|] eqn:Es; [|discriminate].
    destruct (join_tostring l) as [rest|]; [|discriminate].
    destruct (tostring_shape c s Es) as (nss & t & r & _ & _ & _ & Hp).
    destruct (IH rest eq_refl) as [plain Hl].
    cbn [join_plain]. rewrite Hp, Hl. eauto.
Qed.

Lemma join_tostring_part (l : list node) (svg_body : string) (c : node) :
  join_tostring l = Some svg_body -> In c l ->
  exists s pre post, tostring c = Some s /\ svg_body = (pre ++ s ++ post)%string.
Proof.
  revert svg_body. induction l as [|x l IH]; intros svg_body Hj Hin; [destruct Hin|].
  cbn [join_tostring] in Hj.
  destruct (tostring x) as [s|] eqn:Es; [|discriminate].
  destruct (join_tostring l) as [rest|]; [|discriminate].
  injection Hj as <-. destruct Hin as [->|Hin].
  - exists s, ""%string, rest. auto.
  - destruct (IH rest eq_refl Hin) as (s' & pre & post & Hs' & ->).
    exists s', (s ++ pre)%string, post. split; [exact Hs'|].
    now rewrite sapp_assoc.
Qed.

(** Scanning text in which no white space is followed by [xmlns]. *)
Lemma sub_xmlns_clear (s x : string) :
  clear_before x s = true ->
  sub_xmlns_from 0 (s ++ x) = (s ++ sub_xmlns_from 0 x)%string.
Proof.
  induction s as [|c s IH]; [reflexivity|].
  cbn [clear_before]. intros H. apply andb_true_iff in H. destruct H as [Hc Hs].
  apply negb_true_iff in Hc.
  change (String c s ++ x)%string with (String c (s ++ x)).
  cbn [sub_xmlns_from].
  assert (Hm : match_xmlns (String c (s ++ x)) = None)
    by (unfold match_xmlns; now rewrite Hc).
  rewrite Hm, (IH Hs). reflexivity.
Qed.

Lemma clear_before_app (x a b : string) :
  clear_before x (a ++ b) = clear_before (b ++ x) a && clear_before x b.
Proof.
  induction a as [|c a IH]; [reflexivity|].
  change (String c a ++ b)%string with (String c (a ++ b)).
  cbn [clear_before]. now rewrite IH, sapp_assoc, andb_assoc.
Qed.

Lemma startswith_other (p r x : string) (c : ascii) :
  p <> ""%string -> contains (String c "") p = false ->
  startswith p (r ++ String c x) = startswith p r.
Proof.
  revert r. induction p as [|a p IH]; intros r Hne Hlt; [congruence|].
  cbn [contains startswith] in Hlt. apply orb_false_iff in Hlt. destruct Hlt as [Ha Hp].
  destruct (Ascii.eqb c a) eqn:Ea; [discriminate|]. clear Ha.
  destruct r as [|b r]; cbn [String.append startswith].
  - rewrite Ascii.eqb_sym, Ea. reflexivity.
  - destruct (Ascii.eqb a b); [|reflexivity]. cbn [andb].
    destruct p as [|a' p]; [reflexivity|]. apply IH; [discriminate|exact Hp].
Qed.

(** What follows a text does not matter when it is nothing or begins
    with a character that is not in [xmlns]: with [<], as a serialized
    element does, or with white space. *)
Lemma clear_before_other (s x : string) (c : ascii) :
  contains (String c "") "xmlns" = false ->
  clear_before (String c x) s = clear_before "" s.
Proof.
  intros Hc. induction s as [|a s IH]; [reflexivity|].
  cbn [clear_before]. rewrite IH, sapp_nil_r.
  now rewrite (startswith_other "xmlns" s x c).
Qed.

Lemma clear_before_open (s x : string) :
  clear_before (String "<" x) s = clear_before "" s.
Proof. now apply clear_before_other. Qed.

Lemma space_not_in_xmlns (c : ascii) :
  is_space c = true -> contains (String c "") "xmlns" = false.
Proof.
  intros H. destruct c as [[] [] [] [] [] [] [] []]; try reflexivity;
    vm_compute in H; discriminate H.
Qed.

Lemma no_space_clear (s x : string) : no_space s = true -> clear_before x s = true.
Proof.
  induction s as [|c s IH]; [reflexivity|].
  cbn [no_space clear_before]. intros H. apply andb_true_iff in H. destruct H as [H1 H2].
  apply negb_true_iff in H1. now rewrite H1, (IH H2).
Qed.

Lemma join_opens (l : list node) (svg_body plain : string) :
  join_tostring l = Some svg_body -> join_plain l = Some plain ->
  forall r, clear_before plain r = clear_before svg_body r.
Proof.
  destruct l as [|c l]; cbn [join_tostring join_plain].
  - intros E1 E2. injection E1 as <-. now injection E2 as <-.
  - destruct (tostring c) as [s|] eqn:Es; [|discriminate].
    destruct (join_tostring l) as [rest|]; [|discriminate].
    destruct (tostring_shape c s Es) as (nss & t & r0 & _ & _ & -> & Hp).
    rewrite Hp. destruct (join_plain l) as [prest|]; [|discriminate].
    intros E1 E2 r. injection E1 as <-. injection E2 as <-.
    cbn [String.append]. now rewrite !clear_before_open.
Qed.

(** When the tags hold no white space and no white space of the plain
    serialization is followed by [xmlns], the declarations are all that
    the substitution deletes. *)
Lemma sub_xmlns_join_plain (l : list node) :
  forall svg_body plain,
    join_tostring l = Some svg_body -> join_plain l = Some plain ->
    forallb plain_tag l = true -> no_xmlns_after_space plain = true ->
    sub_xmlns svg_body = plain.
Proof.
  unfold sub_xmlns, no_xmlns_after_space.
  induction l as [|c l IH]; intros svg_body plain Hj Hp Ht Hc.
  - injection Hj as <-. now injection Hp as <-.
  - cbn [forallb] in Ht. apply andb_true_iff in Ht. destruct Ht as [Hct Hlt].
    cbn [join_tostring] in Hj. cbn [join_plain] in Hp.
    destruct (tostring c) as [s|] eqn:Es; [|discriminate].
    destruct (join_tostring l) as [rest|] eqn:Er; [|discriminate].
    destruct (tostring_shape c s Es) as (nss & t & r & Htag & Hq & -> & Hpc).
    rewrite Hpc in Hp.
    destruct (join_plain l) as [prest|] eqn:Epr; [|discriminate].
    injection Hj as <-. injection Hp as <-.
    unfold plain_tag in Hct. rewrite Htag in Hct.
    set (A := ("<" ++ t)%string) in *.
    change (String "<" ((t ++ r) ++ prest)) with ((A ++ r) ++ prest)%string in Hc |- *.
    change (String "<" ((t ++ xmlns_decls nss ++ r) ++ rest))
      with ((A ++ xmlns_decls nss ++ r) ++ rest)%string.
    rewrite sapp_assoc, !clear_before_app in Hc.
    apply andb_true_iff in Hc. destruct Hc as [_ Hc].
    apply andb_true_iff in Hc. destruct Hc as [Hr Hrest].
    rewrite sapp_nil_r, (join_opens l rest prest Er Epr) in Hr.
    rewrite !sapp_assoc.
    rewrite (sub_xmlns_clear A _ (no_space_clear A _ Hct)).
    rewrite (sub_xmlns_decls _ _ Hq), (sub_xmlns_clear _ _ Hr).
    now rewrite (IH rest prest eq_refl eq_refl Hlt Hrest).
Qed.

Lemma clear_no_match (s : string) :
  clear_before "" s = true ->
  forall pre post, s = (pre ++ post)%string -> match_xmlns post = None.
Proof.
  intros Hs pre post ->. rewrite clear_before_app in Hs.
  apply andb_true_iff in Hs. destruct Hs as [_ Hs].
  destruct post as [|c post]; [reflexivity|].
  cbn [clear_before] in Hs. apply andb_true_iff in Hs. destruct Hs as [Hc _].
  apply negb_true_iff in Hc. rewrite sapp_nil_r in Hc.
  unfold match_xmlns. now rewrite Hc.
Qed.

Lemma filter_idem {A} (f : A -> bool) (l : list A) :
  List.filter f (List.filter f l) = List.filter f l.
Proof.
  induction l as [|x l IH]; [reflexivity|].
  cbn [List.filter]. destruct (f x) eqn:E; [|exact IH].
  cbn [List.filter]. now rewrite E, IH.
Qed.

Lemma dimension_32px (root : node) (name : string) :
  node_get root name = Some "32px" -> dimension root name = Some 32.
Proof. intros H. unfold dimension. now rewrite H. Qed.

Lemma embedded_vector (w : World) (j : Icon) :
  endswith ".png" (path_str (filename j)) = true ->
  path_exists w (svg_filename j) = Some true ->
  embedded w j = embed_svg w (svg_filename j).
Proof.
  intros Hpng Hex. unfold embedded, embed_source. rewrite Hex.
  now rewrite (is_existing_svg_sibling w j Hpng), Hex.
Qed.

(** C5 as stated fails: a title below a group survives in the body of
    the entry. *)
Lemma nested_title_is_kept : ~ vector_entry_is_clean sample_world icon_z.
Proof.
  intros H.
  destruct (embedded sample_world icon_z) as [e|] eqn:He;
    [|vm_compute in He; discriminate He].
  destruct (H sample_svg e eq_refl eq_refl eq_refl He) as (_ & _ & _ & Ht).
  vm_compute in He. injection He as <-.
  vm_compute in Ht. discriminate Ht.
Qed.

(** C5 as stated fails in its other half as well: the substitution
    deletes character data that looks like a declaration, and what is left
    of the text around it can be a declaration to the eye; here the body
    ends up with [xmlns] in it and with a match of the pattern. *)
Lemma lookalike_text_leaves_xmlns :
  exists e pre post,
    embedded lookalike_world icon_z = Some e /\
    width e = 32 /\ height e = 32 /\
    contains "xmlns" (body e) = true /\
    body e = (pre ++ post)%string /\ match_xmlns post <> None.
Proof.
  destruct (embedded lookalike_world icon_z) as [e|] eqn:He;
    [|vm_compute in He; discriminate He].
  exists e, "<desc>"%string,
    (" xmlns=" ++ String dq ("b" ++ String dq "</desc>"))%string.
  vm_compute in He. injection He as <-.
  repeat split; try reflexivity. vm_compute. discriminate.
Qed.

(** C5, amended.  A vector icon whose root carries width and height
    [32px] and whose children serialize gets the entry of width 32 and
    height 32 whose body is the serialization of the children of the root
    other than those tagged as SVG title, from which every match of the
    declaration pattern is deleted from left to right.  The children
    tagged as SVG title add nothing to the body: the entry is that of the
    root without them.  Every other child is serialized, a title outside
    the SVG namespace and titles further down included.  When the tags of
    these children are written without white space and no white space of
    their serialization without declarations is followed by [xmlns], the
    body is that serialization, and no match of the pattern is in it. *)
Theorem vector_entry_of_32px (w : World) (a : Aggregate) (j : Icon) (root : node)
    (svg_body : string) :
  endswith ".png" (path_str (filename j)) = true ->
  path_exists w (svg_filename j) = Some true ->
  etree_parse w (svg_filename j) = Some root ->
  node_get root "width" = Some "32px" ->
  node_get root "height" = Some "32px" ->
  join_tostring (List.filter not_title (node_children root)) = Some svg_body ->
  let entry := {| body := sub_xmlns svg_body; width := 32; height := 32 |} in
  let kept := List.filter not_title (node_children root) in
  dict_get (target j) (icons (mermaid (process_icon w a j))) = Some entry /\
  (forall l : list Icon,
      In j l -> NoDup (map target l) ->
      dict_get (target j) (icons (mermaid (aggregate w l))) = Some entry) /\
  (forall c, In c kept <-> In c (node_children root) /\ node_tag c <> Some svg_title_tag) /\
  (forall c, In c kept ->
     exists s pre post, tostring c = Some s /\ svg_body = (pre ++ s ++ post)%string) /\
  (forall w' file,
      etree_parse w' file = Some (without_svg_titles root) ->
      embed_svg w' file = Some entry) /\
  exists plain,
    join_plain kept = Some plain /\
    (forallb plain_tag kept = true -> no_xmlns_after_space plain = true ->
     sub_xmlns svg_body = plain /\
     forall pre post, plain = (pre ++ post)%string -> match_xmlns post = None).
Proof.
  intros Hpng Hex Hparse Hw Hh Hjoin entry kept.
  assert (He : embedded w j = Some entry).
  { rewrite (embedded_vector w j Hpng Hex). unfold embed_svg.
    rewrite Hparse, (dimension_32px root "width" Hw), (dimension_32px root "height" Hh).
    now rewrite Hjoin. }
  split; [|split; [|split; [|split; [|split]]]].
  - rewrite mermaid_process_icon. now apply put_icons_get_same.
  - intros l Hj Hnd. now apply aggregate_entry.
  - intros c. unfold kept. rewrite List.filter_In. unfold not_title.
    destruct (node_tag c) as [t|]; [|intuition discriminate].
    destruct (String.eqb t svg_title_tag) eqn:E.
    + apply String.eqb_eq in E. subst t. cbn [negb]. intuition discriminate.
    + apply String.eqb_neq in E. cbn [negb]. intuition congruence.
  - intros c Hc. now apply (join_tostring_part kept).
  - intros w' file Hparse'. unfold embed_svg. rewrite Hparse'.
    destruct root as [tag attrib text children tail|]; [|discriminate Hw].
    cbn [without_svg_titles node_children].
    assert (Hd : forall name,
               dimension (Element tag attrib text (List.filter not_title children) tail) name
               = dimension (Element tag attrib text children tail) name) by reflexivity.
    rewrite !Hd, (dimension_32px _ "width" Hw), (dimension_32px _ "height" Hh).
    cbn [node_children] in Hjoin. now rewrite filter_idem, Hjoin.
  - destruct (join_tostring_plain kept svg_body Hjoin) as [plain Hplain].
    exists plain. split; [exact Hplain|]. intros Htags Hclear.
    split; [now apply (sub_xmlns_join_plain kept)|].
    now apply clear_no_match.
Qed.

Lemma vector_entry_of_32px_witness :
  let entry := {| body := sub_xmlns sample_svg_body; width := 32; height := 32 |} in
  let kept := List.filter not_title (node_children sample_svg) in
  dict_get "z" (icons (mermaid (process_icon sample_world initial icon_z))) = Some entry /\
  (forall l : list Icon,
      In icon_z l -> NoDup (map target l) ->
      dict_get "z" (icons (mermaid (aggregate sample_world l))) = Some entry) /\
  (forall c, In c kept <->
             In c (node_children sample_svg) /\ node_tag c <> Some svg_title_tag) /\
  (forall c, In c kept ->
     exists s pre post,
       tostring c = Some s /\ sample_svg_body = (pre ++ s ++ post)%string) /\
  (forall w' file,
      etree_parse w' file = Some (without_svg_titles sample_svg) ->
      embed_svg w' file = Some entry) /\
  exists plain,
    join_plain kept = Some plain /\
    (forallb plain_tag kept = true -> no_xmlns_after_space plain = true ->
     sub_xmlns sample_svg_body = plain /\
     forall pre post, plain = (pre ++ post)%string -> match_xmlns post = None).
Proof.
  apply (vector_entry_of_32px sample_world initial icon_z sample_svg sample_svg_body);
    reflexivity.
Defined.

(** ** Check-only mode and the release constants *)

(** In check-only mode a run over a well-configured tree prints that the
    prerequisites are met and exits with status 0; it neither removes nor
    creates nor writes anything. *)
Theorem check_only_touches_nothing (w : World) (config : Config) (returncode : Z) :
  cwd_ok w = true -> config_yml w = Some config ->
  path_exists w "../source/GCPCommon.puml" = Some true ->
  path_exists w "../source/official" = Some true ->
  plantuml_version w = Some returncode ->
  check_env w = true ->
  main w = ([EvPrint PrerequisitesMet], Exit 0).
Proof.
  intros Hcwd Hcfg Hcommon Hofficial Htool Hcheck.
  unfold main.
  rewrite (verify_environment_passes w config returncode
             Hcwd Hcfg Hcommon Hofficial Htool).
  now rewrite Hcheck.
Qed.

Lemma check_only_touches_nothing_witness :
  main check_only_world = ([EvPrint PrerequisitesMet], Exit 0).
Proof.
  apply (check_only_touches_nothing check_only_world sample_config 1); reflexivity.
Defined.

(** The time stamp of the manifest is midnight of 2025-02-07 in UTC, and
    is the same in every world. *)
Theorem release_metadata_is_fixed (w : World) (l : list Icon) :
  release_utc_seconds = 1738886400 /\
  lastModified (mermaid (aggregate w l)) = release_utc_seconds /\
  info_version (mermaid (aggregate w l)) = release_version.
Proof.
  split; [reflexivity|].
  rewrite aggregate_mermaid.
  destruct (fold_put_constants w (sorted_icons l) (mermaid initial))
    as (_ & _ & Hv & Ht & _).
  now rewrite Hv, Ht.
Qed.

(** * More of the script *)

(** ** The manifest stays consistent *)

Section DictMore.
Context {V : Type}.
Implicit Types (d : list (string * V)) (k : string) (v : V).

Lemma dict_set_In d k v k' v' :
  In (k', v') (dict_set k v d) -> (k', v') = (k, v) \/ In (k', v') d.
Proof.
  induction d as [|[k0 v0] d IH]; simpl.
  - intros [E|[]]. now left.
  - destruct (String.eqb k k0); simpl; intros [H|H]; auto.
    destruct (IH H); auto.
Qed.

Lemma dict_set_In_new d k v : In (k, v) (dict_set k v d).
Proof.
  induction d as [|[k0 v0] d IH]; simpl; [now left|].
  destruct (String.eqb k k0); simpl; auto.
Qed.

Lemma dict_set_In_other d k v k' v' :
  k' <> k -> In (k', v') d -> In (k', v') (dict_set k v d).
Proof.
  intros Hne. induction d as [|[k0 v0] d IH]; simpl; [tauto|].
  destruct (String.eqb k k0) eqn:E; simpl; intros [H|H]; auto.
  apply String.eqb_eq in E. congruence.
Qed.

Lemma dict_set_set d k v v' : dict_set k v (dict_set k v' d) = dict_set k v d.
Proof.
  induction d as [|[k0 v0] d IH]; simpl.
  - now rewrite String.eqb_refl.
  - destruct (String.eqb k k0) eqn:E; simpl.
    + now rewrite String.eqb_refl.
    + now rewrite E, IH.
Qed.

Lemma dict_set_length d k v :
  length (dict_set k v d)
  = match dict_get k d with Some _ => length d | None => S (length d) end.
Proof.
  induction d as [|[k0 v0] d IH]; simpl; [reflexivity|].
  destruct (String.eqb k k0); simpl; [reflexivity|].
  rewrite IH. now destruct (dict_get k d).
Qed.

Lemma dict_get_In d k v : dict_get k d = Some v -> In (k, v) d.
Proof.
  induction d as [|[k0 v0] d IH]; simpl; [discriminate|].
  destruct (String.eqb k k0) eqn:E; [|auto].
  apply String.eqb_eq in E. intros H. injection H as <-. subst. now left.
Qed.

Lemma dict_In_get d k v : NoDup (dict_keys d) -> In (k, v) d -> dict_get k d = Some v.
Proof.
  unfold dict_keys. induction d as [|[k0 v0] d IH]; simpl; [tauto|].
  intros Hnd. apply NoDup_cons in Hnd. destruct Hnd as [Hk Hnd].
  intros [E|Hin].
  - injection E as -> ->. now rewrite String.eqb_refl.
  - destruct (String.eqb k k0) eqn:E; [|auto].
    apply String.eqb_eq in E. subst k0. exfalso. apply Hk.
    apply list_elem_of_In, in_map_iff. now exists (k, v).
Qed.

End DictMore.

Lemma note_key_In (l : list string) (k x : string) :
  In x (note_key l k) <-> x = k \/ In x l.
Proof.
  unfold note_key. destruct (existsb (String.eqb k) l) eqn:E.
  - apply existsb_eqb_In in E. split; [auto|]. intros [->|H]; auto.
  - rewrite in_app_iff. simpl. split; intros H; [|destruct H as [->|H]; auto].
    destruct H as [H|[->|[]]]; auto.
Qed.

Lemma group_total_set (d : list (string * list string)) (k : string) (g : list string) :
  group_total (dict_set k g d)
  = group_total d + Z.of_nat (length g)
    - Z.of_nat (length (match dict_get k d with Some old => old | None => [] end)).
Proof.
  induction d as [|[k0 g0] d IH]; simpl; [lia|].
  destruct (String.eqb k k0); simpl; [lia|]. rewrite IH. lia.
Qed.

(** Lines 115-119 in one assignment per field. *)
Lemma add_icon_fields (m : Mermaid) (cat tgt : string) (e : IconEntry) :
  let old := match dict_get cat (categories m) with Some g => g | None => [] end in
  categories (add_icon m cat tgt e) = dict_set cat (old ++ [tgt])%list (categories m) /\
  icons (add_icon m cat tgt e) = dict_set tgt e (icons m) /\
  info_total (add_icon m cat tgt e) = info_total m + 1.
Proof.
  cbn zeta. unfold add_icon. cbn [categories icons info_total].
  repeat split.
  destruct (dict_get cat (categories m)) as [g|] eqn:G.
  - now rewrite G.
  - now rewrite dict_get_set_eq, dict_set_set.
Qed.

Lemma add_icon_consistent (m : Mermaid) (cat tgt : string) (e : IconEntry) :
  consistent m -> consistent (add_icon m cat tgt e).
Proof.
  intros (Hki & Hkc & Htot & Hlen & Hgrp & Hcov).
  destruct (add_icon_fields m cat tgt e) as (Ec & Ei & Et).
  set (old := match dict_get cat (categories m) with Some g => g | None => [] end) in Ec.
  assert (Hold : forall t, In t old -> In t (dict_keys (icons m))).
  { intros t Ht. unfold old in Ht.
    destruct (dict_get cat (categories m)) as [g|] eqn:G; [|destruct Ht].
    apply dict_get_In in G. now apply (Hgrp cat g G). }
  unfold consistent. rewrite Ec, Ei, Et, !dict_keys_set.
  split; [now apply note_key_NoDup|].
  split; [now apply note_key_NoDup|].
  split.
  { rewrite group_total_set. fold old. rewrite length_app. cbn [length]. lia. }
  split.
  { rewrite dict_set_length. destruct (dict_get tgt (icons m)); lia. }
  split.
  - intros c g Hin. apply dict_set_In in Hin. destruct Hin as [E|Hin].
    + injection E as -> ->. split; [now destruct old|].
      intros t Ht. apply note_key_In. apply in_app_iff in Ht.
      destruct Ht as [Ht|[<-|[]]]; auto.
    + destruct (Hgrp c g Hin) as [Hne Hall]. split; [exact Hne|].
      intros t Ht. apply note_key_In. auto.
  - intros t Ht. apply note_key_In in Ht. destruct Ht as [->|Ht].
    + exists cat, (old ++ [tgt])%list. split; [apply dict_set_In_new|].
      apply in_app_iff. right. now left.
    + destruct (Hcov t Ht) as (c & g & Hin & Htg).
      destruct (string_dec c cat) as [->|Hne].
      * exists cat, (old ++ [tgt])%list. split; [apply dict_set_In_new|].
        apply in_app_iff. left. unfold old.
        now rewrite (dict_In_get _ _ _ Hkc Hin).
      * exists c, g. split; [now apply dict_set_In_other|exact Htg].
Qed.

Lemma initial_consistent : consistent (mermaid initial).
Proof.
  unfold consistent. cbn. repeat split; try constructor; try lia;
    try (intros; contradiction).
Qed.

Lemma put_consistent (w : World) (m : Mermaid) (j : Icon) :
  consistent m -> consistent (put w m j).
Proof.
  intros Hm. unfold put. destruct (embedded w j); [|exact Hm].
  now apply add_icon_consistent.
Qed.

Lemma fold_put_consistent (w : World) (l : list Icon) (m : Mermaid) :
  consistent m -> consistent (fold_left (put w) l m).
Proof.
  revert m. induction l as [|j l IH]; intros m Hm; [exact Hm|].
  cbn [fold_left]. apply IH. now apply put_consistent.
Qed.

(** Every call of [build_mermaid_icon] that returns keeps a consistent
    manifest consistent, so the manifest of every run is: its keys are
    pairwise distinct, the groups list [info.total] names in all and each
    at least one, there are at most [info.total] entries (exactly that many
    when the target names are pairwise distinct), every listed name is a
    key of the icons mapping and every key is listed in a group. *)
Theorem manifest_stays_consistent (w : World) :
  (forall (m m' : Mermaid) (file cat tgt : string) (out : list log_line),
      consistent m ->
      build_mermaid_icon w m file cat tgt = Some (m', out) ->
      consistent m') /\
  (forall l : list Icon,
      consistent (mermaid (aggregate w l)) /\
      (NoDup (map target l) ->
       Z.of_nat (length (icons (mermaid (aggregate w l))))
       = info_total (mermaid (aggregate w l)))).
Proof.
  split.
  - intros m m' file cat tgt out Hm. unfold build_mermaid_icon.
    destruct (is_existing w ".svg" file) as [[|]|]; [| |discriminate].
    + destruct (embed_svg w file); intros E; injection E as <- _;
        [now apply add_icon_consistent|exact Hm].
    + destruct (is_existing w ".png" file) as [[|]|]; [| |discriminate].
      * destruct (embed_png w file); intros E; injection E as <- _;
          [now apply add_icon_consistent|exact Hm].
      * intros E. injection E as <- _. exact Hm.
  - intros l. rewrite aggregate_mermaid. split.
    + apply fold_put_consistent, initial_consistent.
    + intros Hnd.
      assert (Hlen : length (icons (fold_left (put w) (sorted_icons l) (mermaid initial)))
                     = length (dict_keys (icons (fold_left (put w) (sorted_icons l)
                                                    (mermaid initial)))))
        by (unfold dict_keys; now rewrite length_map).
      rewrite Hlen, fold_put_icons_keys, fold_put_total.
      cbn [initial mermaid icons info_total dict_keys map].
      rewrite fold_note_key_distinct.
      * cbn [app]. now rewrite length_map.
      * cbn [app]. apply NoDup_map_filter. now rewrite (sorted_icons_perm l).
Qed.

Lemma manifest_stays_consistent_witness :
  consistent (mermaid (aggregate sample_world [icon_b; icon_z; icon_a])) /\
  consistent (add_icon (mermaid initial) "Compute" "a"
                {| body := "data:image/png;base64,TWFu"; width := 64; height := 64 |}).
Proof.
  split.
  - apply (proj2 (manifest_stays_consistent sample_world)).
  - apply (proj1 (manifest_stays_consistent sample_world) (mermaid initial) _
             "../source/official/Compute/a.png" "Compute" "a" []).
    + exact initial_consistent.
    + reflexivity.
Defined.

(** ** Icons that share a target name *)

Lemma fold_put_icons_get_unembedded (w : World) (l : list Icon) (m : Mermaid) (k : string) :
  (forall x, In x l -> target x = k -> embedded w x = None) ->
  dict_get k (icons (fold_left (put w) l m)) = dict_get k (icons m).
Proof.
  revert m. induction l as [|x l IH]; intros m Hl; [reflexivity|].
  cbn [fold_left]. rewrite IH by (intros y Hy; apply Hl; now right).
  destruct (string_dec (target x) k) as [E|Hne].
  - unfold put. now rewrite (Hl x (or_introl eq_refl) E).
  - now apply put_icons_get_other.
Qed.

(** The entry under a target name is the one of the last icon in sorted
    order that was embedded under that name: a later icon replaces the
    entry of an earlier one with the same target, also across categories,
    while [info.total] and the groups still count both. *)
Theorem last_embedding_wins (w : World) (l before after : list Icon) (j : Icon)
    (e : IconEntry) :
  sorted_icons l = (before ++ j :: after)%list ->
  embedded w j = Some e ->
  (forall x, In x after -> target x = target j -> embedded w x = None) ->
  dict_get (target j) (icons (mermaid (aggregate w l))) = Some e /\
  info_total (mermaid (aggregate w l))
  = Z.of_nat (length (List.filter (is_embedded w) before)) + 1
    + Z.of_nat (length (List.filter (is_embedded w) after)).
Proof.
  intros Hs He Hafter. rewrite aggregate_mermaid, Hs. split.
  - rewrite fold_left_app. cbn [fold_left].
    rewrite (fold_put_icons_get_unembedded w after _ (target j) Hafter).
    now apply put_icons_get_same.
  - rewrite fold_put_total, List.filter_app, length_app.
    cbn [List.filter initial mermaid info_total]. unfold is_embedded at 2.
    rewrite He. cbn [length]. lia.
Qed.

Lemma last_embedding_wins_witness :
  dict_get "x" (icons (mermaid (aggregate twin_world twin_icons)))
  = Some {| body := "data:image/png;base64,TQ=="; width := 64; height := 64 |} /\
  info_total (mermaid (aggregate twin_world twin_icons)) = 2.
Proof.
  exact (last_embedding_wins twin_world twin_icons
           [Icon_new (official "AI" "x.png") sample_config] []
           (Icon_new (official "Compute" "x.png") sample_config)
           {| body := "data:image/png;base64,TQ=="; width := 64; height := 64 |}
           eq_refl eq_refl (fun x H => match H with end)).
Defined.

(** ** The phases of [main] *)

Lemma bind_ext {A B} (m : Run A) (f g : A -> Run B) :
  (forall a, f a = g a) -> bind m f = bind m g.
Proof. intros H. destruct m as [tr [a| |]]; simpl; [now rewrite H|reflexivity..]. Qed.

Lemma bind_assoc {A B C} (m : Run A) (f : A -> Run B) (g : B -> Run C) :
  bind (bind m f) g = bind m (fun a => bind (f a) g).
Proof.
  destruct m as [tr [a| |]]; simpl; try reflexivity.
  destruct (f a) as [tr' [b| |]]; simpl; try reflexivity.
  destruct (g b) as [tr'' r]. now rewrite app_assoc.
Qed.

Lemma seq_assoc3 {B} (m1 m2 m3 : Run unit) (k : Run B) :
  ((m1 ;;; m2 ;;; m3) ;;; k) = (m1 ;;; m2 ;;; m3 ;;; k).
Proof.
  destruct m1 as [t1 [[]| |]]; simpl; try reflexivity.
  destruct m2 as [t2 [[]| |]]; simpl; try reflexivity.
  destruct m3 as [t3 [[]| |]]; simpl; try reflexivity.
  destruct k as [t4 r]. now rewrite <- !app_assoc.
Qed.

Lemma main_phases (w : World) :
  main w
  = (config <- verify_environment w ;;
     prepare w config ;;; run_pool w (discover w config) ;;; finish w config).
Proof.
  unfold main. apply bind_ext. intros config. unfold prepare, finish.
  symmetry. apply seq_assoc3.
Qed.

Lemma verify_environment_cases (w : World) :
  (exists config, verify_environment w = ([], Ok config) /\
                  config_yml w = Some config /\ check_env w = false) \/
  (verify_environment w = ([EvPrint PrerequisitesMet], Exit 0) /\ check_env w = true) \/
  snd (verify_environment w) = Exit 1 \/
  snd (verify_environment w) = Raise.
Proof.
  unfold verify_environment, exists_.
  destruct (cwd_ok w); cbn [negb]; [|auto].
  destruct (config_yml w) as [config|]; [|auto].
  destruct (path_exists w "../source/GCPCommon.puml") as [[|]|]; auto.
  destruct (path_exists w "../source/official") as [[|]|]; auto.
  destruct (plantuml_version w); [|auto].
  destruct (check_env w); [auto|].
  left. exists config. auto.
Qed.

Lemma ok_or_raise_bind (m k : Run unit) :
  ok_or_raise m -> ok_or_raise k -> ok_or_raise (m ;;; k).
Proof.
  unfold ok_or_raise. rewrite result_bind.
  intros [->| ->] Hk; [destruct Hk; auto|auto].
Qed.

Lemma ok_or_raise_perform (w : World) (e : event) : ok_or_raise (perform w e).
Proof. unfold ok_or_raise, perform. destruct (raises w e); auto. Qed.

Lemma ok_or_raise_for_each (w : World) {A} (g : A -> event) (l : list A) :
  ok_or_raise (for_each l (fun x => perform w (g x))).
Proof.
  induction l as [|x l IH]; [now left|].
  cbn [for_each]. apply ok_or_raise_bind; [apply ok_or_raise_perform|exact IH].
Qed.

Lemma ok_or_raise_clean_dist (w : World) : ok_or_raise (clean_dist w).
Proof.
  unfold clean_dist, exists_, ok_or_raise.
  destruct (path_exists w "../dist") as [present|]; [|now right].
  rewrite result_bind. cbn [ret snd].
  apply ok_or_raise_bind; [|apply ok_or_raise_perform].
  destruct present; [apply ok_or_raise_perform|now left].
Qed.

Lemma ok_or_raise_prepare (w : World) (config : Config) : ok_or_raise (prepare w config).
Proof.
  unfold prepare. apply ok_or_raise_bind; [apply ok_or_raise_clean_dist|].
  apply ok_or_raise_bind; apply ok_or_raise_for_each.
Qed.

Lemma ok_or_raise_finish (w : World) (config : Config) : ok_or_raise (finish w config).
Proof.
  unfold finish. cbn zeta. apply ok_or_raise_bind; [now left|].
  apply ok_or_raise_bind; [|now left].
  unfold write_outputs. repeat apply ok_or_raise_bind; apply ok_or_raise_perform.
Qed.

Lemma quiet_prepare (w : World) (config : Config) : quiet (trace (prepare w config)).
Proof.
  unfold prepare, quiet. rewrite trace_bind. apply Forall_app.
  split; [apply quiet_clean_dist|].
  destruct (snd (clean_dist w)); [|constructor..].
  rewrite trace_bind. apply Forall_app.
  split; [apply quiet_for_each_perform; reflexivity|].
  destruct (snd (copy_puml w)); [|constructor..].
  apply quiet_for_each_perform. reflexivity.
Qed.

Lemma written_prepare (w : World) (config : Config) : written (trace (prepare w config)) = [].
Proof.
  unfold prepare. rewrite trace_bind, written_app, written_clean_dist.
  destruct (snd (clean_dist w)); [|reflexivity..].
  rewrite trace_bind, written_app.
  unfold copy_puml at 1. rewrite written_for_each_perform by reflexivity.
  destruct (snd (copy_puml w)); [|reflexivity..].
  unfold make_category_dirs. now rewrite written_for_each_perform.
Qed.

(** When the preparation returns, its last events are the [mkdir] calls of
    the categories. *)
Lemma prepare_Ok (w : World) (config : Config) :
  snd (prepare w config) = Ok tt ->
  trace (prepare w config)
  = (trace (clean_dist w) ++ trace (copy_puml w)
     ++ map (fun c => EvMkdir (dist_dir c) true)
            (category_names (discover w config)))%list.
Proof.
  unfold prepare. rewrite result_bind, trace_bind.
  destruct (snd (clean_dist w)) as [[]| |]; try discriminate.
  rewrite result_bind, trace_bind.
  destruct (snd (copy_puml w)) as [[]| |]; try discriminate.
  intros Hmk.
  destruct (for_each_perform w (fun c => EvMkdir (dist_dir c) true)
              (category_names (discover w config))) as [k [Hmap Hall]].
  fold (make_category_dirs w (discover w config)) in Hmap, Hall.
  now rewrite Hmap, (Hall Hmk).
Qed.

Lemma keeps_dirs_finish (w : World) (config : Config) : keeps_dirs (trace (finish w config)).
Proof.
  unfold finish. cbn zeta. rewrite trace_bind. cbn [trace fst snd].
  unfold keeps_dirs. apply Forall_app. split.
  - apply Forall_forall. intros x Hx.
    apply list_elem_of_In, in_map_iff in Hx. destruct Hx as [y [<- _]]. exact I.
  - apply keeps_dirs_write_outputs.
Qed.

Lemma quiet_finish (w : World) (config : Config) : quiet (trace (finish w config)).
Proof.
  unfold finish. cbn zeta. rewrite trace_bind. cbn [trace fst snd].
  unfold quiet. apply Forall_app. split.
  - apply Forall_forall. intros x Hx.
    apply list_elem_of_In, in_map_iff in Hx. now destruct Hx as [y [<- _]].
  - unfold write_outputs, perform.
    repeat (match goal with |- context [raises w ?e] => destruct (raises w e) end; cbn);
      repeat constructor.
Qed.

(** ** The pool *)

Lemma split_before {P : event -> bool} (l1 l2 tr1 tr2 : list event) (e : event) :
  Forall (fun x => P x = false) l1 -> P e = true ->
  (l1 ++ l2 = tr1 ++ e :: tr2)%list ->
  exists t, tr1 = (l1 ++ t)%list /\ l2 = (t ++ e :: tr2)%list.
Proof.
  revert tr1. induction l1 as [|x l1 IH]; intros tr1 Hq He Heq.
  - exists tr1. auto.
  - apply Forall_cons in Hq. destruct Hq as [Hx Hq].
    destruct tr1 as [|y tr1]; simpl in Heq; injection Heq as Hxy Heq.
    + congruence.
    + destruct (IH tr1 Hq He Heq) as [t [H1 H2]]. exists t. subst. auto.
Qed.

Lemma split_after {P : event -> bool} (l1 l2 tr1 tr2 : list event) (e : event) :
  Forall (fun x => P x = false) l2 -> P e = true ->
  (l1 ++ l2 = tr1 ++ e :: tr2)%list ->
  exists t, l1 = (tr1 ++ e :: t)%list /\ tr2 = (t ++ l2)%list.
Proof.
  revert l1. induction tr1 as [|y tr1 IH]; intros l1 Hq He Heq.
  - destruct l1 as [|x l1]; simpl in Heq.
    + subst l2. apply Forall_cons in Hq. destruct Hq as [Hx _]. congruence.
    + injection Heq as -> <-. exists l1. auto.
  - destruct l1 as [|x l1]; simpl in Heq.
    + subst l2. exfalso.
      assert (Hin : In e (y :: tr1 ++ e :: tr2)) by (right; apply in_elt).
      rewrite Forall_forall in Hq. apply list_elem_of_In, Hq in Hin. congruence.
    + injection Heq as -> Heq.
      destruct (IH l1 Hq He Heq) as [t [H1 H2]]. exists t. subst. auto.
Qed.

Lemma submitted_app (a b : list event) : submitted (a ++ b) = (submitted a ++ submitted b)%list.
Proof. apply flat_map_app. Qed.

Lemma started_app (a b : list event) : started (a ++ b) = (started a ++ started b)%list.
Proof. apply flat_map_app. Qed.

Lemma submitted_In (tr : list event) (i : Icon) : In i (submitted tr) <-> In (EvSubmit i) tr.
Proof.
  unfold submitted. rewrite in_flat_map. split.
  - intros [e [He Hi]]. destruct e; try (now destruct Hi). destruct Hi as [<-|[]]. exact He.
  - intros H. exists (EvSubmit i). split; [exact H|now left].
Qed.

Lemma started_In (tr : list event) (i : Icon) : In i (started tr) <-> In (EvJob i) tr.
Proof.
  unfold started. rewrite in_flat_map. split.
  - intros [e [He Hi]]. destruct e; try (now destruct Hi). destruct Hi as [<-|[]]. exact He.
  - intros H. exists (EvJob i). split; [exact H|now left].
Qed.

Lemma submitted_map_submit (l : list Icon) : submitted (map EvSubmit l) = l.
Proof. induction l as [|x l IH]; simpl; congruence. Qed.

Lemma submitted_map_job (l : list Icon) : submitted (map EvJob l) = [].
Proof. induction l as [|x l IH]; simpl; congruence. Qed.

Lemma started_map_submit (l : list Icon) : started (map EvSubmit l) = [].
Proof. induction l as [|x l IH]; simpl; congruence. Qed.

Lemma started_map_job (l : list Icon) : started (map EvJob l) = l.
Proof. induction l as [|x l IH]; simpl; congruence. Qed.

Lemma remove_nth_perm {A} (l : list A) (k : nat) (x : A) :
  nth_error l k = Some x -> Permutation (x :: remove_nth k l) l.
Proof.
  revert k. induction l as [|y l IH]; intros [|k]; simpl; try discriminate.
  - intros E. injection E as ->. reflexivity.
  - intros E. rewrite perm_swap. now rewrite (IH k E).
Qed.

Lemma submitted_pool_run (sched : list nat) (todo waiting : list Icon) :
  submitted (pool_run sched todo waiting) = todo.
Proof.
  revert todo waiting.
  induction sched as [|[|k] sched IH]; intros todo waiting; cbn [pool_run].
  - now rewrite submitted_app, submitted_map_submit, submitted_map_job, app_nil_r.
  - destruct todo as [|i todo]; [apply IH|]. cbn. now rewrite IH.
  - destruct (nth_error waiting k); [|apply IH]. cbn. apply IH.
Qed.

Lemma started_pool_run (sched : list nat) (todo waiting : list Icon) :
  Permutation (started (pool_run sched todo waiting)) (waiting ++ todo).
Proof.
  revert todo waiting.
  induction sched as [|[|k] sched IH]; intros todo waiting; cbn [pool_run].
  - now rewrite started_app, started_map_submit, started_map_job.
  - destruct todo as [|i todo]; [apply IH|]. cbn.
    rewrite IH. now rewrite <- app_assoc.
  - destruct (nth_error waiting k) as [i|] eqn:E; [|apply IH]. cbn.
    rewrite IH. change (i :: remove_nth k waiting ++ todo)
      with ((i :: remove_nth k waiting) ++ todo)%list.
    now rewrite (remove_nth_perm waiting k i E).
Qed.

Lemma remove_nth_In {A} (l : list A) (k : nat) (x : A) :
  In x (remove_nth k l) -> In x l.
Proof.
  revert k. induction l as [|y l IH]; intros [|k]; simpl; auto.
  intros [H|H]; eauto.
Qed.

(** A job starts only for an icon that was waiting or has been submitted. *)
Lemma pool_run_job_after_submit (sched : list nat) (todo waiting : list Icon)
    (t1 t2 : list event) (i : Icon) :
  pool_run sched todo waiting = (t1 ++ EvJob i :: t2)%list ->
  In i waiting \/ In i (submitted t1).
Proof.
  revert todo waiting t1.
  induction sched as [|[|k] sched IH]; intros todo waiting t1; cbn [pool_run].
  - intros E.
    assert (Hq : Forall (fun x => is_start x = false)
                   (map EvSubmit todo)).
    { apply Forall_forall. intros x Hx.
      apply list_elem_of_In, in_map_iff in Hx. now destruct Hx as [y [<- _]]. }
    destruct (split_before (P := is_start) _ _ _ _ (EvJob i) Hq eq_refl E) as [t [-> Ht]].
    assert (Hin : In (EvJob i) (map EvJob (waiting ++ todo))).
    { rewrite Ht. apply in_elt. }
    apply in_map_iff in Hin. destruct Hin as [y [Hy Hin]]. injection Hy as ->.
    apply in_app_iff in Hin. destruct Hin as [Hin|Hin]; [now left|right].
    rewrite submitted_app, submitted_map_submit. apply in_app_iff. now left.
  - destruct todo as [|x todo]; [apply IH|].
    destruct t1 as [|y t1]; [discriminate|].
    intros E. injection E as <- E.
    destruct (IH _ _ _ E) as [Hin|Hin].
    + apply in_app_iff in Hin. destruct Hin as [Hin|[<-|[]]]; [now left|].
      right. now left.
    + right. cbn. now right.
  - destruct (nth_error waiting k) as [x|] eqn:En; [|apply IH].
    destruct t1 as [|y t1].
    + intros E. injection E as -> _. left. now apply nth_error_In in En.
    + intros E. injection E as <- E.
      destruct (IH _ _ _ E) as [Hin|Hin].
      * left. now apply remove_nth_In in Hin.
      * right. exact Hin.
Qed.

Lemma pool_run_no_join (sched : list nat) (todo waiting : list Icon) :
  ~ In EvJoin (pool_run sched todo waiting).
Proof.
  revert todo waiting.
  induction sched as [|[|k] sched IH]; intros todo waiting; cbn [pool_run].
  - rewrite in_app_iff, !in_map_iff. intros [[x [H _]]|[x [H _]]]; discriminate.
  - destruct todo; [apply IH|]. intros [H|H]; [discriminate|now apply IH in H].
  - destruct (nth_error waiting k); [|apply IH].
    intros [H|H]; [discriminate|now apply IH in H].
Qed.

(** Whatever the schedule of the pool, one job is submitted per icon, in
    the order of the list; the jobs that start are those of the icons, each
    once and each after its own submission; and [join] returns after all of
    them, without raising. *)
Theorem one_job_per_icon (w : World) (l : list Icon) :
  let tr := trace (run_pool w l) in
  submitted tr = l /\
  Permutation (started tr) l /\
  (forall t1 t2 i, tr = (t1 ++ EvJob i :: t2)%list -> In i (submitted t1)) /\
  (exists t, tr = (t ++ [EvJoin])%list /\ ~ In EvJoin t) /\
  snd (run_pool w l) = Ok tt.
Proof.
  cbn zeta. unfold run_pool. cbn [trace fst snd].
  rewrite submitted_app, started_app, submitted_pool_run.
  split; [now rewrite app_nil_r|].
  split; [cbn; rewrite app_nil_r; now rewrite started_pool_run|].
  split.
  - intros t1 t2 i E.
    assert (Hq : Forall (fun x => is_start x = false)
                   [EvJoin]) by (repeat constructor).
    destruct (split_after (P := is_start) _ _ _ _ (EvJob i) Hq eq_refl E) as [t [Ht _]].
    destruct (pool_run_job_after_submit _ _ _ _ _ _ Ht) as [[]|H]. exact H.
  - split; [|reflexivity]. eexists. split; [reflexivity|apply pool_run_no_join].
Qed.

(** ** Runs as a whole *)

Lemma bind_ret_l {A B} (a : A) (f : A -> Run B) : bind ([], Ok a) f = f a.
Proof. simpl. now destruct (f a). Qed.

Lemma main_cases (w : World) :
  (exists config,
      config_yml w = Some config /\ check_env w = false /\
      main w = after_verification w config) \/
  (check_env w = true /\ main w = ([EvPrint PrerequisitesMet], Exit 0)) \/
  (trace (main w) = trace (verify_environment w) /\
   (snd (main w) = Exit 1 \/ snd (main w) = Raise)).
Proof.
  rewrite main_phases.
  destruct (verify_environment_cases w) as [(config & Ev & Hc & Hk)|[(Ev & Hk)|H]].
  - left. exists config. rewrite Ev, bind_ret_l. auto.
  - right. left. now rewrite Ev.
  - right. right. rewrite trace_bind, result_bind.
    destruct H as [-> | ->]; rewrite app_nil_r; auto.
Qed.

Lemma after_verification_cases (w : World) (config : Config) :
  (snd (prepare w config) = Raise /\
   after_verification w config = (trace (prepare w config), Raise)) \/
  (snd (prepare w config) = Ok tt /\
   trace (after_verification w config)
   = (trace (prepare w config) ++ pool_run (schedule w) (discover w config) []
      ++ [EvJoin] ++ trace (finish w config))%list /\
   snd (after_verification w config) = snd (finish w config)).
Proof.
  unfold after_verification.
  destruct (ok_or_raise_prepare w config) as [H|H]; [right|left]; split; try exact H.
  - rewrite trace_bind, result_bind, H. rewrite trace_bind, result_bind.
    cbn [run_pool trace fst snd]. now rewrite <- app_assoc.
  - destruct (prepare w config) as [tr [[]| |]]; cbn in *; try discriminate.
    reflexivity.
Qed.

Lemma written_nil_Forall (tr : list event) :
  written tr = [] -> Forall (fun e => is_write e = false) tr.
Proof.
  induction tr as [|e tr IH]; [constructor|].
  change (e :: tr) with ([e] ++ tr)%list. rewrite written_app.
  destruct e; cbn; try discriminate; intros H; constructor; auto.
Qed.

Lemma quiet_Forall (tr : list event) :
  quiet tr -> Forall (fun e => is_start e = false) tr.
Proof.
  unfold quiet. induction 1 as [|e tr He _ IH]; constructor; [|exact IH].
  now destruct e.
Qed.

Lemma quiet_suffix (a b : list event) : quiet (a ++ b) -> quiet b.
Proof. unfold quiet. rewrite Forall_app. tauto. Qed.

Lemma pool_run_nothing (sched : list nat) : pool_run sched [] [] = [].
Proof.
  induction sched as [|[|k] sched IH]; cbn [pool_run]; [reflexivity|exact IH|].
  now destruct k.
Qed.

(** When a job starts, its icon is one of the discovered icons and has
    been submitted, and every directory that [worker] hands to the icon
    for its renderings is there. *)
Theorem jobs_find_their_directory (w : World) (tr1 tr2 : list event) (i : Icon) :
  trace (main w) = (tr1 ++ EvJob i :: tr2)%list ->
  In (EvSubmit i) tr1 /\
  (exists config, config_yml w = Some config /\ In i (discover w config)) /\
  (forall call dir, In call (worker i) -> call_dir call = Some dir ->
                    dir_exists tr1 dir = true).
Proof.
  intros Htr.
  destruct (main_cases w) as [(config & Hc & _ & Em)|[(_ & Em)|(Em & _)]].
  2: { rewrite Em in Htr. cbn in Htr. destruct tr1 as [|? [|? ?]]; discriminate. }
  2: { exfalso. rewrite Em in Htr.
       assert (Hq := quiet_verify_environment w). rewrite Htr in Hq.
       apply quiet_suffix in Hq. apply Forall_cons in Hq. now destruct Hq. }
  rewrite Em in Htr.
  destruct (after_verification_cases w config) as [(_ & Ea)|(Hp & Ea & _)].
  { exfalso. rewrite Ea in Htr.
    change (trace (prepare w config) = (tr1 ++ EvJob i :: tr2)%list) in Htr.
    assert (Hq := quiet_prepare w config). rewrite Htr in Hq.
    apply quiet_suffix in Hq. apply Forall_cons in Hq. now destruct Hq. }
  rewrite Ea in Htr.
  destruct (split_before (P := is_start) _ _ _ _ (EvJob i)
              (quiet_Forall _ (quiet_prepare w config)) eq_refl Htr) as [t [-> Ht]].
  assert (Hq : Forall (fun e => is_start e = false) ([EvJoin] ++ trace (finish w config))).
  { apply Forall_app. split; [repeat constructor|].
    apply quiet_Forall, quiet_finish. }
  destruct (split_after (P := is_start) _ _ _ _ (EvJob i) Hq eq_refl Ht) as [t' [Hpool _]].
  destruct (pool_run_job_after_submit _ _ _ _ _ _ Hpool) as [[]|Hsub].
  assert (Hi : In i (discover w config)).
  { rewrite <- (submitted_pool_run (schedule w) (discover w config) []), Hpool.
    rewrite submitted_app. apply in_app_iff. now left. }
  split; [apply in_app_iff; right; now apply submitted_In|].
  split; [now exists config|].
  intros call dir Hcall Hdir.
  assert (Ed : dir = dist_dir (category i)).
  { destruct Hcall as [<-|[<-|[<-|[<-|[]]]]]; cbn [call_dir] in Hdir;
      [discriminate|now injection Hdir..]. }
  subst dir. rewrite (prepare_Ok w config Hp). unfold dir_exists.
  rewrite <- !app_assoc. do 2 rewrite fold_left_app. apply (dir_exists_made _ true).
  - apply in_app_iff. left. apply in_map_iff. exists (category i).
    split; [reflexivity|]. apply category_names_In. eauto.
  - unfold keeps_dirs. apply Forall_app. split.
    + apply Forall_forall. intros x Hx.
      apply list_elem_of_In, in_map_iff in Hx. destruct Hx as [y [<- _]]. exact I.
    + apply (keeps_dirs_prefix t (EvJob i :: t')). rewrite <- Hpool.
      apply keeps_dirs_pool_run.
Qed.

Lemma jobs_find_their_directory_witness :
  In (EvSubmit icon_b) (sample_prefix ++ [EvSubmit icon_z; EvJob icon_z;
                                          EvSubmit icon_a; EvSubmit icon_b]) /\
  (exists config, config_yml sample_world = Some config /\
                  In icon_b (discover sample_world config)) /\
  (forall call dir, In call (worker icon_b) -> call_dir call = Some dir ->
     dir_exists (sample_prefix ++ [EvSubmit icon_z; EvJob icon_z;
                                   EvSubmit icon_a; EvSubmit icon_b]) dir = true).
Proof.
  apply (jobs_find_their_directory sample_world _
           (skipn 10 (trace (main sample_world))) icon_b).
  reflexivity.
Defined.

Lemma written_finish_prefix (w : World) (config : Config) :
  exists k,
    written (trace (finish w config))
    = firstn k (output_files (outputs_of (aggregate w (discover w config)))) /\
    (snd (finish w config) = Ok tt -> (k = 3)%nat) /\
    (snd (finish w config) = Raise -> (k < 3)%nat).
Proof.
  unfold finish. cbn zeta.
  generalize (outputs_of (aggregate w (discover w config))). intros o.
  rewrite trace_bind, result_bind. cbn [trace fst snd].
  rewrite written_app, written_map by reflexivity.
  cbn [app]. unfold write_outputs, perform, output_files.
  destruct (raises w (EvWrite "../GCPSymbols.md" (symbols_md o))); cbn.
  { exists 0%nat. split; [reflexivity|split; [discriminate|intros; lia]]. }
  destruct (raises w (EvWrite "../dist/gcp-icons-structurizr-theme.json" (theme_json o))); cbn.
  { exists 1%nat. split; [reflexivity|split; [discriminate|intros; lia]]. }
  destruct (raises w (EvWrite "../dist/gcp-icons-mermaid.json" (mermaid_json o))); cbn.
  { exists 2%nat. split; [reflexivity|split; [discriminate|intros; lia]]. }
  exists 3%nat. split; [reflexivity|split; [reflexivity|discriminate]].
Qed.

Lemma finish_Ok_last (w : World) (config : Config) :
  snd (finish w config) = Ok tt ->
  exists tr, trace (finish w config) = (tr ++ [EvPrint AllProcessed])%list.
Proof.
  unfold finish. cbn zeta.
  generalize (outputs_of (aggregate w (discover w config))). intros o.
  rewrite trace_bind, result_bind. cbn [trace fst snd].
  unfold write_outputs, perform.
  destruct (raises w (EvWrite "../GCPSymbols.md" (symbols_md o))); cbn; [discriminate|].
  destruct (raises w (EvWrite "../dist/gcp-icons-structurizr-theme.json" (theme_json o)));
    cbn; [discriminate|].
  destruct (raises w (EvWrite "../dist/gcp-icons-mermaid.json" (mermaid_json o)));
    cbn; [discriminate|].
  intros _.
  match goal with
  | |- exists tr, (?l ++ [?a; ?b; ?c; ?d])%list = _ =>
      exists (l ++ [a; b; c])%list; now rewrite <- app_assoc
  end.
Qed.

Lemma after_verification_outcome (w : World) (config : Config) :
  (snd (after_verification w config) = Ok tt /\
   (exists tr, trace (after_verification w config) = (tr ++ [EvPrint AllProcessed])%list) /\
   written (trace (after_verification w config))
   = output_files (outputs_of (aggregate w (discover w config)))) \/
  (snd (after_verification w config) = Raise /\
   exists k, (k < 3)%nat /\
     written (trace (after_verification w config))
     = firstn k (output_files (outputs_of (aggregate w (discover w config))))).
Proof.
  destruct (after_verification_cases w config) as [(_ & Ea)|(_ & Et & Es)].
  - right. rewrite Ea. split; [reflexivity|].
    exists 0%nat. split; [lia|]. apply written_prepare.
  - assert (Hw : written (trace (after_verification w config))
                 = written (trace (finish w config))).
    { rewrite Et, !written_app, written_prepare, written_pool_run. reflexivity. }
    destruct (written_finish_prefix w config) as (k & Ek & Hok & Hlt).
    rewrite Hw, Es, Ek.
    destruct (ok_or_raise_finish w config) as [Hf|Hf]; [left|right].
    + split; [exact Hf|]. split.
      * destruct (finish_Ok_last w config Hf) as [tr Htr].
        exists (trace (prepare w config) ++ pool_run (schedule w) (discover w config) []
                ++ [EvJoin] ++ tr)%list.
        rewrite Et, Htr. now rewrite <- !app_assoc.
      * now rewrite (Hok Hf).
    + split; [exact Hf|]. exists k. split; [now apply Hlt|reflexivity].
Qed.

(** The process ends with status 0 or 1.  It ends with 0 only in
    check-only mode, having printed one line and touched nothing, or
    after all three files were written and the closing line printed; with
    status 1 the files written are the first none, one or two of the three,
    in the order Markdown, theme, manifest. *)
Theorem exit_status_tells_what_was_written (w : World) :
  (exit_status (main w) = 0 \/ exit_status (main w) = 1) /\
  (exit_status (main w) = 0 ->
   (check_env w = true /\ main w = ([EvPrint PrerequisitesMet], Exit 0)) \/
   (check_env w = false /\
    exists config tr,
      config_yml w = Some config /\
      trace (main w) = (tr ++ [EvPrint AllProcessed])%list /\
      written (trace (main w))
      = output_files (outputs_of (aggregate w (discover w config))))) /\
  (exit_status (main w) = 1 ->
   written (trace (main w)) = [] \/
   exists config k,
     config_yml w = Some config /\ (k < 3)%nat /\
     written (trace (main w))
     = firstn k (output_files (outputs_of (aggregate w (discover w config))))).
Proof.
  destruct (main_cases w) as [(config & Hc & Hk & Em)|[(Hk & Em)|(Em & Hr)]].
  - rewrite Em. unfold exit_status.
    destruct (after_verification_outcome w config)
      as [(Hs & [tr Htr] & Hw)|(Hs & k & Hlt & Hw)]; rewrite Hs.
    + split; [now left|]. split; [|discriminate].
      intros _. right. split; [exact Hk|]. exists config, tr. auto.
    + split; [now right|]. split; [discriminate|].
      intros _. right. exists config, k. auto.
  - rewrite Em. unfold exit_status. cbn [snd].
    split; [now left|]. split; [|discriminate]. intros _. left. auto.
  - unfold exit_status. rewrite Em.
    assert (Hst : match snd (main w) with Ok _ => 0 | Exit c => c | Raise => 1 end = 1)
      by (destruct Hr as [-> | ->]; reflexivity).
    rewrite Hst. split; [now right|]. split; [discriminate|].
    intros _. left. apply written_verify_environment.
Qed.

Lemma exit_status_tells_what_was_written_witness :
  exit_status (main sample_world) = 0 /\
  exists config tr,
    config_yml sample_world = Some config /\
    trace (main sample_world) = (tr ++ [EvPrint AllProcessed])%list /\
    written (trace (main sample_world))
    = output_files (outputs_of (aggregate sample_world (discover sample_world config))).
Proof.
  split; [reflexivity|].
  destruct (proj1 (proj2 (exit_status_tells_what_was_written sample_world)) eq_refl)
    as [[H _]|[_ H]]; [discriminate H|exact H].
Defined.

Lemma written_has_no_write (tr tr1 tr2 : list event) (p c : string) :
  written tr = [] -> tr <> (tr1 ++ EvWrite p c :: tr2)%list.
Proof.
  intros Hw E. rewrite E, written_app in Hw.
  apply app_eq_nil in Hw. destruct Hw as [_ Hw]. discriminate Hw.
Qed.

Lemma In_firstn {A} (k : nat) (l : list A) (x : A) : In x (firstn k l) -> In x l.
Proof.
  intros H. rewrite <- (firstn_skipn k l). apply in_app_iff. now left.
Qed.

(** A file is written only after [join] has returned: by then every
    discovered icon has been submitted and its job has started, no job
    follows, and what is written is one of the three files of the
    aggregation. *)
Theorem outputs_follow_the_jobs (w : World) (tr1 tr2 : list event) (p c : string) :
  trace (main w) = (tr1 ++ EvWrite p c :: tr2)%list ->
  exists config,
    config_yml w = Some config /\
    In EvJoin tr1 /\
    (forall j, In j (discover w config) -> In (EvSubmit j) tr1 /\ In (EvJob j) tr1) /\
    quiet tr2 /\
    In (p, c) (output_files (outputs_of (aggregate w (discover w config)))).
Proof.
  intros Htr.
  destruct (main_cases w) as [(config & Hc & _ & Em)|[(_ & Em)|(Em & _)]].
  2: { rewrite Em in Htr. cbn in Htr. destruct tr1 as [|? [|? ?]]; discriminate. }
  2: { exfalso. rewrite Em in Htr.
       exact (written_has_no_write _ _ _ _ _ (written_verify_environment w) Htr). }
  rewrite Em in Htr. exists config. split; [exact Hc|].
  destruct (after_verification_cases w config) as [(_ & Ea)|(_ & Ea & _)].
  { exfalso. rewrite Ea in Htr.
    change (trace (prepare w config) = (tr1 ++ EvWrite p c :: tr2)%list) in Htr.
    exact (written_has_no_write _ _ _ _ _ (written_prepare w config) Htr). }
  rewrite Ea in Htr.
  set (pool := pool_run (schedule w) (discover w config) []) in *.
  assert (Hpre : Forall (fun e => is_write e = false)
                   (trace (prepare w config) ++ pool ++ [EvJoin])).
  { apply written_nil_Forall.
    rewrite !written_app, written_prepare. unfold pool. now rewrite written_pool_run. }
  assert (Htr' : ((trace (prepare w config) ++ pool ++ [EvJoin]) ++ trace (finish w config)
                  = tr1 ++ EvWrite p c :: tr2)%list).
  { rewrite <- Htr. now rewrite <- !app_assoc. }
  destruct (split_before (P := is_write) _ _ _ _ (EvWrite p c) Hpre eq_refl Htr')
    as [t [-> Ht]].
  split.
  { apply in_app_iff. left. apply in_app_iff. right. apply in_app_iff. right. now left. }
  split.
  { intros j Hj. split; apply in_app_iff; left; apply in_app_iff; right;
      apply in_app_iff; left.
    - apply submitted_In. unfold pool. now rewrite submitted_pool_run.
    - apply started_In. unfold pool.
      rewrite <- list_elem_of_In, (started_pool_run _ _ _), list_elem_of_In. exact Hj. }
  split.
  { apply (quiet_suffix (t ++ [EvWrite p c])). rewrite <- app_assoc. cbn [app].
    rewrite <- Ht. apply quiet_finish. }
  destruct (written_finish_prefix w config) as (k & Ek & _).
  apply (In_firstn k). rewrite <- Ek, Ht, written_app.
  apply in_app_iff. right. now left.
Qed.

Lemma outputs_follow_the_jobs_witness :
  exists config,
    config_yml sample_world = Some config /\
    In EvJoin (firstn 13 (trace (main sample_world))) /\
    (forall j, In j (discover sample_world config) ->
       In (EvSubmit j) (firstn 13 (trace (main sample_world))) /\
       In (EvJob j) (firstn 13 (trace (main sample_world)))) /\
    quiet (skipn 14 (trace (main sample_world))) /\
    In ("../GCPSymbols.md",
        symbols_md (outputs_of (aggregate sample_world
                                  (discover sample_world sample_config))))
       (output_files (outputs_of (aggregate sample_world (discover sample_world config)))).
Proof.
  apply (outputs_follow_the_jobs sample_world _ _ "../GCPSymbols.md").
  reflexivity.
Defined.

(** ** A source tree without icons *)

Lemma discover_nothing (w : World) (config : Config) :
  glob_png w = [] -> discover w config = [].
Proof. intros H. unfold discover, build_file_list. now rewrite H. Qed.

(** When no image is found the run makes no category directory, submits
    no job, and aggregates to the initial state: the index is its heading,
    the theme has no element and the manifest no icon, with total 0; these
    are the files a run that reaches its end writes. *)
Theorem empty_tree_gives_empty_outputs (w : World) (config : Config) :
  glob_png w = [] ->
  aggregate w (discover w config) = initial /\
  make_category_dirs w (discover w config) = ret tt /\
  trace (run_pool w (discover w config)) = [EvJoin] /\
  quiet (trace (main w)) /\
  (snd (main w) = Ok tt ->
   written (trace (main w)) = output_files (outputs_of initial)).
Proof.
  intros Hglob. rewrite (discover_nothing w config Hglob).
  split; [reflexivity|]. split; [reflexivity|].
  split; [cbn; now rewrite pool_run_nothing|].
  split.
  - destruct (main_cases w) as [(config' & _ & _ & Em)|[(_ & Em)|(Em & _)]].
    + rewrite Em.
      destruct (after_verification_cases w config') as [(_ & Ea)|(_ & Ea & _)];
        rewrite Ea; [apply quiet_prepare|].
      rewrite (discover_nothing w config' Hglob), pool_run_nothing.
      unfold quiet. rewrite !Forall_app.
      split; [apply quiet_prepare|]. split; [constructor|].
      split; [repeat constructor|apply quiet_finish].
    + rewrite Em. repeat constructor.
    + rewrite Em. apply quiet_verify_environment.
  - intros Hok. destruct (main_written w Hok) as (config' & _ & ->).
    now rewrite (discover_nothing w config' Hglob).
Qed.

Lemma empty_tree_gives_empty_outputs_witness :
  aggregate empty_world (discover empty_world sample_config) = initial /\
  make_category_dirs empty_world (discover empty_world sample_config) = ret tt /\
  trace (run_pool empty_world (discover empty_world sample_config)) = [EvJoin] /\
  quiet (trace (main empty_world)) /\
  (snd (main empty_world) = Ok tt ->
   written (trace (main empty_world)) = output_files (outputs_of initial)).
Proof.
  apply (empty_tree_gives_empty_outputs empty_world sample_config). reflexivity.
Defined.

(** ** The name of the vector sibling (line 177) *)

Lemma eqb_length_neq (s t : string) :
  String.length s <> String.length t -> String.eqb s t = false.
Proof. intros H. apply String.eqb_neq. intros ->. now apply H. Qed.

Lemma sub_png_svg_stem (stem : string) :
  sub_png_svg (stem ++ ".png") = (stem ++ ".svg")%string.
Proof.
  induction stem as [|c stem IH]; [reflexivity|].
  change (String c stem ++ ".png")%string with (String c (stem ++ ".png")).
  cbn [sub_png_svg].
  rewrite (eqb_length_neq (String c (stem ++ ".png")) ".png")
    by (cbn; rewrite slength_app; cbn; lia).
  destruct (String.eqb (String c (stem ++ ".png")) (".png" ++ newline)) eqn:E.
  - apply String.eqb_eq in E. exfalso.
    assert (Hl : String.length (String c (stem ++ ".png")) = 5%nat) by now rewrite E.
    cbn in Hl. rewrite slength_app in Hl. cbn in Hl.
    destruct stem; [discriminate E|cbn in Hl; lia].
  - now rewrite IH.
Qed.

Lemma sub_png_svg_stem_newline (stem : string) :
  sub_png_svg (stem ++ ".png" ++ newline) = (stem ++ ".svg" ++ newline)%string.
Proof.
  induction stem as [|c stem IH]; [reflexivity|].
  change (String c stem ++ ".png" ++ newline)%string
    with (String c (stem ++ ".png" ++ newline)).
  cbn [sub_png_svg].
  rewrite (eqb_length_neq (String c (stem ++ ".png" ++ newline)) ".png")
    by (cbn; rewrite slength_app; cbn; lia).
  rewrite (eqb_length_neq (String c (stem ++ ".png" ++ newline)) (".png" ++ newline))
    by (cbn; rewrite slength_app; cbn; lia).
  now rewrite IH.
Qed.

Lemma sub_png_svg_other (s : string) :
  endswith ".png" s = false -> endswith (".png" ++ newline) s = false ->
  sub_png_svg s = s.
Proof.
  induction s as [|c s IH]; [reflexivity|].
  cbn [endswith]. rewrite !orb_false_iff. intros [E1 H1] [E2 H2].
  cbn [sub_png_svg]. rewrite E1, E2. now rewrite IH.
Qed.

(** The vector sibling of [stem.png] is [stem.svg]: only the last
    extension is replaced.  Because [$] also matches before a final
    newline, [stem.png] followed by a newline becomes [stem.svg] followed
    by it; every other name is its own sibling. *)
Theorem sibling_replaces_last_extension (stem : string) :
  sub_png_svg (stem ++ ".png") = (stem ++ ".svg")%string /\
  sub_png_svg (stem ++ ".png" ++ newline) = (stem ++ ".svg" ++ newline)%string /\
  (endswith ".png" stem = false -> endswith (".png" ++ newline) stem = false ->
   sub_png_svg stem = stem) /\
  String.length (sub_png_svg stem) = String.length stem.
Proof.
  split; [apply sub_png_svg_stem|]. split; [apply sub_png_svg_stem_newline|].
  split; [apply sub_png_svg_other|apply sub_png_svg_length].
Qed.

(** ** The working directory check (line 37) *)

Lemma split_on_cons (sep : ascii) (s : string) :
  exists w ws, split_on sep s = w :: ws.
Proof.
  induction s as [|c s [w [ws IH]]]; cbn [split_on]; [eauto|].
  destruct (Ascii.eqb c sep); [eauto|]. rewrite IH. eauto.
Qed.

Lemma join_sep_cons (sep x y : string) (l : list string) :
  join_sep sep (x :: y :: l) = (x ++ sep ++ join_sep sep (y :: l))%string.
Proof. reflexivity. Qed.

(** Splitting at a separator and joining with it gives the string back. *)
Lemma join_split (sep : ascii) (s : string) :
  join_sep (String sep "") (split_on sep s) = s.
Proof.
  induction s as [|c s IH]; [reflexivity|].
  cbn [split_on]. destruct (split_on_cons sep s) as [w [ws E]].
  rewrite E in *. destruct (Ascii.eqb c sep) eqn:Ec.
  - apply Ascii.eqb_eq in Ec. subst c. rewrite join_sep_cons, IH. reflexivity.
  - destruct ws as [|w' ws]; rewrite <- IH; reflexivity.
Qed.

Lemma split_on_app (sep : ascii) (p q : string) :
  split_on sep (p ++ String sep q) = (split_on sep p ++ split_on sep q)%list.
Proof.
  induction p as [|c p IH].
  - cbn. now rewrite Ascii.eqb_refl.
  - change (String c p ++ String sep q)%string with (String c (p ++ String sep q)).
    cbn [split_on]. rewrite IH.
    destruct (Ascii.eqb c sep); [reflexivity|].
    destruct (split_on_cons sep p) as [w [ws E]]. now rewrite E.
Qed.

Lemma join_sep_app (sep : string) (l1 l2 : list string) :
  l1 <> [] -> l2 <> [] ->
  join_sep sep (l1 ++ l2) = (join_sep sep l1 ++ sep ++ join_sep sep l2)%string.
Proof.
  intros H1 H2. induction l1 as [|x l1 IH]; [contradiction|].
  destruct l1 as [|y l1].
  - destruct l2 as [|z l2]; [contradiction|]. reflexivity.
  - change ((x :: y :: l1) ++ l2)%list with (x :: y :: (l1 ++ l2))%list.
    rewrite !join_sep_cons.
    change (y :: (l1 ++ l2))%list with ((y :: l1) ++ l2)%list.
    rewrite IH by discriminate. now rewrite !sapp_assoc.
Qed.

(** Verification accepts the working directory exactly when the last two
    parts of its path are [gcp-icons-for-plantuml] and [scripts]: the path
    is these two, or ends in a slash followed by them.  Nothing may follow,
    not even a slash. *)
Theorem cwd_check_reads_last_two_parts (w : World) :
  cwd_ok w = true <->
  cwd w = "gcp-icons-for-plantuml/scripts" \/
  exists parent, cwd w = (parent ++ "/gcp-icons-for-plantuml/scripts")%string.
Proof.
  unfold cwd_ok. split.
  - intros H.
    set (parts := split_on "/" (cwd w)) in *.
    assert (Ej : join_sep "/" parts = cwd w) by apply join_split.
    assert (Ep : parts = (firstn (length parts - 2) parts
                          ++ skipn (length parts - 2) parts)%list)
      by (symmetry; apply firstn_skipn).
    destruct (skipn (length parts - 2) parts) as [|a [|b [|? ?]]]; try discriminate.
    apply andb_true_iff in H. destruct H as [Ha Hb].
    apply String.eqb_eq in Ha, Hb. subst a b.
    destruct (firstn (length parts - 2) parts) as [|x pre].
    + left. rewrite <- Ej, Ep. reflexivity.
    + right. exists (join_sep "/" (x :: pre)).
      rewrite <- Ej, Ep. rewrite join_sep_app by discriminate. reflexivity.
  - intros [E|[parent E]]; rewrite E; [reflexivity|].
    change (parent ++ "/gcp-icons-for-plantuml/scripts")%string
      with (parent ++ String "/" "gcp-icons-for-plantuml/scripts")%string.
    rewrite split_on_app.
    change (split_on "/" "gcp-icons-for-plantuml/scripts")
      with ["gcp-icons-for-plantuml"; "scripts"].
    rewrite length_app. cbn [length].
    replace (length (split_on "/" parent) + 2 - 2)%nat
      with (length (split_on "/" parent) + 0)%nat by lia.
    rewrite skipn_app, skipn_all2 by lia.
    replace (length (split_on "/" parent) + 0 - length (split_on "/" parent))%nat
      with 0%nat by lia.
    reflexivity.
Qed.

(** ** What the declaration pattern deletes (line 99) *)

Lemma match_xmlns_found (c : ascii) (a b x : string) :
  is_space c = true -> no_quote a = true -> no_quote b = true ->
  match_xmlns (String c ("xmlns" ++ a ++ String dq (b ++ String dq x)))
  = Some (S (String.length ("xmlns" ++ a ++ String dq (b ++ String dq "")))).
Proof.
  intros Hc Ha Hb. unfold match_xmlns. rewrite Hc.
  change (startswith "xmlns" ("xmlns" ++ a ++ String dq (b ++ String dq x))) with true.
  cbn [andb].
  change (sdrop 5 ("xmlns" ++ a ++ String dq (b ++ String dq x)))
    with (a ++ String dq (b ++ String dq x))%string.
  rewrite (to_quote_app a _ Ha).
  change (S (String.length a)) with (String.length (String dq a)).
  assert (Ed : sdrop (String.length (String dq a)) (a ++ String dq (b ++ String dq x))
               = (b ++ String dq x)%string).
  { replace (a ++ String dq (b ++ String dq x))%string
      with ((a ++ String dq "") ++ (b ++ String dq x))%string
      by (now rewrite sapp_assoc).
    replace (String.length (String dq a)) with (String.length (a ++ String dq ""))
      by (rewrite slength_app; cbn; lia).
    apply sdrop_app. }
  rewrite Ed, (to_quote_app b x Hb). f_equal.
  cbn. rewrite !slength_app. cbn. rewrite slength_app. cbn. lia.
Qed.

(** Where the scan meets white space followed by [xmlns], everything up
    to the second double quote that follows is deleted, whether it is a
    declaration in a start tag or character data that looks like one; the
    text before it, in which no white space is followed by [xmlns], is kept
    as it is. *)
Theorem pattern_deletes_up_to_second_quote (s a b x : string) (c : ascii) :
  no_xmlns_after_space s = true -> is_space c = true ->
  no_quote a = true -> no_quote b = true ->
  sub_xmlns (s ++ String c ("xmlns" ++ a ++ String dq (b ++ String dq x)))
  = (s ++ sub_xmlns x)%string.
Proof.
  intros Hs Hc Ha Hb. unfold sub_xmlns, no_xmlns_after_space in *.
  rewrite <- (clear_before_other s ("xmlns" ++ a ++ String dq (b ++ String dq x)) c
                (space_not_in_xmlns c Hc)) in Hs.
  rewrite (sub_xmlns_clear s _ Hs). f_equal.
  cbn [sub_xmlns_from]. rewrite (match_xmlns_found c a b x Hc Ha Hb).
  replace ("xmlns" ++ a ++ String dq (b ++ String dq x))%string
    with (("xmlns" ++ a ++ String dq (b ++ String dq "")) ++ x)%string.
  - rewrite <- (Nat.add_0_r (String.length _)). apply sub_xmlns_skip.
  - cbn. f_equal. f_equal. f_equal. f_equal. f_equal.
    rewrite sapp_assoc. cbn. f_equal. f_equal. rewrite sapp_assoc. reflexivity.
Qed.

Lemma pattern_deletes_up_to_second_quote_witness :
  sub_xmlns ("<text>see" ++ String " " ("xmlns" ++ " for " ++ String dq
               ("details" ++ String dq "</text>")))
  = ("<text>see" ++ sub_xmlns "</text>")%string.
Proof.
  apply (pattern_deletes_up_to_second_quote "<text>see" " for " "details" "</text>" " ");
    reflexivity.
Defined.

(** ** The output directory is fresh (lines 67-76, 143-157) *)

Lemma keeps_dirs_bind {A B} (m : Run A) (f : A -> Run B) :
  keeps_dirs (trace m) -> (forall a, keeps_dirs (trace (f a))) ->
  keeps_dirs (trace (bind m f)).
Proof.
  intros Hm Hf. rewrite trace_bind. unfold keeps_dirs. apply Forall_app. split; [exact Hm|].
  destruct (snd m); [apply Hf|constructor|constructor].
Qed.

Lemma keeps_dirs_for_each (w : World) {A} (g : A -> event) (l : list A) :
  (forall x, match g x with EvRmtree _ => False | _ => True end) ->
  keeps_dirs (trace (for_each l (fun x => perform w (g x)))).
Proof.
  intros Hg. destruct (for_each_perform w g l) as [k [-> _]].
  unfold keeps_dirs. apply Forall_forall. intros e He.
  apply list_elem_of_In, in_map_iff in He. destruct He as [x [<- _]]. apply Hg.
Qed.

Lemma keeps_dirs_after_clean (w : World) (config : Config) :
  keeps_dirs (trace (copy_puml w ;;; make_category_dirs w (discover w config) ;;;
                     run_pool w (discover w config) ;;; finish w config)).
Proof.
  apply keeps_dirs_bind; [apply keeps_dirs_for_each; intros x; exact I|]. intros _.
  apply keeps_dirs_bind; [apply keeps_dirs_for_each; intros x; exact I|]. intros _.
  apply keeps_dirs_bind; [|intros _; apply keeps_dirs_finish].
  cbn [run_pool trace fst]. unfold keeps_dirs. apply Forall_app. split.
  - apply keeps_dirs_pool_run.
  - repeat constructor.
Qed.

Lemma clean_dist_cases (w : World) :
  (exists present,
      path_exists w "../dist" = Some present /\
      clean_dist w
      = (((if present then [EvRmtree "../dist"] else []) ++ [EvMkdir "../dist" false])%list,
         Ok tt)) \/
  (snd (clean_dist w) = Raise /\
   Forall (fun x => uses_dist x = false) (trace (clean_dist w))).
Proof.
  unfold clean_dist, exists_, perform.
  destruct (path_exists w "../dist") as [[|]|]; cbn;
    repeat (match goal with |- context [raises w ?e] => destruct (raises w e) end; cbn);
    try (right; split; [reflexivity|repeat constructor]).
  - left. exists true. auto.
  - left. exists false. auto.
Qed.

Lemma verify_environment_uses_nothing (w : World) :
  Forall (fun x => uses_dist x = false) (trace (verify_environment w)).
Proof.
  unfold verify_environment, exists_.
  destruct (cwd_ok w); cbn [negb]; [|repeat constructor].
  destruct (config_yml w) as [config|]; [|repeat constructor].
  destruct (path_exists w "../source/GCPCommon.puml") as [[|]|]; cbn; try (repeat constructor).
  destruct (path_exists w "../source/official") as [[|]|]; cbn; try (repeat constructor).
  destruct (plantuml_version w); [|repeat constructor].
  destruct (check_env w); repeat constructor.
Qed.

Lemma after_verification_from_clean (w : World) (config : Config) :
  after_verification w config
  = (clean_dist w ;;; copy_puml w ;;; make_category_dirs w (discover w config) ;;;
     run_pool w (discover w config) ;;; finish w config).
Proof. unfold after_verification, prepare. apply seq_assoc3. Qed.

Lemma uses_dist_absent (tr tr1 tr2 : list event) (e : event) :
  Forall (fun x => uses_dist x = false) tr -> uses_dist e = true ->
  tr <> (tr1 ++ e :: tr2)%list.
Proof.
  intros Hf He ->. rewrite Forall_forall in Hf.
  assert (Hin : In e (tr1 ++ e :: tr2)) by apply in_elt.
  apply list_elem_of_In, Hf in Hin. congruence.
Qed.

(** Whenever the run copies a file into the output directory, makes a
    category directory, hands a job to the pool, starts one or writes an
    output file, [clean_dist] has been run to its end before: the events so
    far are the removal of [../dist] if it was there, then the [mkdir] of
    [../dist] that does not tolerate an existing directory, then events that
    remove no directory.  So nothing of an earlier run is left in the output
    directory and the directory is there when it is used. *)
Theorem dist_is_fresh_before_use (w : World) (tr1 tr2 : list event) (e : event) :
  trace (main w) = (tr1 ++ e :: tr2)%list ->
  uses_dist e = true ->
  exists present t,
    path_exists w "../dist" = Some present /\
    tr1 = ((if present then [EvRmtree "../dist"] else [])
           ++ EvMkdir "../dist" false :: t)%list /\
    keeps_dirs t /\
    dir_exists tr1 "../dist" = true.
Proof.
  intros Htr He.
  destruct (main_cases w) as [(config & _ & _ & Em)|[(_ & Em)|(Em & _)]].
  - rewrite Em, after_verification_from_clean, trace_bind in Htr.
    pose proof (keeps_dirs_after_clean w config) as Hk.
    destruct (clean_dist_cases w) as [(present & Hp & Ec)|(Er & Hq)].
    + rewrite Ec in Htr. cbn [trace fst snd] in Htr.
      assert (Hq : Forall (fun x => uses_dist x = false)
                     ((if present then [EvRmtree "../dist"] else [])
                      ++ [EvMkdir "../dist" false])%list)
        by (destruct present; repeat constructor).
      destruct (split_before (P := uses_dist) _ _ _ _ e Hq He Htr) as [t [E1 E2]].
      exists present, t. rewrite E2 in Hk. apply keeps_dirs_prefix in Hk.
      rewrite E1, <- app_assoc. cbn [app]. repeat split; try assumption.
      unfold dir_exists. rewrite fold_left_app. cbn [fold_left dir_step].
      rewrite String.eqb_refl, orb_true_r. now apply dir_exists_stays.
    + rewrite Er, app_nil_r in Htr. exfalso. exact (uses_dist_absent _ _ _ _ Hq He Htr).
  - rewrite Em in Htr. exfalso. cbn [trace fst] in Htr.
    refine (uses_dist_absent _ _ _ _ _ He Htr). repeat constructor.
  - rewrite Em in Htr. exfalso.
    exact (uses_dist_absent _ _ _ _ (verify_environment_uses_nothing w) He Htr).
Qed.

Lemma dist_is_fresh_before_use_witness :
  exists present t,
    path_exists sample_world "../dist" = Some present /\
    firstn 13 (trace (main sample_world))
    = ((if present then [EvRmtree "../dist"] else [])
       ++ EvMkdir "../dist" false :: t)%list /\
    keeps_dirs t /\
    dir_exists (firstn 13 (trace (main sample_world))) "../dist" = true.
Proof.
  apply (dist_is_fresh_before_use sample_world _
           (skipn 14 (trace (main sample_world)))
           (nth 13 (trace (main sample_world)) EvJoin)).
  - reflexivity.
  - reflexivity.
Defined.

(** ** The raster body (line 107) *)

Lemma byte_of_to_N (a : byte) : byte_of (Byte.to_N a) = a.
Proof. unfold byte_of. now rewrite Byte.of_to_N. Qed.

Lemma all_bytes_complete (a : byte) : In a all_bytes.
Proof.
  unfold all_bytes. rewrite <- (byte_of_to_N a). apply in_map.
  rewrite <- (N2Nat.id (Byte.to_N a)). apply in_map. apply in_seq.
  pose proof (Byte.to_N_bounded a). lia.
Qed.

Lemma for_all_bytes (P : byte -> byte -> bool) :
  forallb (fun a => forallb (P a) all_bytes) all_bytes = true ->
  forall a b, P a b = true.
Proof.
  intros H a b. rewrite forallb_forall in H.
  specialize (H a (all_bytes_complete a)). rewrite forallb_forall in H.
  apply H, all_bytes_complete.
Qed.

Lemma b64_index_char (n : N) :
  (n < 64)%N -> b64_index (b64_char n) = Some n.
Proof.
  intros H. rewrite <- (N2Nat.id n).
  assert (Hk : (N.to_nat n < 64)%nat) by lia.
  generalize dependent (N.to_nat n). clear. intros k Hk.
  do 64 (destruct k as [|k]; [reflexivity|]). lia.
Qed.

Lemma head_ok_all (a b : byte) : head_ok a b = true.
Proof. revert a b. apply for_all_bytes. vm_compute. reflexivity. Qed.

Lemma tail_ok_all (b c : byte) : tail_ok b c = true.
Proof. revert b c. apply for_all_bytes. vm_compute. reflexivity. Qed.

Lemma by_threes {A} (P : list A -> Prop) :
  P [] -> (forall a, P [a]) -> (forall a b, P [a; b]) ->
  (forall a b c rest, P rest -> P (a :: b :: c :: rest)) ->
  forall l, P l.
Proof.
  intros H0 H1 H2 H3 l.
  assert (H : P l /\ (forall a, P (a :: l)) /\ (forall a b, P (a :: b :: l))).
  { induction l as [|x l (IH0 & IH1 & IH2)]; [auto|].
    repeat split; auto. }
  apply H.
Qed.

Lemma b64decode_b64encode (data : list byte) :
  b64decode (b64encode data) = Some data.
Proof.
  induction data as [|a|a b|a b c rest IH] using by_threes.
  - reflexivity.
  - pose proof (head_ok_all a a) as H. unfold head_ok in H. cbn zeta in H.
    repeat (apply andb_prop in H; destruct H as [H ?]).
    repeat match goal with
           | H : (_ <? _)%N = true |- _ => apply N.ltb_lt in H
           | H : (_ =? _)%N = true |- _ => apply N.eqb_eq in H
           end.
    cbn [b64encode]. cbn zeta. cbn [b64decode].
    rewrite !b64_index_char by assumption.
    change (b64_index "=") with (@None N). cbn [Ascii.eqb].
    cbv [is_pad]. cbn [Ascii.eqb String.eqb Bool.eqb andb].
    match goal with H : _ = Byte.to_N a |- _ => rewrite H end.
    now rewrite byte_of_to_N.
  - pose proof (head_ok_all a b) as H. unfold head_ok in H. cbn zeta in H.
    pose proof (tail_ok_all b b) as H'. unfold tail_ok in H'. cbn zeta in H'.
    repeat (apply andb_prop in H; destruct H as [H ?]).
    repeat (apply andb_prop in H'; destruct H' as [H' ?]).
    repeat match goal with
           | H : (_ <? _)%N = true |- _ => apply N.ltb_lt in H
           | H : (_ =? _)%N = true |- _ => apply N.eqb_eq in H
           end.
    cbn [b64encode]. cbn zeta. cbn [b64decode].
    rewrite !b64_index_char by assumption.
    change (b64_index "=") with (@None N).
    cbv [is_pad]. cbn [Ascii.eqb String.eqb Bool.eqb andb].
    repeat match goal with H : (_ mod 16 = _)%N |- _ => rewrite H end.
    repeat match goal with H : _ = Byte.to_N _ |- _ => rewrite H end.
    now rewrite !byte_of_to_N.
  - pose proof (head_ok_all a b) as H. unfold head_ok in H. cbn zeta in H.
    pose proof (tail_ok_all b c) as H'. unfold tail_ok in H'. cbn zeta in H'.
    repeat (apply andb_prop in H; destruct H as [H ?]).
    repeat (apply andb_prop in H'; destruct H' as [H' ?]).
    repeat match goal with
           | H : (_ <? _)%N = true |- _ => apply N.ltb_lt in H
           | H : (_ =? _)%N = true |- _ => apply N.eqb_eq in H
           end.
    cbn [b64encode]. cbn zeta. cbn [b64decode].
    rewrite !b64_index_char by assumption. fold b64decode. rewrite IH.
    repeat match goal with H : (_ mod 16 = _)%N |- _ => rewrite H end.
    repeat match goal with H : _ = Byte.to_N _ |- _ => rewrite H end.
    now rewrite !byte_of_to_N.
Qed.

Lemma b64encode_length (data : list byte) :
  String.length (b64encode data) = (4 * ((length data + 2) / 3))%nat.
Proof.
  induction data as [|a|a b|a b c rest IH] using by_threes; try reflexivity.
  cbn [b64encode]. cbn zeta. cbn [String.length length]. rewrite IH.
  replace (S (S (S (length rest))) + 2)%nat with ((length rest + 2) + 1 * 3)%nat by lia.
  rewrite Nat.div_add by lia. lia.
Qed.

(** The body of a raster icon is the fixed prefix followed by a payload
    from which the bytes of the file are read back, of four characters per
    three bytes begun; so two files get the same body only when they hold
    the same bytes. *)
Theorem raster_body_keeps_the_bytes (w : World) (file : string) (data : list byte) :
  read_bytes w file = Some data ->
  exists payload,
    option_map body (embed_png w file) = Some ("data:image/png;base64," ++ payload)%string /\
    b64decode payload = Some data /\
    String.length payload = (4 * ((length data + 2) / 3))%nat /\
    forall file',
      option_map body (embed_png w file') = option_map body (embed_png w file) ->
      read_bytes w file' = Some data.
Proof.
  intros Hr. exists (b64encode data). unfold embed_png. rewrite Hr. cbn [option_map body].
  repeat split.
  - apply b64decode_b64encode.
  - apply b64encode_length.
  - intros file'. destruct (read_bytes w file') as [data'|]; cbn [option_map body];
      [|discriminate].
    intros H. injection H as H.
    pose proof (b64decode_b64encode data') as E. rewrite H, b64decode_b64encode in E.
    now injection E as ->.
Qed.

Lemma raster_body_keeps_the_bytes_witness :
  exists payload,
    option_map body (embed_png malformed_world "Man.png")
    = Some ("data:image/png;base64," ++ payload)%string /\
    b64decode payload = Some [x4d; x61; x6e] /\
    String.length payload = (4 * ((length [x4d; x61; x6e] + 2) / 3))%nat /\
    forall file',
      option_map body (embed_png malformed_world file')
      = option_map body (embed_png malformed_world "Man.png") ->
      read_bytes malformed_world file' = Some [x4d; x61; x6e].
Proof.
  apply (raster_body_keeps_the_bytes malformed_world "Man.png"). reflexivity.
Defined.

(** ** The size attributes (lines 91-92) *)

Lemma chars_app (a b : string) : chars (a ++ b) = (chars a ++ chars b)%list.
Proof. induction a as [|x a IH]; simpl; congruence. Qed.

Lemma of_chars_app (a b : list ascii) :
  of_chars (a ++ b) = (of_chars a ++ of_chars b)%string.
Proof. induction a as [|x a IH]; simpl; congruence. Qed.

Lemma chars_of_chars (l : list ascii) : chars (of_chars l) = l.
Proof. induction l; simpl; congruence. Qed.



Lemma rstrip_keep (p : ascii -> bool) (s : string) (c : ascii) :
  p c = false -> rstrip p (s ++ String c "") = (s ++ String c "")%string.
Proof.
  intros H. unfold rstrip. rewrite chars_app, rev_app_distr. cbn [chars rev app of_chars lstrip].
  rewrite H. cbn [chars rev]. rewrite chars_of_chars, rev_involutive, of_chars_app.
  cbn [of_chars]. now rewrite of_chars_chars.
Qed.

Lemma lstrip_keep_last (p : ascii -> bool) (v : string) (c : ascii) :
  p c = false -> exists v', lstrip p (v ++ String c "") = (v' ++ String c "")%string.
Proof.
  intros H. induction v as [|a v IH]; cbn.
  - rewrite H. now exists ""%string.
  - destruct (p a); [exact IH|]. now exists (String a v).
Qed.

Lemma strip_keep_last (p : ascii -> bool) (v : string) (c : ascii) :
  p c = false -> exists v', strip p (v ++ String c "") = (v' ++ String c "")%string.
Proof.
  intros H. unfold strip. destruct (lstrip_keep_last p v c H) as [v' ->].
  exists v'. now apply rstrip_keep.
Qed.















Lemma int_digits_bad (c : ascii) (s rest : string) (acc : Z) (us : bool) :
  is_digit c = false -> Ascii.eqb c "_" = false ->
  int_digits acc us (s ++ String c rest) = None.
Proof.
  intros Hd Hu. revert acc us. induction s as [|a s IH]; intros acc us; cbn [append int_digits].
  - now rewrite Hd, Hu.
  - destruct (is_digit a); [apply IH|]. destruct (Ascii.eqb a "_"); [|reflexivity].
    destruct us; [reflexivity|apply IH].
Qed.

Lemma int_unsigned_bad (c : ascii) (s : string) :
  is_digit c = false -> Ascii.eqb c "_" = false ->
  int_unsigned (s ++ String c "") = None.
Proof.
  intros Hd Hu. destruct s as [|a s]; cbn [append int_unsigned].
  - now rewrite Hd.
  - destruct (is_digit a); [|reflexivity]. now apply int_digits_bad.
Qed.

Lemma py_int_bad (c : ascii) (v : string) :
  is_digit c = false -> Ascii.eqb c "_" = false -> is_space c = false ->
  py_int (v ++ String c "") = None.
Proof.
  intros Hd Hu Hs. unfold py_int.
  destruct (strip_keep_last is_space v c Hs) as [v' ->].
  pose proof (int_unsigned_bad c v' Hd Hu) as H1.
  assert (H2 : forall a s', (v' ++ String c "")%string = String a s' ->
                            int_unsigned s' = None).
  { intros a s' E. destruct v' as [|b v']; cbn [append] in E; injection E as _ <-.
    - reflexivity.
    - now apply int_unsigned_bad. }
  destruct (v' ++ String c "")%string as [|a s']; [exact H1|].
  specialize (H2 a s' eq_refl).
  destruct a as [[] [] [] [] [] [] [] []]; try exact H1; rewrite H2; reflexivity.
Qed.

Lemma dimension_bad (root : node) (name : string) :
  node_get root name = None \/
  (exists v c, node_get root name = Some (v ++ String c "")%string /\
               ends_no_number c = true) ->
  dimension root name = None.
Proof.
  unfold dimension. intros [->|(v & c & -> & Hc)]; [reflexivity|].
  unfold ends_no_number in Hc. apply negb_true_iff in Hc.
  repeat (apply orb_false_elim in Hc; destruct Hc as [Hc ?]).
  unfold strip_px.
  destruct (strip_keep_last (fun c => Ascii.eqb c "p" || Ascii.eqb c "x") v c) as [v' ->].
  - apply orb_false_intro; assumption.
  - now apply py_int_bad.
Qed.

(** A vector file whose root has no [width] or no [height] attribute, or
    one that ends in a character other than a digit, white space, [p], [x]
    or an underscore (a percentage, [em], [pt]), is not embedded: reading
    the size raises, the [try] block gives up, and [build_mermaid_icon]
    prints the error and returns with the manifest as it was. *)
Theorem unreadable_size_is_not_embedded (w : World) (file name : string) (root : node) :
  etree_parse w file = Some root ->
  name = "width"%string \/ name = "height"%string ->
  node_get root name = None \/
  (exists v c, node_get root name = Some (v ++ String c "")%string /\
               ends_no_number c = true) ->
  embed_svg w file = None /\
  forall (m : Mermaid) (cat tgt : string),
    is_existing w ".svg" file = Some true ->
    build_mermaid_icon w m file cat tgt = Some (m, [ErrorParsingSvg file]).
Proof.
  intros Hp Hn Hbad. apply dimension_bad in Hbad.
  assert (He : embed_svg w file = None).
  { unfold embed_svg. rewrite Hp.
    destruct Hn as [-> | ->]; rewrite Hbad; [reflexivity|].
    now destruct (dimension root "width"). }
  split; [exact He|].
  intros m cat tgt Hex. unfold build_mermaid_icon. now rewrite Hex, He.
Qed.

Lemma unreadable_size_is_not_embedded_witness :
  embed_svg percent_world "../source/official/AI/z.svg" = None /\
  forall (m : Mermaid) (cat tgt : string),
    is_existing percent_world ".svg" "../source/official/AI/z.svg" = Some true ->
    build_mermaid_icon percent_world m "../source/official/AI/z.svg" cat tgt
    = Some (m, [ErrorParsingSvg "../source/official/AI/z.svg"]).
Proof.
  apply (unreadable_size_is_not_embedded percent_world "../source/official/AI/z.svg"
           "width"
           (Element "{http://www.w3.org/2000/svg}svg"
              [("width", "100%"); ("height", "32")] "" [] "")).
  - reflexivity.
  - left. reflexivity.
  - right. exists "100"%string, "%"%char. split; reflexivity.
Defined.

(** ** The file list (lines 79-80) *)

(** [build_file_list] returns the paths that the search found, each as
    often as it was found, in ascending order of the paths, and the same
    list whatever the order in which the search found them. *)
Theorem file_list_is_sorted_glob (w : World) :
  Permutation (build_file_list w) (glob_png w) /\
  Sorted le (build_file_list w) /\
  (forall p, In p (build_file_list w) <-> In p (glob_png w)) /\
  length (build_file_list w) = length (glob_png w) /\
  forall w', Permutation (glob_png w) (glob_png w') ->
             build_file_list w' = build_file_list w.
Proof.
  pose proof (sorted_by_perm id (glob_png w)) as Hp.
  repeat split.
  - exact Hp.
  - apply (sorted_by_sorted id).
  - apply Permutation_in. exact Hp.
  - apply Permutation_in. symmetry. exact Hp.
  - apply Permutation_length. exact Hp.
  - intros w' H. symmetry. now apply build_file_list_perm.
Qed.
